(** * LAMatHome journal: entry model, bounded history store, resource pipeline

    A shallow embedding of [utils/journal.py] and the properties of its
    entry factory, its two bounded logs and its download loop.

    Python values that reach the module are JSON trees; exceptions are
    values of an outcome type; the mutable [Journal] object, the logging
    stream and the files written are threaded explicitly through a small
    state-and-exception monad in which the state survives a raise, as it
    does in Python.  The collaborators the module calls but does not
    define (the debug flag, the uuid and clock sources, the rabbit-hole
    signing call, the HTTP transport, the file system) are the fields of
    an environment record. *)

From Stdlib Require Import String Ascii List ZArith Lia Bool Arith PeanoNat.
Import ListNotations.
Local Open Scope string_scope.
Local Open Scope list_scope.
Set Warnings "-register-all".

(* ===================================================================== *)
(** ** Python values, exceptions and outcomes *)
(* ===================================================================== *)

Module Py.

(** JSON-shaped Python values: [None], [bool], [int], [str], [list] and
    [dict] with string keys (floats do not occur in this model).  A dict is
    an association list read by first match. *)
Inductive json : Type :=
| JNull
| JBool (b : bool)
| JInt (z : Z)
| JStr (s : string)
| JList (l : list json)
| JDict (d : list (string * json)).

Definition dict := list (string * json).

(** An f-string keeps its interpolated values unrendered. *)
Inductive frag : Type :=
| Lit (s : string)
| Val (v : json).

Definition fstring := list frag.

(** The subclasses of [Exception] that this module can meet.
    [ValidationError] and [PydanticSerializationError] are pydantic's,
    both subclasses of [ValueError]; the first carries one (location,
    message) line per rejected value.  [RequestException] is requests'
    base class. *)
Inductive exn : Type :=
| ValueError (msg : fstring)
| ValidationError (errors : list (string * fstring))
| PydanticSerializationError (msg : fstring)
| TypeError (msg : fstring)
| AttributeError (msg : fstring)
| KeyError (key : json)
| IndexError (msg : fstring)
| RequestException (msg : fstring)
| OSError (msg : fstring)
| OtherException (name : string) (msg : fstring).

Inductive outcome (A : Type) : Type :=
| Return (a : A)
| Raise (e : exn).
Arguments Return {A} a.
Arguments Raise {A} e.

Definition obind {A B} (r : outcome A) (k : A -> outcome B) : outcome B :=
  match r with
  | Return a => k a
  | Raise e => Raise e
  end.

(** [isinstance(e, (TypeError, ValueError))] *)
Definition is_TypeError_or_ValueError (e : exn) : bool :=
  match e with
  | ValueError _ | ValidationError _ | PydanticSerializationError _ | TypeError _ => true
  | _ => false
  end.

(** [isinstance(e, requests.RequestException)] *)
Definition is_RequestException (e : exn) : bool :=
  match e with
  | RequestException _ => true
  | _ => false
  end.

Definition is_empty (s : string) : bool :=
  match s with
  | EmptyString => true
  | String _ _ => false
  end.

(** Truth value of a Python object, as tested by [if x]. *)
Definition truthy (v : json) : bool :=
  match v with
  | JNull => false
  | JBool b => b
  | JInt z => negb (Z.eqb z 0)
  | JStr s => negb (is_empty s)
  | JList l => match l with [] => false | _ :: _ => true end
  | JDict d => match d with [] => false | _ :: _ => true end
  end.

Definition type_name (v : json) : string :=
  match v with
  | JNull => "NoneType"
  | JBool _ => "bool"
  | JInt _ => "int"
  | JStr _ => "str"
  | JList _ => "list"
  | JDict _ => "dict"
  end.

Fixpoint lookup (d : dict) (k : string) : option json :=
  match d with
  | [] => None
  | (k', v) :: d' => if String.eqb k' k then Some v else lookup d' k
  end.

(** [k in d] *)
Definition contains (d : dict) (k : string) : bool :=
  match lookup d k with
  | Some _ => true
  | None => false
  end.

(** [d.get(k, default)] on a dict *)
Definition dict_get (d : dict) (k : string) (default : json) : json :=
  match lookup d k with
  | Some v => v
  | None => default
  end.

(** [d[k]] on a dict *)
Definition dict_item (d : dict) (k : string) : outcome json :=
  match lookup d k with
  | Some v => Return v
  | None => Raise (KeyError (JStr k))
  end.

Definition no_attribute (v : json) (attr : string) : exn :=
  AttributeError [Lit "'"; Lit (type_name v); Lit "' object has no attribute '";
                  Lit attr; Lit "'"].

(** [v.get(k, default)] on an arbitrary value: only a dict has [get]. *)
Definition get (v : json) (k : string) (default : json) : outcome json :=
  match v with
  | JDict d => Return (dict_get d k default)
  | _ => Raise (no_attribute v "get")
  end.

(** [for x in v]: a list yields its items, a str its characters, a dict
    its keys; nothing else is iterable. *)
Definition iter (v : json) : outcome (list json) :=
  match v with
  | JList l => Return l
  | JStr s => Return (map (fun c => JStr (String c EmptyString)) (list_ascii_of_string s))
  | JDict d => Return (map (fun kv => JStr (fst kv)) d)
  | _ => Raise (TypeError [Lit "'"; Lit (type_name v); Lit "' object is not iterable"])
  end.

(** [l[idx]] on a list, for an index that is not negative *)
Definition list_item (l : list json) (idx : nat) : outcome json :=
  match nth_error l idx with
  | Some v => Return v
  | None => Raise (IndexError [Lit "list index out of range"])
  end.

(** [s.replace(c, by)] for a one-character pattern *)
Fixpoint replace (c : ascii) (by_ : string) (s : string) : string :=
  match s with
  | EmptyString => EmptyString
  | String a s' =>
      if Ascii.eqb a c then by_ ++ replace c by_ s'
      else String a (replace c by_ s')
  end.

(** [s.split(sep)] for a one-character separator: never the empty list *)
Fixpoint split (sep : ascii) (s : string) : list string :=
  match s with
  | EmptyString => [EmptyString]
  | String a s' =>
      if Ascii.eqb a sep then EmptyString :: split sep s'
      else match split sep s' with
           | [] => [String a EmptyString]
           | w :: ws => String a w :: ws
           end
  end.

(** [v.split('/')[-1]] on an arbitrary value: only a str has [split]. *)
Definition split_last (v : json) (sep : ascii) : outcome string :=
  match v with
  | JStr s => Return (last (split sep s) EmptyString)
  | _ => Raise (no_attribute v "split")
  end.

(** Key lookup of a module-level dict keyed by strings, [m.get(k)] for an
    arbitrary key [k]: a list or dict key is unhashable. *)
Definition hashable (v : json) : bool :=
  match v with
  | JList _ | JDict _ => false
  | _ => true
  end.

Definition unhashable (v : json) : exn :=
  TypeError [Lit "unhashable type: '"; Lit (type_name v); Lit "'"].

Definition slash : ascii := "/"%char.
Definition backslash : ascii := ascii_of_nat 92.

End Py.
Export Py.

Notation "x <-- r ;;; k" := (obind r (fun x => k))
  (at level 61, r at next level, right associativity).

(* ===================================================================== *)
(** ** The standard library's [datetime], as far as the module uses it *)
(* ===================================================================== *)

(** [datetime.fromisoformat] and [datetime.isoformat] as CPython 3.11
    implements them in [_datetimemodule.c].  A Python [str] is the string
    of its UTF-8 bytes, which is what the parser reads; [None] stands for
    the [ValueError] it raises. *)
Module Datetime.
Local Open Scope Z_scope.

(** A [datetime] value; [tzinfo] is the UTC offset in microseconds of a
    fixed-offset [timezone], [None] for a naive value. *)
Record datetime : Type := mkDatetime {
  year : Z;
  month : Z;
  day : Z;
  hour : Z;
  minute : Z;
  second : Z;
  microsecond : Z;
  tzinfo : option Z
}.

Definition is_leap (y : Z) : bool :=
  (y mod 4 =? 0) && (negb (y mod 100 =? 0) || (y mod 400 =? 0)).

Definition days_in_month (y m : Z) : Z :=
  if (m =? 2) then (if is_leap y then 29 else 28)
  else if (m =? 4) || (m =? 6) || (m =? 9) || (m =? 11) then 30
  else 31.

Definition day_us : Z := 86400000000.

(** The range checks of the [datetime] and [timezone] constructors. *)
Definition in_range (d : datetime) : bool :=
  (1 <=? year d) && (year d <=? 9999) &&
  (1 <=? month d) && (month d <=? 12) &&
  (1 <=? day d) && (day d <=? days_in_month (year d) (month d)) &&
  (0 <=? hour d) && (hour d <=? 23) &&
  (0 <=? minute d) && (minute d <=? 59) &&
  (0 <=? second d) && (second d <=? 59) &&
  (0 <=? microsecond d) && (microsecond d <=? 999999) &&
  match tzinfo d with
  | None => true
  | Some off => (- day_us <? off) && (off <? day_us)
  end.

(** *** Calendar arithmetic *)

(** The table [_days_before_month]; a month outside 1..12 reads as 0. *)
Definition _days_before_month (m : Z) : Z :=
  match m with
  | 2 => 31 | 3 => 59 | 4 => 90 | 5 => 120 | 6 => 151 | 7 => 181
  | 8 => 212 | 9 => 243 | 10 => 273 | 11 => 304 | 12 => 334
  | _ => 0
  end.

(** Days before 1 January of year [y], in C's truncating division, and
    before the first of month [m]. *)
Definition days_before_year (y : Z) : Z :=
  let p := y - 1 in p * 365 + p ÷ 4 - p ÷ 100 + p ÷ 400.

Definition days_before_month (y m : Z) : Z :=
  _days_before_month m + (if (2 <? m) && is_leap y then 1 else 0).

Definition ymd_to_ord (y m d : Z) : Z :=
  days_before_year y + days_before_month y m + d.

(** Day of the week, Monday = 0 *)
Definition weekday (y m d : Z) : Z := Z.rem (ymd_to_ord y m d + 6) 7.

(** The ordinal of the Monday that starts ISO week 1 of year [y] *)
Definition iso_week1_monday (y : Z) : Z :=
  let first_day := ymd_to_ord y 1 1 in
  let first_weekday := Z.rem (first_day + 6) 7 in
  let week1_monday := first_day - first_weekday in
  if 3 <? first_weekday then week1_monday + 7 else week1_monday.

(** The date of a proleptic Gregorian ordinal, 1 January of year 1 being
    day 1 *)
Definition ord_to_ymd (ordinal : Z) : Z * Z * Z :=
  let ordinal := ordinal - 1 in
  let n400 := ordinal ÷ 146097 in
  let n := Z.rem ordinal 146097 in
  let n100 := n ÷ 36524 in
  let n := Z.rem n 36524 in
  let n4 := n ÷ 1461 in
  let n := Z.rem n 1461 in
  let n1 := n ÷ 365 in
  let n := Z.rem n 365 in
  let y := n400 * 400 + 1 + n100 * 100 + n4 * 4 + n1 in
  if (n1 =? 4) || (n100 =? 4) then (y - 1, 12, 31)
  else
    let leapyear := (n1 =? 3) && (negb (n4 =? 24) || (n100 =? 3)) in
    let m := Z.shiftr (n + 50) 5 in
    let preceding := _days_before_month m + (if (2 <? m) && leapyear then 1 else 0) in
    if n <? preceding
    then (y, m - 1, n - (preceding - days_in_month y (m - 1)) + 1)
    else (y, m, n - preceding + 1).

(** The calendar date of an ISO week date, [None] for a week or a day of
    the week that does not exist *)
Definition iso_to_ymd (iso_year iso_week iso_day : Z) : option (Z * Z * Z) :=
  let first_weekday := weekday iso_year 1 1 in
  let out_of_range :=
    ((iso_week <=? 0) || (53 <=? iso_week)) &&
    negb ((iso_week =? 53) &&
          ((first_weekday =? 3) || ((first_weekday =? 2) && is_leap iso_year))) in
  if out_of_range then None
  else if (iso_day <=? 0) || (8 <=? iso_day) then None
  else
    let day_1 := iso_week1_monday iso_year in
    let day_offset := (iso_week - 1) * 7 + iso_day - 1 in
    Some (ord_to_ymd (day_1 + day_offset)).

(** *** Reading characters *)

Definition NUL : ascii := Ascii.zero.

(** [*p]: the character at a position, the terminating NUL at the end *)
Definition peek (p : string) : ascii :=
  match p with
  | String c _ => c
  | EmptyString => NUL
  end.

(** [p + n] *)
Fixpoint advance (n : nat) (p : string) : string :=
  match n, p with
  | S n', String _ p' => advance n' p'
  | _, _ => p
  end.

Definition digit_val (c : ascii) : option Z :=
  let n := Z.of_N (N_of_ascii c) in
  if (48 <=? n) && (n <=? 57) then Some (n - 48) else None.

Definition digit_char (k : Z) : ascii := ascii_of_N (Z.to_N (48 + k)).

Definition is_digit (c : ascii) : bool :=
  match digit_val c with
  | Some _ => true
  | None => false
  end.

(** Reads exactly [num_digits] decimal digits on top of [var]. *)
Fixpoint parse_digits (num_digits : nat) (var : Z) (ptr : string) : option (Z * string) :=
  match num_digits with
  | O => Some (var, ptr)
  | S n =>
      match ptr with
      | EmptyString => None
      | String c ptr' =>
          match digit_val c with
          | Some k => parse_digits n (10 * var + k) ptr'
          | None => None
          end
      end
  end.

(** The digits at the front of a string: their number, and what follows *)
Fixpoint count_digits (p : string) : nat :=
  match p with
  | String c p' => if is_digit c then S (count_digits p') else O
  | EmptyString => O
  end.

Fixpoint skip_digits (p : string) : string :=
  match p with
  | String c p' => if is_digit c then skip_digits p' else p
  | EmptyString => EmptyString
  end.

(** *** The date *)

(** Where the date ends, by the characters at 4, 5, 8 and 10 and the
    length: 7 for [YYYYWww], 8 for [YYYYMMDD], [YYYY-Www] and [YYYYWwwd],
    10 for [YYYY-MM-DD] and [YYYY-Www-d]; -1 where no date fits. *)
Definition _find_isoformat_datetime_separator (dtstr : string) (len : Z) : Z :=
  if len =? 7 then 7
  else if Ascii.eqb (peek (advance 4 dtstr)) "-" then
    if Ascii.eqb (peek (advance 5 dtstr)) "W" then
      if len <? 8 then -1
      else if (8 <? len) && Ascii.eqb (peek (advance 8 dtstr)) "-" then
        if len =? 9 then -1
        else if (10 <? len) && is_digit (peek (advance 10 dtstr)) then 8
        else 10
      else 8
    else 10
  else if Ascii.eqb (peek (advance 4 dtstr)) "W" then
    let idx := 7 + Z.of_nat (count_digits (advance 7 dtstr)) in
    if idx <? 9 then idx
    else if Z.rem idx 2 =? 0 then 7
    else 8
  else 8.

(** The date in the first [len] characters: [YYYY-MM-DD], [YYYYMMDD] or a
    week date with or without its day *)
Definition parse_isoformat_date (dtstr : string) (len : Z) : option (Z * Z * Z) :=
  match parse_digits 4 0 dtstr with
  | None => None
  | Some (y, p) =>
      let uses_separator := Ascii.eqb (peek p) "-" in
      let p := if uses_separator then advance 1 p else p in
      let used := if uses_separator then 5 else 4 in
      if Ascii.eqb (peek p) "W" then
        match parse_digits 2 0 (advance 1 p) with
        | None => None
        | Some (iso_week, p) =>
            if used + 3 <? len then
              if uses_separator && negb (Ascii.eqb (peek p) "-") then None
              else
                match parse_digits 1 0 (if uses_separator then advance 1 p else p) with
                | None => None
                | Some (iso_day, _) => iso_to_ymd y iso_week iso_day
                end
            else iso_to_ymd y iso_week 1
        end
      else
        match parse_digits 2 0 p with
        | None => None
        | Some (m, p) =>
            if uses_separator && negb (Ascii.eqb (peek p) "-") then None
            else
              match parse_digits 2 0 (if uses_separator then advance 1 p else p) with
              | None => None
              | Some (d, _) => Some (y, m, d)
              end
        end
  end.

(** *** The time of day and the offset *)

(** The scale of a fraction of fewer than six digits *)
Definition correction (k : Z) : Z :=
  match k with
  | 0 => 100000 | 1 => 10000 | 2 => 1000 | 3 => 100 | 4 => 10
  | _ => 0
  end.

(** What [parse_hh_mm_ss_ff] returns: whether something other than the
    end of the string follows, the fields read (hour first) and the
    microseconds *)
Definition hms : Type := bool * list Z * Z.

Definition with_field (v : Z) (r : option hms) : option hms :=
  match r with
  | Some (more, fields, us) => Some (more, v :: fields, us)
  | None => None
  end.

(** The fraction in the [n] characters up to the end of the component: at
    most six digits are read, further digits are dropped. *)
Definition parse_ff (p : string) (n : Z) : option hms :=
  let to_parse := if 6 <=? n then 6 else n in
  match parse_digits (Z.to_nat to_parse) 0 p with
  | None => None
  | Some (us, p) =>
      let us := if to_parse <? 6 then us * correction (to_parse - 1) else us in
      Some (negb (Ascii.eqb (peek (skip_digits p)) NUL), [], us)
  end.

(** The loop of [parse_hh_mm_ss_ff] with [todo] fields to go, at a
    position [n] characters before the end of the component: two digits,
    then the end, a colon (if the hour was followed by one), a decimal
    mark, or the next field at once (if the hour was not followed by a
    colon). *)
Fixpoint hh_mm_ss (todo : nat) (first has_separator : bool) (p : string) (n : Z)
  : option hms :=
  match todo with
  | O => parse_ff p n
  | S todo' =>
      match parse_digits 2 0 p with
      | None => None
      | Some (v, p) =>
          let c := peek p in
          let has_separator := if first then Ascii.eqb c ":" else has_separator in
          with_field v
            (if n - 3 <=? 0 then Some (negb (Ascii.eqb c NUL), [], 0)
             else if has_separator && Ascii.eqb c ":"
                  then hh_mm_ss todo' false has_separator (advance 1 p) (n - 3)
             else if Ascii.eqb c "." || Ascii.eqb c ","
                  then parse_ff (advance 1 p) (n - 3)
             else if negb has_separator
                  then hh_mm_ss todo' false has_separator p (n - 2)
             else None)
      end
  end.

(** [HH[:MM[:SS[.fff]]]] or [HH[MM[SS[.fff]]]] in the [n] characters from
    [tstr] *)
Definition parse_hh_mm_ss_ff (tstr : string) (n : Z) : option hms :=
  hh_mm_ss 3 true true tstr n.

Definition is_tz_start (c : ascii) : bool :=
  Ascii.eqb c "Z" || Ascii.eqb c "+" || Ascii.eqb c "-".

(** The position, counted from [p], of the first [Z], [+] or [-] among
    its [n] characters; [n] if there is none, and 1 if [n] is 0 *)
Fixpoint find_tzinfo (p : string) (n : Z) (pos : Z) : Z :=
  match p with
  | EmptyString => pos + 1
  | String c p' =>
      if is_tz_start c then pos
      else if pos + 1 <? n then find_tzinfo p' n (pos + 1)
      else pos + 1
  end.

(** The time of day in the [n] characters from [p], and the offset in
    seconds and microseconds if there is one *)
Definition parse_isoformat_time (p : string) (n : Z)
  : option (list Z * Z * option (Z * Z)) :=
  let tzinfo_pos := find_tzinfo p n 0 in
  match parse_hh_mm_ss_ff p tzinfo_pos with
  | None => None
  | Some (more, fields, us) =>
      if tzinfo_pos =? n then
        if more then None else Some (fields, us, None)
      else
        let q := advance (Z.to_nat tzinfo_pos) p in
        if Ascii.eqb (peek q) "Z" then
          if Ascii.eqb (peek (advance 1 q)) NUL then Some (fields, us, Some (0, 0))
          else None
        else
          let tzsign := if Ascii.eqb (peek q) "-" then -1 else 1 in
          match parse_hh_mm_ss_ff (advance 1 q) (n - tzinfo_pos - 1) with
          | Some (false, tz, tzus) =>
              let tzoffset :=
                tzsign * (nth 0 tz 0 * 3600 + nth 1 tz 0 * 60 + nth 2 tz 0) in
              Some (fields, us, Some (tzoffset, tzus * tzsign))
          | _ => None
          end
  end.

(** [timezone.utc] for an offset of zero seconds, whatever its
    microseconds; [None] for a naive value *)
Definition tzinfo_from_isoformat_results (tz : option (Z * Z)) : option Z :=
  match tz with
  | None => None
  | Some (tzoffset, tz_useconds) =>
      if tzoffset =? 0 then Some 0 else Some (tzoffset * 1000000 + tz_useconds)
  end.

(** The length in bytes of the character that starts with byte [c] *)
Definition utf8_width (c : ascii) : nat :=
  let b := Z.of_N (N_of_ascii c) in
  if Z.land b 128 =? 0 then 1%nat
  else if Z.land b 240 =? 224 then 3%nat
  else if Z.land b 240 =? 240 then 4%nat
  else 2%nat.

(** A length as [size_t] *)
Definition size_t (n : Z) : Z := n mod 2 ^ 64.

(** [datetime.fromisoformat] *)
Definition fromisoformat (dtstr : string) : option datetime :=
  let len := Z.of_nat (String.length dtstr) in
  if len <? 7 then None
  else
    let separator_location := _find_isoformat_datetime_separator dtstr len in
    match parse_isoformat_date dtstr (size_t separator_location) with
    | None => None
    | Some (y, m, d) =>
        let time :=
          if separator_location <? len then
            let p := advance (Z.to_nat separator_location) dtstr in
            let w := utf8_width (peek p) in
            parse_isoformat_time (advance w p)
                                 (len - (separator_location + Z.of_nat w))
          else Some ([], 0, None) in
        match time with
        | None => None
        | Some (fields, us, tz) =>
            let r := mkDatetime y m d (nth 0 fields 0) (nth 1 fields 0) (nth 2 fields 0)
                                us (tzinfo_from_isoformat_results tz) in
            if in_range r then Some r else None
        end
    end.

(** [w] decimal digits of [n], zero padded: [%0wd] for [0 <= n < 10^w]. *)
Fixpoint zfill (w : nat) (n : Z) : string :=
  match w with
  | O => EmptyString
  | S w' => (zfill w' (n / 10) ++ String (digit_char (n mod 10)) EmptyString)%string
  end.

Definition dot_micro (us : Z) : string :=
  if us =? 0 then EmptyString else ("." ++ zfill 6 us)%string.

(** The offset suffix written by [isoformat]. *)
Definition format_offset (tz : option Z) : string :=
  match tz with
  | None => EmptyString
  | Some off =>
      let sign := if off <? 0 then "-"%string else "+"%string in
      let a := Z.abs off in
      let hh := a / 3600000000 in
      let mm := (a mod 3600000000) / 60000000 in
      let ss := (a mod 60000000) / 1000000 in
      let us := a mod 1000000 in
      (sign ++ zfill 2 hh ++ ":" ++ zfill 2 mm ++
       (if Z.eqb ss 0 && Z.eqb us 0 then EmptyString
        else ":" ++ zfill 2 ss ++ dot_micro us))%string
  end.

(** [d.isoformat()] *)
Definition isoformat (d : datetime) : string :=
  (zfill 4 (year d) ++ "-" ++ zfill 2 (month d) ++ "-" ++ zfill 2 (day d) ++
   "T" ++ zfill 2 (hour d) ++ ":" ++ zfill 2 (minute d) ++ ":" ++
   zfill 2 (second d) ++ dot_micro (microsecond d) ++
   format_offset (tzinfo d))%string.

Definition toordinal (d : datetime) : Z := ymd_to_ord (year d) (month d) (day d).

(** The absolute instant of an aware value: microseconds on the UTC time
    line, counted from the start of proleptic day one. *)
Definition instant (d : datetime) : option Z :=
  match tzinfo d with
  | None => None
  | Some off =>
      let secs := toordinal d * 86400 + hour d * 3600 + minute d * 60 + second d in
      Some (secs * 1000000 + microsecond d - off)
  end.

Definition aware (d : datetime) : bool :=
  match tzinfo d with
  | Some _ => true
  | None => false
  end.

End Datetime.
Export Datetime.

(* ===================================================================== *)
(** ** External collaborators *)
(* ===================================================================== *)

Definition bytes := list Byte.byte.

(** What one call of the module sees of the outside world.  [requests_get]
    stands for [requests.get] followed by [raise_for_status] and reading
    [content]; [open_write] for opening the file in [wb+] mode and writing
    to it.  Both get the position of the call in the download loop, so the
    same URL may succeed at one position and fail at another.
    [fetch_user_entry_resource] receives the list that the module passes
    to it JSON-encoded. *)
Record Env : Type := {
  debug : bool;
  uuid4 : string;
  uuid1 : string;
  now_created : datetime;
  now_modified : datetime;
  fetch_user_entry_resource : list json -> outcome json;
  requests_get : nat -> json -> outcome bytes;
  open_write : nat -> string -> bytes -> outcome unit;
  os_path_join : string -> string -> string
}.

(* ===================================================================== *)
(** ** Entry model *)
(* ===================================================================== *)

Inductive EntryClass : Type :=
| ClsEntry
| ClsVisionEntry
| ClsMagicCamEntry
| ClsAiGeneratedImageEntry
| ClsNoteEntry
| ClsConversationEntry
| ClsSearchEntry
| ClsSearchMemoryEntry.

Definition class_name (c : EntryClass) : string :=
  match c with
  | ClsEntry => "Entry"
  | ClsVisionEntry => "VisionEntry"
  | ClsMagicCamEntry => "MagicCamEntry"
  | ClsAiGeneratedImageEntry => "AiGeneratedImageEntry"
  | ClsNoteEntry => "NoteEntry"
  | ClsConversationEntry => "ConversationEntry"
  | ClsSearchEntry => "SearchEntry"
  | ClsSearchMemoryEntry => "SearchMemoryEntry"
  end.

(** class Entry(BaseModel) and its subclasses: the fields are those of
    [Entry], the class is the one the instance was built from. *)
Record Entry : Type := mkEntry {
  cls : EntryClass;
  id : string;
  userId : string;
  createdOn : datetime;
  modifiedOn : datetime;
  archived : bool;
  type : string;
  title : string;
  data : dict;
  utterance : list (string * string)
}.

(** Entry.convert_to_datetime, the [before] validator of both timestamps *)
Definition convert_to_datetime (value : json) : outcome datetime :=
  match value with
  | JStr s =>
      match fromisoformat (replace "Z" "+00:00" s) with
      | Some d => Return d
      | None => Raise (ValueError [Lit "Invalid date format: "; Val value])
      end
  | _ => Raise (no_attribute value "replace")
  end.

(** Field validation as pydantic performs it for the annotations of
    [Entry]: a field is accepted, rejected with a message that ends up in
    the [ValidationError], rejected item by item with one message per
    key, or its validator raises something that pydantic does not convert
    and that leaves the constructor as it is. *)
Module Pydantic.

Inductive field (A : Type) : Type :=
| Valid (a : A)
| Invalid (msg : fstring)
| Invalid_items (lines : list (string * fstring))
| Aborted (e : exn).
Arguments Valid {A} a.
Arguments Invalid {A} msg.
Arguments Invalid_items {A} lines.
Arguments Aborted {A} e.

Definition required {A} (v : option json) (check : json -> field A) : field A :=
  match v with
  | Some x => check x
  | None => Invalid [Lit "Field required"]
  end.

Definition str_field (v : json) : field string :=
  match v with
  | JStr s => Valid s
  | _ => Invalid [Lit "Input should be a valid string"]
  end.

Definition lower_char (c : ascii) : ascii :=
  let n := nat_of_ascii c in
  if (65 <=? n)%nat && (n <=? 90)%nat then ascii_of_nat (n + 32) else c.

Fixpoint lower (s : string) : string :=
  match s with
  | EmptyString => EmptyString
  | String c s' => String (lower_char c) (lower s')
  end.

Definition mem_str (s : string) (l : list string) : bool :=
  existsb (String.eqb s) l.

(** The lax-mode coercions of a [bool] field: an int or a str that does
    not read as a boolean cannot be interpreted, any other value is of
    the wrong type. *)
Definition bool_field (v : json) : field bool :=
  let bad := Invalid [Lit "Input should be a valid boolean, unable to interpret input"] in
  match v with
  | JBool b => Valid b
  | JInt z => if Z.eqb z 0 then Valid false else if Z.eqb z 1 then Valid true else bad
  | JStr s =>
      if mem_str (lower s) ["1"; "on"; "t"; "true"; "y"; "yes"] then Valid true
      else if mem_str (lower s) ["0"; "off"; "f"; "false"; "n"; "no"] then Valid false
      else bad
  | _ => Invalid [Lit "Input should be a valid boolean"]
  end.

Definition dict_any_field (v : json) : field dict :=
  match v with
  | JDict d => Valid d
  | _ => Invalid [Lit "Input should be a valid dictionary"]
  end.

Fixpoint str_values (d : dict) : option (list (string * string)) :=
  match d with
  | [] => Some []
  | (k, JStr s) :: d' =>
      match str_values d' with
      | Some r => Some ((k, s) :: r)
      | None => None
      end
  | _ :: _ => None
  end.

(** One line for each value of the dict that is not a str, under its key *)
Fixpoint str_errors (d : dict) : list (string * fstring) :=
  match d with
  | [] => []
  | (_, JStr _) :: d' => str_errors d'
  | (k, _) :: d' => (k, [Lit "Input should be a valid string"]) :: str_errors d'
  end.

Definition dict_str_field (v : json) : field (list (string * string)) :=
  match v with
  | JDict d =>
      match str_values d with
      | Some r => Valid r
      | None => Invalid_items (str_errors d)
      end
  | _ => Invalid [Lit "Input should be a valid dictionary"]
  end.

(** A field with a [before] validator: a [ValueError] of the validator is
    a rejection, anything else it raises is not caught. *)
Definition validated {A} (r : outcome A) : field A :=
  match r with
  | Return a => Valid a
  | Raise (ValueError msg) => Invalid (Lit "Value error, " :: msg)
  | Raise e => Aborted e
  end.

(** The lines of a field in the [ValidationError], each under its
    location: the name of the field, followed by the key for an item *)
Definition errors_of {A} (name : string) (f : field A) : list (string * fstring) :=
  match f with
  | Invalid msg => [(name, msg)]
  | Invalid_items lines =>
      map (fun line => ((name ++ "." ++ fst line)%string, snd line)) lines
  | _ => []
  end.

Definition accepted {A} (f : field A) : option A :=
  match f with
  | Valid a => Some a
  | _ => None
  end.

Definition aborted {A} (f : field A) : option exn :=
  match f with
  | Aborted e => Some e
  | _ => None
  end.

End Pydantic.
Import Pydantic.

(** [id] is read under its alias [_id] or, with [populate_by_name], under
    its own name; without either the default factory supplies a uuid4. *)
Definition id_field (env : Env) (kw : dict) : field string :=
  match lookup kw "_id" with
  | Some v => str_field v
  | None =>
      match lookup kw "id" with
      | Some v => str_field v
      | None => Valid (uuid4 env)
      end
  end.

(** The constructor call of class [c] with the payload as its keyword
    arguments: the fields are validated in declaration order, unknown keys
    are ignored. *)
Definition construct (c : EntryClass) (env : Env) (kw : dict) : outcome Entry :=
  let f_id := id_field env kw in
  let f_userId := required (lookup kw "userId") str_field in
  let f_createdOn :=
    required (lookup kw "createdOn") (fun v => validated (convert_to_datetime v)) in
  let f_modifiedOn :=
    required (lookup kw "modifiedOn") (fun v => validated (convert_to_datetime v)) in
  let f_archived := required (lookup kw "archived") bool_field in
  let f_type := required (lookup kw "type") str_field in
  let f_title := required (lookup kw "title") str_field in
  let f_data := required (lookup kw "data") dict_any_field in
  let f_utterance := required (lookup kw "utterance") dict_str_field in
  match aborted f_createdOn, aborted f_modifiedOn with
  | Some e, _ => Raise e
  | None, Some e => Raise e
  | None, None =>
      match accepted f_id, accepted f_userId, accepted f_createdOn,
            accepted f_modifiedOn, accepted f_archived, accepted f_type,
            accepted f_title, accepted f_data, accepted f_utterance with
      | Some i, Some u, Some co, Some mo, Some a, Some t, Some ti, Some d, Some ut =>
          Return (mkEntry c i u co mo a t ti d ut)
      | _, _, _, _, _, _, _, _, _ =>
          Raise (ValidationError
                   (errors_of "_id" f_id ++ errors_of "userId" f_userId ++
                    errors_of "createdOn" f_createdOn ++
                    errors_of "modifiedOn" f_modifiedOn ++
                    errors_of "archived" f_archived ++ errors_of "type" f_type ++
                    errors_of "title" f_title ++ errors_of "data" f_data ++
                    errors_of "utterance" f_utterance))
      end
  end.

(** The levels of a value: one for the value itself, and those of the
    deepest item of a list or dict *)
Fixpoint levels (v : json) : nat :=
  match v with
  | JList l => S (fold_right (fun x n => Nat.max (levels x) n) 0%nat l)
  | JDict d => S (fold_right (fun kv n => Nat.max (let '(_, x) := kv in levels x) n) 0%nat d)
  | _ => 1%nat
  end.

(** The recursion guard of pydantic's serializer counts in a byte the
    values it is inside of. *)
Definition recursion_limit : nat := 255.

(** What [data] may hold for the entry to be dumped: the field is a
    [Dict[str, Any]], and each value under it is serialized as whatever
    it is, under the guard. *)
Definition serializable (e : Entry) : bool :=
  forallb (fun kv => (levels (snd kv) <=? recursion_limit)%nat) (data e).

(** [entry.model_dump_json()]; the text itself is kept as the entry. *)
Definition model_dump_json (e : Entry) : outcome Entry :=
  if serializable e then Return e
  else Raise (PydanticSerializationError
                [Lit "Error serializing to JSON: ValueError: Circular reference detected (depth exceeded)"]).

(** The list comprehension shared by the three resource-bearing classes:
    [[file.get('url') for file in files if file.get('url')]] *)
Fixpoint url_comprehension (files : list json) : outcome (list json) :=
  match files with
  | [] => Return []
  | file :: rest =>
      cond <-- get file "url" JNull ;;;
      if truthy cond then
        url <-- get file "url" JNull ;;;
        urls <-- url_comprehension rest ;;;
        Return (url :: urls)
      else url_comprehension rest
  end.

Module VisionEntry.
Definition get_resource_urls (self : Entry) : outcome (list json) :=
  if contains (data self) "visionData" then
    vision <-- dict_item (data self) "visionData" ;;;
    files <-- get vision "files" (JList []) ;;;
    items <-- iter files ;;;
    url_comprehension items
  else Return [].
End VisionEntry.

Module MagicCamEntry.
Definition get_resource_urls (self : Entry) : outcome (list json) :=
  if contains (data self) "magicCameraData" then
    magic <-- dict_item (data self) "magicCameraData" ;;;
    files <-- get magic "aiGeneratedImages" (JList []) ;;;
    items <-- iter files ;;;
    url_comprehension items
  else Return [].
End MagicCamEntry.

Module AiGeneratedImageEntry.
Definition get_resource_urls (self : Entry) : outcome (list json) :=
  if contains (data self) "aiGeneratedImageData" then
    image <-- dict_item (data self) "aiGeneratedImageData" ;;;
    files <-- get image "files" (JList []) ;;;
    items <-- iter files ;;;
    url_comprehension items
  else Return [].
End AiGeneratedImageEntry.

(** [entry.get_resource_urls()]: the method is looked up on the class of
    the instance; [Entry] and the four classes whose body is [pass] do not
    define it, and the attribute lookup fails. *)
Definition get_resource_urls (entry : Entry) : outcome (list json) :=
  match cls entry with
  | ClsVisionEntry => VisionEntry.get_resource_urls entry
  | ClsMagicCamEntry => MagicCamEntry.get_resource_urls entry
  | ClsAiGeneratedImageEntry => AiGeneratedImageEntry.get_resource_urls entry
  | c => Raise (AttributeError [Lit "'"; Lit (class_name c);
                               Lit "' object has no attribute 'get_resource_urls'"])
  end.

(** The module-level table [entry_type_mapping], by key *)
Definition entry_type_mapping (k : string) : option EntryClass :=
  if String.eqb k "ai-generated-image" then Some ClsAiGeneratedImageEntry
  else if String.eqb k "magic-camera" then Some ClsMagicCamEntry
  else if String.eqb k "vision" then Some ClsVisionEntry
  else if String.eqb k "note" then Some ClsNoteEntry
  else if String.eqb k "conversation" then Some ClsConversationEntry
  else if String.eqb k "beta-rabbit" then Some ClsConversationEntry
  else if String.eqb k "search" then Some ClsSearchEntry
  else if String.eqb k "search-memory" then Some ClsSearchMemoryEntry
  else None.

(** [entry_type_mapping.get(entry_type)] for whatever [entry_data.get('type')]
    returned: no key but a str equals a key of the table, and an unhashable
    key raises. *)
Definition entry_type_mapping_get (entry_type : json) : outcome (option EntryClass) :=
  match entry_type with
  | JStr k => Return (entry_type_mapping k)
  | JList _ | JDict _ => Raise (unhashable entry_type)
  | _ => Return None
  end.

Definition create_entry_model (env : Env) (entry_data : dict) : outcome Entry :=
  let entry_type := dict_get entry_data "type" JNull in
  found <-- entry_type_mapping_get entry_type ;;;
  let EntryModel := match found with Some c => c | None => ClsEntry end in
  construct EntryModel env entry_data.

(* ===================================================================== *)
(** ** The Journal *)
(* ===================================================================== *)

(** [collections.deque] with a [maxlen] *)
Module Deque.

Record deque (A : Type) : Type := mkDeque {
  maxlen : nat;
  items : list A
}.
Arguments mkDeque {A} maxlen items.
Arguments maxlen {A} d.
Arguments items {A} d.

(** [deque(maxlen=n)] *)
Definition new {A} (n : Z) : outcome (deque A) :=
  if (n <? 0)%Z then Raise (ValueError [Lit "maxlen must be non-negative"])
  else Return (mkDeque (Z.to_nat n) []).

(** [d.append(x)]: the item is added on the right and, if the deque has
    grown past [maxlen], one item is dropped on the left. *)
Definition append {A} (d : deque A) (x : A) : deque A :=
  let l := items d ++ [x] in
  mkDeque (maxlen d) (if (maxlen d <? length l)%nat then tl l else l).

End Deque.
Import Deque.

Module Journal.

(** The dict built by [_add_interaction], with keys [_id], [date],
    [user utterance] and [LAH action] *)
Record Interaction : Type := mkInteraction {
  interaction_id : string;
  date : datetime;
  user_utterance : string;
  LAH_action : string
}.

Record t : Type := mkJournal {
  entries : deque Entry;
  interactions : deque Interaction
}.

Inductive Level : Type := INFO | ERROR.

(** A fragment of a logged f-string *)
Inductive lfrag : Type :=
| Text (s : string)
| Value (v : json)
| Exc (e : exn)
| Dump (e : Entry).

Definition LogRecord : Type := Level * list lfrag.

(** The journal object, the records logged so far and the files written
    so far, each in order. *)
Record State : Type := mkState {
  self : t;
  log : list LogRecord;
  disk : list (string * bytes)
}.

(** Computations over [State] that return or raise; the state reached at
    a raise is kept. *)
Definition M (A : Type) : Type := State -> outcome A * State.

Definition ret {A} (a : A) : M A := fun s => (Return a, s).

Definition raise {A} (e : exn) : M A := fun s => (Raise e, s).

Definition bind {A B} (m : M A) (k : A -> M B) : M B :=
  fun s =>
    match m s with
    | (Return a, s') => k a s'
    | (Raise e, s') => (Raise e, s')
    end.

Definition lift {A} (r : outcome A) : M A := fun s => (r, s).

(** [try: body except ...]: the handler is [None] for an exception no
    clause matches. *)
Definition try_ {A} (body : M A) (handler : exn -> option (M A)) : M A :=
  fun s =>
    match body s with
    | (Return a, s') => (Return a, s')
    | (Raise e, s') =>
        match handler e with
        | Some h => h s'
        | None => (Raise e, s')
        end
    end.

Definition logging (lvl : Level) (message : list lfrag) : M unit :=
  fun s => (Return tt, mkState (self s) (log s ++ [(lvl, message)]) (disk s)).

Definition update (f : t -> t) : M unit :=
  fun s => (Return tt, mkState (f (self s)) (log s) (disk s)).

Definition write_file (path : string) (content : bytes) : M unit :=
  fun s => (Return tt, mkState (self s) (log s) (disk s ++ [(path, content)])).

Notation "x <- m ;; k" := (bind m (fun x => k))
  (at level 61, m at next level, right associativity).
Notation "m ;; k" := (bind m (fun _ => k))
  (at level 61, right associativity).

Definition newline : string := String (ascii_of_nat 10) EmptyString.

Definition __init__ (max_entries : Z) : outcome t :=
  entries <-- Deque.new max_entries ;;;
  interactions <-- Deque.new max_entries ;;;
  Return (mkJournal entries interactions).

Definition _log_debug (env : Env) (message : list lfrag) : M unit :=
  if debug env then logging INFO message else ret tt.

Definition _create_basic_entry (env : Env) (user_input : string) : dict :=
  [ ("_id", JStr (uuid1 env));
    ("userId", JStr "local_user");
    ("createdOn", JStr (isoformat (now_created env)));
    ("modifiedOn", JStr (isoformat (now_modified env)));
    ("archived", JBool false);
    ("type", JStr "conversation");
    ("title", JStr "CLI Input");
    ("data", JDict [("conversationData", JDict [("textContent", JStr EmptyString)])]);
    ("utterance", JDict [("prompt", JStr user_input); ("intention", JStr "CONVERSATION")]) ].

Definition _create_entry (env : Env) (entry_data : dict) : M (option Entry) :=
  let entry_type := dict_get entry_data "type" JNull in
  entry_class <- lift (entry_type_mapping_get entry_type) ;;
  match entry_class with
  | Some c =>
      _log_debug env [Text "Creating entry of type: "; Value entry_type] ;;
      try_ (entry <- lift (construct c env entry_data) ;;
            ret (Some entry))
           (fun e =>
              Some (logging ERROR [Text "Error creating entry of type "; Value entry_type;
                                   Text ": "; Exc e] ;;
                    ret None))
  | None => raise (ValueError [Lit "Unknown entry type: "; Val entry_type])
  end.

Fixpoint str_lookup (d : list (string * string)) (k : string) : option string :=
  match d with
  | [] => None
  | (k', v) :: d' => if String.eqb k' k then Some v else str_lookup d' k
  end.

(** [entry.utterance['prompt']] *)
Definition utterance_item (entry : Entry) (k : string) : outcome string :=
  match str_lookup (utterance entry) k with
  | Some v => Return v
  | None => Raise (KeyError (JStr k))
  end.

Definition _add_interaction (entry : Entry) (task_response : string) : M unit :=
  prompt <- lift (utterance_item entry "prompt") ;;
  let interaction := mkInteraction (id entry) (createdOn entry) prompt task_response in
  update (fun j => mkJournal (entries j) (append (interactions j) interaction)).

(** What [add_entry] is given: a dict, or the text of a CLI input *)
Inductive EntryData : Type :=
| FromDict (d : dict)
| FromStr (s : string).

(** [if llm_response:] for an optional str *)
Definition supplied (llm_response : option string) : option string :=
  match llm_response with
  | Some r => if is_empty r then None else Some r
  | None => None
  end.

Definition add_entry (env : Env) (entry_data : EntryData) (llm_response : option string)
  : M (option Entry) :=
  let entry_data :=
    match entry_data with
    | FromStr user_input => _create_basic_entry env user_input
    | FromDict d => d
    end in
  try_ (entry <- _create_entry env entry_data ;;
        match entry with
        | Some e =>
            dump <- lift (model_dump_json e) ;;
            _log_debug env [Text "Entry created successfully:"; Text newline; Dump dump] ;;
            update (fun j => mkJournal (append (entries j) e) (interactions j)) ;;
            match supplied llm_response with
            | Some r => _add_interaction e r
            | None => ret tt
            end ;;
            ret (Some e)
        | None => ret None
        end)
       (fun e =>
          if is_TypeError_or_ValueError e
          then Some (logging ERROR [Text "Failed to instantiate entry: "; Exc e] ;;
                     ret None)
          else None).

Definition get_signed_resource_urls (env : Env) (entry : Entry) : M json :=
  try_ (urls <- lift (get_resource_urls entry) ;;
        response <- lift (fetch_user_entry_resource env urls) ;;
        lift (get response "resources" (JList [])))
       (fun e =>
          Some (logging ERROR [Text "Failed to fetch signed resource URLs: "; Exc e] ;;
                ret (JList []))).

(** One turn of the loop of [save_resources]: the body of its [try] and
    the two [except] clauses.  The message of the first handler holds the
    signed item as it is: the items of a signed list are URL strings, and
    the text of a string in an f-string is the string.  What the f-string
    does with an item that is not a string is outside this definition, and
    the theorems that would depend on it are stated for lists of strings. *)
Definition save_one (env : Env) (entry : Entry) (directory : string)
    (urls : list json) (idx : nat) (resource_url : json) (saved_files : list string)
  : M (list string) :=
  try_ (content <- lift (requests_get env idx resource_url) ;;
        raw <- lift (list_item urls idx) ;;
        base <- lift (split_last raw slash) ;;
        let save_name := (id entry ++ "_" ++ base)%string in
        let save_path := os_path_join env directory save_name in
        lift (open_write env idx save_path content) ;;
        write_file save_path content ;;
        let save_path := replace slash (String backslash EmptyString) save_path in
        logging INFO [Text "Saved image to "; Value (JStr save_path)] ;;
        ret (saved_files ++ [save_path]))
       (fun e =>
          if is_RequestException e
          then Some (logging ERROR [Text "Failed to download image from ";
                                    Value resource_url; Text ": "; Exc e] ;;
                     ret saved_files)
          else Some (logging ERROR [Text "Failed to save resource: "; Exc e] ;;
                     ret saved_files)).

Fixpoint save_loop (env : Env) (entry : Entry) (directory : string)
    (urls : list json) (idx : nat) (signed_urls : list json) (saved_files : list string)
  : M (list string) :=
  match signed_urls with
  | [] => ret saved_files
  | resource_url :: rest =>
      saved_files <- save_one env entry directory urls idx resource_url saved_files ;;
      save_loop env entry directory urls (S idx) rest saved_files
  end.

Definition save_resources (env : Env) (entry : Entry) (directory : string)
  : M (list string) :=
  urls <- lift (get_resource_urls entry) ;;
  signed_urls <- get_signed_resource_urls env entry ;;
  enumerated <- lift (iter signed_urls) ;;
  save_loop env entry directory urls 0 enumerated [].

Definition last_entry (j : t) : option Entry :=
  last (map Some (items (entries j))) None.

Definition get_entries (j : t) : list Entry := items (entries j).

Definition get_entry_by_id (j : t) (entry_id : string) : option Entry :=
  find (fun e => String.eqb (id e) entry_id) (items (entries j)).

Definition get_entry_by_index (j : t) (index : Z) : option Entry :=
  if (0 <=? index)%Z && (index <? Z.of_nat (length (items (entries j))))%Z
  then nth_error (items (entries j)) (Z.to_nat index)
  else None.

Definition last_interaction (j : t) : option Interaction :=
  last (map Some (items (interactions j))) None.

Definition get_interactions (j : t) : list Interaction := items (interactions j).

Definition get_interaction_by_id (j : t) (entry_id : string) : option Interaction :=
  find (fun i => String.eqb (interaction_id i) entry_id) (items (interactions j)).

Definition get_interaction_by_index (j : t) (index : Z) : option Interaction :=
  if (0 <=? index)%Z && (index <? Z.of_nat (length (items (interactions j))))%Z
  then nth_error (items (interactions j)) (Z.to_nat index)
  else None.

End Journal.
Import Journal.

(* ===================================================================== *)
(** ** Callers, specifications and sample data used by the statements *)
(* ===================================================================== *)

(** One call of [add_entry], with the environment it runs in. *)
Record Call : Type := mkCall {
  call_env : Env;
  call_data : EntryData;
  call_response : option string
}.

(** A caller that issues the calls in order on the same journal and keeps
    what each of them returned or raised. *)
Fixpoint run_calls (calls : list Call) (s : State)
  : list (outcome (option Entry)) * State :=
  match calls with
  | [] => ([], s)
  | c :: rest =>
      let (r, s1) := add_entry (call_env c) (call_data c) (call_response c) s in
      let (rs, s2) := run_calls rest s1 in
      (r :: rs, s2)
  end.

(** The dict that [add_entry] hands to the factory *)
Definition payload_of (env : Env) (entry_data : EntryData) : dict :=
  match entry_data with
  | FromStr user_input => _create_basic_entry env user_input
  | FromDict d => d
  end.

(** The state after some more records were logged *)
Definition logged (s : State) (records : list LogRecord) : State :=
  mkState (self s) (log s ++ records) (disk s).

(** The state after the journal object was changed and records were logged *)
Definition stored (s : State) (j : Journal.t) (records : list LogRecord) : State :=
  mkState j (log s ++ records) (disk s).

Definition size {A} (d : deque A) : nat := length (items d).

(** The last [n] items of a list *)
Definition lastn {A} (n : nat) (l : list A) : list A := skipn (length l - n) l.

(** A journal that has just been constructed, nothing logged or written *)
Definition fresh (j : Journal.t) : State := mkState j [] [].

(** The keys of [entry_type_mapping] *)
Definition known_types : list string :=
  ["ai-generated-image"; "magic-camera"; "vision"; "note"; "conversation";
   "beta-rabbit"; "search"; "search-memory"].

Definition non_resource (c : EntryClass) : bool :=
  match c with
  | ClsNoteEntry | ClsConversationEntry | ClsSearchEntry | ClsSearchMemoryEntry => true
  | _ => false
  end.

Definition is_dict (v : json) : bool :=
  match v with
  | JDict _ => true
  | _ => false
  end.

(** The shape of [data] under which the vision extraction reads without
    meeting a value of the wrong type: [visionData], when present, is a
    dict, its [files], when present, is a list, and every item of that
    list is a dict. *)
Definition vision_shaped (d : dict) : bool :=
  match lookup d "visionData" with
  | None => true
  | Some (JDict vision) =>
      match lookup vision "files" with
      | None => true
      | Some (JList files) => forallb is_dict files
      | Some _ => false
      end
  | Some _ => false
  end.

(** The file descriptors under [data.visionData.files], none when a level
    is missing *)
Definition vision_files (d : dict) : list json :=
  match lookup d "visionData" with
  | Some (JDict vision) =>
      match lookup vision "files" with
      | Some (JList files) => files
      | _ => []
      end
  | _ => []
  end.

(** The [url] of a file descriptor, [None] for a descriptor without one *)
Definition url_of (file : json) : json :=
  match file with
  | JDict f => dict_get f "url" JNull
  | _ => JNull
  end.

(** Two consecutive calls of the extraction on the same entry *)
Definition extract_twice (entry : Entry) : M (list json * list json) :=
  bind (lift (get_resource_urls entry)) (fun first =>
  bind (lift (get_resource_urls entry)) (fun second =>
  ret (first, second))).

(** The local path reported for position [idx] of the signed list, when
    the fetch succeeds, the raw URL at that position is a str and the write
    succeeds; [None] otherwise. *)
Definition saved_path (env : Env) (entry : Entry) (directory : string)
    (urls : list json) (idx : nat) (resource_url : json) : option string :=
  match requests_get env idx resource_url with
  | Return content =>
      match nth_error urls idx with
      | Some (JStr raw) =>
          let save_path :=
            os_path_join env directory
              (id entry ++ "_" ++ last (split slash raw) EmptyString)%string in
          match open_write env idx save_path content with
          | Return _ => Some (replace slash (String backslash EmptyString) save_path)
          | Raise _ => None
          end
      | _ => None
      end
  | Raise _ => None
  end.

(** The paths of the successful downloads, in the order of the signed
    list, which starts at position [idx] *)
Fixpoint downloads (env : Env) (entry : Entry) (directory : string)
    (urls : list json) (idx : nat) (signed_urls : list json) : list string :=
  match signed_urls with
  | [] => []
  | resource_url :: rest =>
      match saved_path env entry directory urls idx resource_url with
      | Some p => p :: downloads env entry directory urls (S idx) rest
      | None => downloads env entry directory urls (S idx) rest
      end
  end.

(** ISO 8601 timestamps in the complete extended representation,
    [YYYY-MM-DDThh:mm:ss] with an optional fraction of three or six
    digits *)
Module Iso8601.
Local Open Scope Z_scope.

Inductive fraction : Type :=
| NoFraction
| Millis (ms : Z)
| Micros (us : Z).

Inductive zone : Type :=
| Zulu
| Offset (negative : bool) (hh mm : Z).

Record timestamp : Type := mkTimestamp {
  ts_year : Z;
  ts_month : Z;
  ts_day : Z;
  ts_hour : Z;
  ts_minute : Z;
  ts_second : Z;
  ts_fraction : fraction;
  ts_zone : zone
}.

Definition render_fraction (f : fraction) : string :=
  match f with
  | NoFraction => EmptyString
  | Millis ms => ("." ++ zfill 3 ms)%string
  | Micros us => ("." ++ zfill 6 us)%string
  end.

Definition micros (f : fraction) : Z :=
  match f with
  | NoFraction => 0
  | Millis ms => ms * 1000
  | Micros us => us
  end.

Definition between (lo x hi : Z) : bool := (lo <=? x) && (x <=? hi).

(** The timestamps that [datetime] can hold: a day of the proleptic
    Gregorian calendar in the years 1 to 9999, a time of day without a
    leap second, and an offset of less than a day. *)
Definition representable (t : timestamp) : bool :=
  between 1 (ts_year t) 9999 && between 1 (ts_month t) 12 &&
  between 1 (ts_day t) (days_in_month (ts_year t) (ts_month t)) &&
  between 0 (ts_hour t) 23 && between 0 (ts_minute t) 59 &&
  between 0 (ts_second t) 59 &&
  match ts_fraction t with
  | NoFraction => true
  | Millis ms => between 0 ms 999
  | Micros us => between 0 us 999999
  end &&
  match ts_zone t with
  | Zulu => true
  | Offset _ hh mm => between 0 hh 23 && between 0 mm 59
  end.

End Iso8601.

(** The date and time representations of ISO 8601: a calendar date
    [YYYY-MM-DD] or a week date [YYYY-Www-D], the letter [T], a time of
    day to the hour, the minute or the second, the second with a decimal
    fraction of any length after a point or a comma, and a zone
    designator [Z], [+hh] or [+hh:mm].  Each of the three parts is in the
    extended format, with its hyphens or colons, or in the basic format,
    without them. *)
Module Timestamp.
Local Open Scope Z_scope.

Inductive date : Type :=
| Calendar (y m d : Z)
| Week (y w d : Z).

(** [Decimal comma w n]: the [w] digits that read [n] *)
Inductive fraction : Type :=
| Whole
| Decimal (comma : bool) (w : nat) (n : Z).

Inductive time : Type :=
| Hours (h : Z)
| Minutes (h m : Z)
| Seconds (h m s : Z) (f : fraction).

Inductive zone : Type :=
| Zulu
| Hour_offset (negative : bool) (hh : Z)
| Offset (negative : bool) (hh mm : Z).

Record t : Type := mk {
  the_date : date;
  date_extended : bool;
  the_time : time;
  time_extended : bool;
  the_zone : zone;
  zone_extended : bool
}.

Definition mark (extended : bool) (c : string) : string :=
  if extended then c else EmptyString.

Definition render_date (extended : bool) (d : date) : string :=
  match d with
  | Calendar y m d =>
      (zfill 4 y ++ mark extended "-" ++ zfill 2 m ++ mark extended "-" ++ zfill 2 d)%string
  | Week y w d =>
      (zfill 4 y ++ mark extended "-" ++ "W" ++ zfill 2 w ++ mark extended "-" ++
       zfill 1 d)%string
  end.

Definition render_fraction (f : fraction) : string :=
  match f with
  | Whole => EmptyString
  | Decimal comma w n => ((if comma then "," else ".") ++ zfill w n)%string
  end.

Definition render_time (extended : bool) (tm : time) : string :=
  match tm with
  | Hours h => zfill 2 h
  | Minutes h m => (zfill 2 h ++ mark extended ":" ++ zfill 2 m)%string
  | Seconds h m s f =>
      (zfill 2 h ++ mark extended ":" ++ zfill 2 m ++ mark extended ":" ++ zfill 2 s ++
       render_fraction f)%string
  end.

Definition sign (negative : bool) : string := if negative then "-" else "+".

Definition render_zone (extended : bool) (z : zone) : string :=
  match z with
  | Zulu => "Z"%string
  | Hour_offset negative hh => (sign negative ++ zfill 2 hh)%string
  | Offset negative hh mm =>
      (sign negative ++ zfill 2 hh ++ mark extended ":" ++ zfill 2 mm)%string
  end.

(** The text up to the zone designator, and the whole text *)
Definition render_local (x : t) : string :=
  (render_date (date_extended x) (the_date x) ++ "T" ++
   render_time (time_extended x) (the_time x))%string.

Definition render (x : t) : string :=
  (render_local x ++ render_zone (zone_extended x) (the_zone x))%string.

(** The day of the calendar that a date names; for a week date, the day
    [d] of week [w], week 1 being the week of the first Thursday of the
    year and Monday its first day *)
Definition day_of (d : date) : Z * Z * Z :=
  match d with
  | Calendar y m d => (y, m, d)
  | Week y w d => ord_to_ymd (iso_week1_monday y + ((w - 1) * 7 + d - 1))
  end.

Definition hour_of (tm : time) : Z :=
  match tm with Hours h | Minutes h _ | Seconds h _ _ _ => h end.

Definition minute_of (tm : time) : Z :=
  match tm with Hours _ => 0 | Minutes _ m | Seconds _ m _ _ => m end.

Definition second_of (tm : time) : Z :=
  match tm with Seconds _ _ s _ => s | _ => 0 end.

(** The fraction in microseconds, cut off after the sixth digit *)
Definition micros (f : fraction) : Z :=
  match f with
  | Whole => 0
  | Decimal _ w n =>
      if (w <=? 6)%nat then n * 10 ^ Z.of_nat (6 - w) else n / 10 ^ Z.of_nat (w - 6)
  end.

Definition microsecond_of (tm : time) : Z :=
  match tm with Seconds _ _ _ f => micros f | _ => 0 end.

(** The offset from UTC in seconds, and in microseconds *)
Definition seconds_east (z : zone) : Z :=
  match z with
  | Zulu => 0
  | Hour_offset negative hh => (if negative then -1 else 1) * (hh * 3600)
  | Offset negative hh mm => (if negative then -1 else 1) * (hh * 3600 + mm * 60)
  end.

Definition offset (z : zone) : Z := seconds_east z * 1000000.

(** The local fields that the text up to the zone denotes, and the value
    that the whole text denotes *)
Definition denote_local (x : t) : datetime :=
  let '(y, m, d) := day_of (the_date x) in
  mkDatetime y m d (hour_of (the_time x)) (minute_of (the_time x))
             (second_of (the_time x)) (microsecond_of (the_time x)) None.

Definition denote (x : t) : datetime :=
  let '(y, m, d) := day_of (the_date x) in
  mkDatetime y m d (hour_of (the_time x)) (minute_of (the_time x))
             (second_of (the_time x)) (microsecond_of (the_time x))
             (Some (offset (the_zone x))).

(** A year of 53 weeks: it starts on a Thursday, or on a Wednesday and is
    a leap year. *)
Definition long_year (y : Z) : bool :=
  (weekday y 1 1 =? 3) || ((weekday y 1 1 =? 2) && is_leap y).

(** Each field fits its digits, and a week date names a week of its year
    and a day of the week. *)
Definition date_ok (d : date) : bool :=
  match d with
  | Calendar y m d => Iso8601.between 0 y 9999 && Iso8601.between 0 m 99 && Iso8601.between 0 d 99
  | Week y w d =>
      Iso8601.between 0 y 9999 && (Iso8601.between 1 w 52 || ((w =? 53) && long_year y)) &&
      Iso8601.between 1 d 7
  end.

Definition time_ok (tm : time) : bool :=
  match tm with
  | Hours h => Iso8601.between 0 h 99
  | Minutes h m => Iso8601.between 0 h 99 && Iso8601.between 0 m 99
  | Seconds h m s f =>
      Iso8601.between 0 h 99 && Iso8601.between 0 m 99 && Iso8601.between 0 s 99 &&
      match f with
      | Whole => true
      | Decimal _ w n => (1 <=? w)%nat && (0 <=? n) && (n <? 10 ^ Z.of_nat w)
      end
  end.

Definition zone_ok (z : zone) : bool :=
  match z with
  | Zulu => true
  | Hour_offset _ hh => Iso8601.between 0 hh 99
  | Offset _ hh mm => Iso8601.between 0 hh 99 && Iso8601.between 0 mm 99
  end.

Definition well_formed (x : t) : bool :=
  date_ok (the_date x) && time_ok (the_time x) && zone_ok (the_zone x).

(** The timestamps that [datetime] can hold: a day of the years 1 to
    9999, an hour below 24, a minute and a second below 60, and an offset
    of less than a day. *)
Definition representable (x : t) : bool :=
  well_formed x && in_range (denote x).

(** The zone with [Z] written as the offset it stands for, as the
    validator rewrites it *)
Definition numeric (x : t) : t :=
  match the_zone x with
  | Zulu => mk (the_date x) (date_extended x) (the_time x) (time_extended x)
               (Offset false 0 0) true
  | _ => x
  end.

(** The fields of a time of day, hour first *)
Definition fields_of (tm : time) : list Z :=
  match tm with
  | Hours h => [h]
  | Minutes h m => [h; m]
  | Seconds h m s _ => [h; m; s]
  end.

(** The value that the parser is to make of the text of a date, a time of
    day and a designator *)
Definition read (d : date) (tm : time) (z : option zone) : datetime :=
  let '(y, m, dd) := day_of d in
  mkDatetime y m dd (hour_of tm) (minute_of tm) (second_of tm) (microsecond_of tm)
             match z with Some z => Some (offset z) | None => None end.

(** The offset of a value, if it has one, is a whole number of minutes. *)
Definition whole_minutes (d : datetime) : bool :=
  match tzinfo d with
  | Some off => off mod 60000000 =? 0
  | None => true
  end.

(** The date, the time of day and the designator that [isoformat] writes
    for a value whose offset is a whole number of minutes *)
Definition written (d : datetime) : date * time * option zone :=
  (Calendar (year d) (month d) (day d),
   Seconds (hour d) (minute d) (second d)
           (if microsecond d =? 0 then Whole else Decimal false 6 (microsecond d)),
   match tzinfo d with
   | Some off =>
       Some (Offset (off <? 0) (Z.abs off / 3600000000)
                    (Z.abs off mod 3600000000 / 60000000))
   | None => None
   end).

(** The text after a time of day: nothing, or a zone designator *)
Definition designator (extended : bool) (z : option zone) : string :=
  match z with
  | Some z => render_zone extended z
  | None => EmptyString
  end.

(** The seconds and microseconds of the offset of a designator *)
Definition tz_of (z : option zone) : option (Z * Z) :=
  match z with
  | None => None
  | Some z => Some (seconds_east z, 0)
  end.

(** No character of the string starts a zone designator. *)
Fixpoint no_tz (s : string) : bool :=
  match s with
  | EmptyString => true
  | String c s' => negb (is_tz_start c) && no_tz s'
  end.

End Timestamp.

(** Concrete collaborators and payloads *)
Module Sample.

Definition clock : datetime := mkDatetime 2024 5 6 10 20 30 123456 (Some 0%Z).

Definition ends_with_slash (s : string) : bool :=
  match last (list_ascii_of_string s) " "%char with
  | "/"%char => true
  | _ => false
  end.

(** [posixpath.join] of a directory and a file name *)
Definition posix_join (a b : string) : string :=
  match b with
  | String "/" _ => b
  | _ => if is_empty a || ends_with_slash a then (a ++ b)%string
         else (a ++ "/" ++ b)%string
  end.

(** A signing service that answers every raw URL with a signed one *)
Definition sign_all (urls : list json) : outcome json :=
  Return (JDict [("resources",
                  JList (map (fun u => match u with
                                       | JStr s => JStr (s ++ "?sig=1")
                                       | v => v
                                       end) urls))]).

(** A transport whose second request fails *)
Definition second_fails (idx : nat) (url : json) : outcome bytes :=
  if Nat.eqb idx 1 then Raise (RequestException [Lit "503 Server Error"])
  else Return [Byte.x89; Byte.x50].

Definition env : Env := {|
  debug := false;
  uuid4 := "8f14e45f-ceea-467f-a0e6-1d1f3b7c9a10";
  uuid1 := "c9bf9e57-1685-11ef-9262-0242ac120002";
  now_created := clock;
  now_modified := clock;
  fetch_user_entry_resource := sign_all;
  requests_get := second_fails;
  open_write := fun _ _ _ => Return tt;
  os_path_join := posix_join
|}.

(** A signing service that is down *)
Definition env_unsigned : Env := {|
  debug := false;
  uuid4 := uuid4 env;
  uuid1 := uuid1 env;
  now_created := clock;
  now_modified := clock;
  fetch_user_entry_resource := fun _ => Raise (RequestException [Lit "connection refused"]);
  requests_get := second_fails;
  open_write := fun _ _ _ => Return tt;
  os_path_join := posix_join
|}.

(** A signing service that returns one URL more than it was given *)
Definition env_oversigned : Env := {|
  debug := false;
  uuid4 := uuid4 env;
  uuid1 := uuid1 env;
  now_created := clock;
  now_modified := clock;
  fetch_user_entry_resource :=
    fun urls => Return (JDict [("resources", JList (urls ++ [JStr "http://s/extra"]))]);
  requests_get := fun _ _ => Return [Byte.x89];
  open_write := fun _ _ _ => Return tt;
  os_path_join := posix_join
|}.

Definition payload (ident type : string) (data : dict) (utterance : dict) : dict :=
  [ ("_id", JStr ident);
    ("userId", JStr "u1");
    ("createdOn", JStr "2024-05-06T10:20:30Z");
    ("modifiedOn", JStr "2024-05-06T10:20:30Z");
    ("archived", JBool false);
    ("type", JStr type);
    ("title", JStr "t");
    ("data", JDict data);
    ("utterance", JDict utterance) ].

Definition spoken : dict := [("prompt", JStr "hi"); ("intention", JStr "NOTE")].

Definition note (ident : string) : dict := payload ident "note" [] spoken.

(** A note whose utterance has no [prompt] *)
Definition silent_note : dict := payload "n0" "note" [] [("intention", JStr "NOTE")].

Definition unknown : dict := payload "x1" "unknown-xyz" [] spoken.

Definition stamp : datetime := mkDatetime 2024 5 6 10 20 30 0 (Some 0%Z).

Definition entry (c : EntryClass) (ident type : string) (data : dict) : Entry :=
  mkEntry c ident "u1" stamp stamp false type "t" data
          [("prompt", "hi"); ("intention", "NOTE")].

Definition vision_data : dict :=
  [("visionData", JDict [("files", JList [JDict [("url", JStr "http://x/a.jpg")]; JDict []])])].

Definition three_files : dict :=
  [("visionData",
    JDict [("files", JList [JDict [("url", JStr "http://x/a.jpg")];
                            JDict [("url", JStr "http://x/b.jpg")];
                            JDict [("url", JStr "http://x/c.jpg")]])])].

Definition noted (ident : string) : Entry := entry ClsNoteEntry ident "note" [].

Definition call (d : dict) : Call := mkCall env (FromDict d) None.

Definition three_calls : list Call := [call (note "A"); call (note "B"); call (note "C")].

(** [Journal(max_entries=n)] *)
Definition journal (n : nat) : Journal.t := mkJournal (mkDeque n []) (mkDeque n []).

(** A journal of capacity one after one entry came with a response *)
Definition full : State :=
  snd (add_entry env (FromDict (note "a")) (Some "ok") (fresh (journal 1))).

Definition vision (data : dict) : Entry := entry ClsVisionEntry "v1" "vision" data.

Definition null_vision : dict := [("visionData", JNull)].

Definition empty_url : dict :=
  [("visionData", JDict [("files", JList [JDict [("url", JStr EmptyString)]])])].

Definition pictures : Entry := entry ClsVisionEntry "e1" "vision" three_files.

Definition windows (path : string) : string :=
  replace slash (String backslash EmptyString) path.

Definition leap_second : string := "2016-12-31T23:59:60Z".

Definition last_second : Timestamp.t :=
  Timestamp.mk (Timestamp.Calendar 2016 12 31) true
               (Timestamp.Seconds 23 59 60 Timestamp.Whole) true
               Timestamp.Zulu true.

(** Monday of week 19 of 2024, in the basic format but for the date *)
Definition half_past : Timestamp.t :=
  Timestamp.mk (Timestamp.Week 2024 19 1) true
               (Timestamp.Seconds 10 20 30 (Timestamp.Decimal true 7 1234567)) false
               (Timestamp.Offset false 5 30) false.

End Sample.

(* ===================================================================== *)
(** ** Notions for the statements on the rest of the module *)
(* ===================================================================== *)

(** Both logs have capacity [N], the interactions log is no longer than
    the entries log, and the entries log is within capacity. *)
Definition within_capacity (j : Journal.t) (N : nat) : Prop :=
  maxlen (entries j) = N /\ maxlen (interactions j) = N /\
  (size (interactions j) <= size (entries j))%nat /\
  (size (entries j) <= N)%nat.

(** The environment with the debug flag set to [b] *)
Definition with_debug (b : bool) (env : Env) : Env := {|
  debug := b;
  uuid4 := uuid4 env;
  uuid1 := uuid1 env;
  now_created := now_created env;
  now_modified := now_modified env;
  fetch_user_entry_resource := fetch_user_entry_resource env;
  requests_get := requests_get env;
  open_write := open_write env;
  os_path_join := os_path_join env
|}.

(** The keys that the constructor of [Entry] reads: the fields by name,
    and the alias of [id] *)
Definition field_names : list string :=
  ["_id"; "id"; "userId"; "createdOn"; "modifiedOn"; "archived"; "type";
   "title"; "data"; "utterance"].

(** The fields without a default *)
Definition required_fields : list string :=
  ["userId"; "createdOn"; "modifiedOn"; "archived"; "type"; "title"; "data";
   "utterance"].

(** The two keys under which a resource-bearing class keeps its file
    descriptors *)
Definition resource_keys (c : EntryClass) : option (string * string) :=
  match c with
  | ClsVisionEntry => Some ("visionData", "files")
  | ClsMagicCamEntry => Some ("magicCameraData", "aiGeneratedImages")
  | ClsAiGeneratedImageEntry => Some ("aiGeneratedImageData", "files")
  | _ => None
  end.

(** [data[outer]], when present, is a dict, its [inner], when present, is
    a list, and the items of that list are dicts. *)
Definition files_shaped (outer inner : string) (d : dict) : bool :=
  match lookup d outer with
  | None => true
  | Some (JDict sub) =>
      match lookup sub inner with
      | None => true
      | Some (JList files) => forallb is_dict files
      | Some _ => false
      end
  | Some _ => false
  end.

(** The file descriptors under [data[outer][inner]], none when a level is
    missing *)
Definition files_under (outer inner : string) (d : dict) : list json :=
  match lookup d outer with
  | Some (JDict sub) =>
      match lookup sub inner with
      | Some (JList files) => files
      | _ => []
      end
  | _ => []
  end.

Definition is_error (r : LogRecord) : bool :=
  match fst r with
  | ERROR => true
  | INFO => false
  end.

(** The path as [save_resources] reports it *)
Definition reported (path : string) : string :=
  replace slash (String backslash EmptyString) path.

Fixpoint has_char (c : ascii) (s : string) : bool :=
  match s with
  | EmptyString => false
  | String a s' => Ascii.eqb a c || has_char c s'
  end.

(** What [get_signed_resource_urls] answers after a failure [x]: the
    empty list, with one error logged *)
Definition signing_failed (s : State) (x : exn) : outcome json * State :=
  (Return (JList []),
   logged s [(ERROR, [Text "Failed to fetch signed resource URLs: "; Exc x])]).

Definition is_str (v : json) : bool :=
  match v with
  | JStr _ => true
  | _ => false
  end.

(** The file that the turn of position [idx] writes, under the path
    before its separators are replaced and with the content fetched, when
    the fetch succeeds, the raw URL at that position is a str and the
    write succeeds *)
Definition written_file (env : Env) (entry : Entry) (directory : string)
    (urls : list json) (idx : nat) (resource_url : json) : option (string * bytes) :=
  match requests_get env idx resource_url with
  | Return content =>
      match nth_error urls idx with
      | Some (JStr raw) =>
          let save_path :=
            os_path_join env directory
              (id entry ++ "_" ++ last (split slash raw) EmptyString)%string in
          match open_write env idx save_path content with
          | Return _ => Some (save_path, content)
          | Raise _ => None
          end
      | _ => None
      end
  | Raise _ => None
  end.

(** The turns of the loop over a signed list that starts at position
    [idx], each with the file it writes *)
Fixpoint turns (env : Env) (entry : Entry) (directory : string)
    (urls : list json) (idx : nat) (signed_urls : list json)
  : list (option (string * bytes)) :=
  match signed_urls with
  | [] => []
  | resource_url :: rest =>
      written_file env entry directory urls idx resource_url ::
      turns env entry directory urls (S idx) rest
  end.

(** The files of the turns that wrote one *)
Fixpoint kept {A} (l : list (option A)) : list A :=
  match l with
  | [] => []
  | Some a :: l' => a :: kept l'
  | None :: l' => kept l'
  end.

Definition is_none {A} (o : option A) : bool :=
  match o with
  | Some _ => false
  | None => true
  end.

(** The record that a turn logs after it wrote a file *)
Definition saved_record (w : string * bytes) : LogRecord :=
  (INFO, [Text "Saved image to "; Value (JStr (reported (fst w)))]).

(** The text of a timestamp without a zone designator, and the naive
    value it denotes *)
Definition render_local (t : Iso8601.timestamp) : string :=
  (zfill 4 (Iso8601.ts_year t) ++ "-" ++ zfill 2 (Iso8601.ts_month t) ++ "-" ++
   zfill 2 (Iso8601.ts_day t) ++ "T" ++ zfill 2 (Iso8601.ts_hour t) ++ ":" ++
   zfill 2 (Iso8601.ts_minute t) ++ ":" ++ zfill 2 (Iso8601.ts_second t) ++
   Iso8601.render_fraction (Iso8601.ts_fraction t))%string.

Definition denote_local (t : Iso8601.timestamp) : datetime :=
  mkDatetime (Iso8601.ts_year t) (Iso8601.ts_month t) (Iso8601.ts_day t)
             (Iso8601.ts_hour t) (Iso8601.ts_minute t) (Iso8601.ts_second t)
             (Iso8601.micros (Iso8601.ts_fraction t)) None.

(** What [datetime.now(timezone.utc)] returns: a value in range whose
    offset is zero *)
Definition utc_now (d : datetime) : bool :=
  in_range d && match tzinfo d with
                | Some off => Z.eqb off 0
                | None => false
                end.

(** The entry that [add_entry] makes of a CLI text *)
Definition basic_entry (env : Env) (user_input : string) : Entry :=
  mkEntry ClsConversationEntry (uuid1 env) "local_user" (now_created env)
          (now_modified env) false "conversation" "CLI Input"
          [("conversationData", JDict [("textContent", JStr EmptyString)])]
          [("prompt", user_input); ("intention", "CONVERSATION")].

(** Further sample data *)
Module Fixture.

Definition answered (d : dict) (response : string) : Call :=
  mkCall Sample.env (FromDict d) (Some response).

Definition mixed_calls : list Call :=
  [Sample.call (Sample.note "A"); answered (Sample.note "B") "ok";
   Sample.call Sample.unknown; answered Sample.silent_note "ok";
   answered (Sample.note "C") "fine"].

Definition answered_calls : list Call :=
  [answered (Sample.note "A") "one"; answered (Sample.note "B") "two";
   answered (Sample.note "C") "three"].

(** A note without [userId] *)
Definition anonymous : dict :=
  [ ("_id", JStr "n1");
    ("createdOn", JStr "2024-05-06T10:20:30Z");
    ("modifiedOn", JStr "2024-05-06T10:20:30Z");
    ("archived", JBool false);
    ("type", JStr "note");
    ("title", JStr "t");
    ("data", JDict []);
    ("utterance", JDict Sample.spoken) ].

(** A note without any id *)
Definition unnamed : dict :=
  [ ("userId", JStr "u1");
    ("createdOn", JStr "2024-05-06T10:20:30Z");
    ("modifiedOn", JStr "2024-05-06T10:20:30Z");
    ("archived", JBool false);
    ("type", JStr "note");
    ("title", JStr "t");
    ("data", JDict []);
    ("utterance", JDict Sample.spoken) ].

Definition magic_data : dict :=
  [("visionData", JDict [("files", JList [JDict [("url", JStr "http://x/v.jpg")]])]);
   ("magicCameraData",
    JDict [("aiGeneratedImages",
            JList [JDict [("url", JStr "http://x/m1.png")]; JDict [("url", JNull)];
                   JDict [("url", JStr "http://x/m2.png")]])])].

Definition magic : Entry := Sample.entry ClsMagicCamEntry "m1" "magic-camera" magic_data.

(** A signing service that answers with no list *)
Definition env_null : Env := {|
  debug := false;
  uuid4 := uuid4 Sample.env;
  uuid1 := uuid1 Sample.env;
  now_created := Sample.clock;
  now_modified := Sample.clock;
  fetch_user_entry_resource := fun _ => Return (JDict [("resources", JNull)]);
  requests_get := Sample.second_fails;
  open_write := fun _ _ _ => Return tt;
  os_path_join := Sample.posix_join
|}.

Definition local_time : Iso8601.timestamp :=
  Iso8601.mkTimestamp 2024 5 6 10 20 30 (Iso8601.Micros 250000) Iso8601.Zulu.

End Fixture.

(* ===================================================================== *)
(** ** Bounded logs *)
(* ===================================================================== *)

Section DequeFacts.
Context {A : Type}.
Implicit Types (d : deque A) (x : A) (l : list A).

Lemma maxlen_append d x : maxlen (append d x) = maxlen d.
Proof. reflexivity. Qed.

Lemma size_append d x :
  size (append d x) = if (size d <? maxlen d)%nat then S (size d) else size d.
Proof.
  unfold size, append; cbn [items maxlen].
  rewrite length_app; cbn [length].
  destruct (Nat.ltb_spec (length (items d)) (maxlen d));
    destruct (Nat.ltb_spec (maxlen d) (length (items d) + 1)); try lia.
  - rewrite length_app; cbn; lia.
  - destruct (items d) as [|a l]; cbn [app tl length]; [|rewrite length_app; cbn]; lia.
Qed.

Lemma lastn_all n l : (length l <= n)%nat -> lastn n l = l.
Proof. intros H; unfold lastn. replace (length l - n)%nat with 0%nat by lia. reflexivity. Qed.

Lemma length_lastn n l : length (lastn n l) = Nat.min n (length l).
Proof. unfold lastn. rewrite length_skipn. lia. Qed.

Lemma lastn_snoc n l x : lastn n (lastn n l ++ [x]) = lastn n (l ++ [x]).
Proof.
  unfold lastn. rewrite !length_app, length_skipn; cbn [length].
  destruct (Nat.le_gt_cases (length l) n) as [H|H].
  - replace (length l - n)%nat with 0%nat by lia. cbn [skipn].
    rewrite Nat.sub_0_r. reflexivity.
  - destruct n as [|n].
    + rewrite !Nat.sub_0_r.
      rewrite !skipn_all2; [reflexivity| |]; rewrite ?length_app, ?length_skipn; cbn; lia.
    + replace (length l - (length l - S n) + 1 - S n)%nat with 1%nat by lia.
      replace (length l + 1 - S n)%nat with (1 + (length l - S n))%nat by lia.
      rewrite <- skipn_skipn.
      rewrite (skipn_app (length l - S n) l).
      replace (length l - S n - length l)%nat with 0%nat by lia.
      reflexivity.
Qed.

(** An append keeps the last [maxlen] items of what was there plus the
    new one, whenever the deque held at most [maxlen] items. *)
Lemma items_append d x :
  (size d <= maxlen d)%nat ->
  items (append d x) = lastn (maxlen d) (items d ++ [x]).
Proof.
  unfold size, append, lastn; cbn [items maxlen]; intros H.
  rewrite length_app; cbn [length].
  destruct (Nat.ltb_spec (maxlen d) (length (items d) + 1)).
  - replace (length (items d) + 1 - maxlen d)%nat with 1%nat by lia.
    destruct (items d ++ [x]); reflexivity.
  - replace (length (items d) + 1 - maxlen d)%nat with 0%nat by lia. reflexivity.
Qed.

Lemma size_append_le d x : (size d <= maxlen d)%nat -> (size (append d x) <= maxlen d)%nat.
Proof.
  intros H. rewrite size_append.
  destruct (Nat.ltb_spec (size d) (maxlen d)); lia.
Qed.

End DequeFacts.

(* ===================================================================== *)
(** ** The factory of the store and [add_entry] *)
(* ===================================================================== *)

Ltac run :=
  unfold try_, bind, lift, ret, raise, update, logging, write_file, _log_debug,
    logged, stored in *;
  cbn [fst snd self log disk] in *.

Lemma logged_nil s : logged s [] = s.
Proof. destruct s; unfold logged; cbn. rewrite app_nil_r. reflexivity. Qed.

Lemma logged_logged s a b : logged (logged s a) b = logged s (a ++ b).
Proof. unfold logged; cbn. rewrite app_assoc. reflexivity. Qed.

(** [_create_entry] touches nothing but the log, and what it returns or
    raises does not depend on the state. *)
Lemma _create_entry_frame env d s :
  exists records,
    _create_entry env d s = (fst (_create_entry env d (fresh (self s))), logged s records).
Proof.
  unfold _create_entry, fresh. run.
  destruct (entry_type_mapping_get (dict_get d "type" JNull)) as [[c|]|e]; cbn.
  - destruct (debug env); cbn; destruct (construct c env d); cbn.
    + eexists; reflexivity.
    + eexists; rewrite <- app_assoc; reflexivity.
    + exists []. rewrite app_nil_r. destruct s; reflexivity.
    + eexists; reflexivity.
  - exists []. rewrite app_nil_r. destruct s; reflexivity.
  - exists []. rewrite app_nil_r. destruct s; reflexivity.
Qed.

(** The factory raises nothing but the [ValueError] for a type outside the
    table and the [TypeError] for an unhashable type value. *)
Lemma _create_entry_raises env d s e :
  fst (_create_entry env d s) = Raise e ->
  is_TypeError_or_ValueError e = true /\ _create_entry env d s = (Raise e, s).
Proof.
  unfold _create_entry. run.
  destruct (dict_get d "type" JNull) as [| | | k | |]; cbn;
    try (intros H; inversion H; subst; split; reflexivity).
  destruct (entry_type_mapping k); cbn.
  - destruct (debug env); cbn; destruct (construct _ env d); cbn; discriminate.
  - intros H; inversion H; subst; split; reflexivity.
Qed.

(** What [add_entry] does, by what the factory makes of the payload. *)
Lemma add_entry_created env ed r s e :
  fst (_create_entry env (payload_of env ed) (fresh (self s))) = Return (Some e) ->
  serializable e = true ->
  exists records,
    add_entry env ed r s =
    let j := mkJournal (append (entries (self s)) e) (interactions (self s)) in
    match supplied r with
    | None => (Return (Some e), stored s j records)
    | Some response =>
        match str_lookup (utterance e) "prompt" with
        | Some prompt =>
            (Return (Some e),
             stored s (mkJournal (entries j)
                         (append (interactions j)
                            (mkInteraction (id e) (createdOn e) prompt response)))
                    records)
        | None => (Raise (KeyError (JStr "prompt")), stored s j records)
        end
    end.
Proof.
  intros H Hser.
  destruct (_create_entry_frame env (payload_of env ed) s) as [records Hc].
  rewrite H in Hc.
  unfold add_entry. fold (payload_of env ed). unfold try_ at 1, bind at 1.
  rewrite Hc. unfold model_dump_json. rewrite Hser.
  run. unfold _add_interaction, utterance_item. run.
  destruct (debug env); cbn;
    destruct (supplied r); cbn;
    try destruct (str_lookup (utterance e) "prompt"); cbn;
    eexists; rewrite <- ?app_assoc; reflexivity.
Qed.

(** An entry that cannot be dumped is not appended: the error of the
    dump is caught and logged. *)
Lemma add_entry_undumped env ed r s e :
  fst (_create_entry env (payload_of env ed) (fresh (self s))) = Return (Some e) ->
  serializable e = false ->
  exists records x,
    add_entry env ed r s =
    (Return None,
     logged s (records ++ [(ERROR, [Text "Failed to instantiate entry: "; Exc x])])).
Proof.
  intros H Hser.
  destruct (_create_entry_frame env (payload_of env ed) s) as [records Hc].
  rewrite H in Hc.
  unfold add_entry. fold (payload_of env ed). unfold try_ at 1, bind at 1.
  rewrite Hc. unfold model_dump_json. rewrite Hser. run. cbn.
  eexists; eexists. rewrite <- app_assoc. reflexivity.
Qed.

Lemma add_entry_rejected env ed r s :
  fst (_create_entry env (payload_of env ed) (fresh (self s))) = Return None ->
  exists records, add_entry env ed r s = (Return None, logged s records).
Proof.
  intros H.
  destruct (_create_entry_frame env (payload_of env ed) s) as [records Hc].
  rewrite H in Hc.
  unfold add_entry. fold (payload_of env ed). unfold try_ at 1, bind at 1.
  rewrite Hc. run. eexists; reflexivity.
Qed.

Lemma add_entry_failed env ed r s e :
  fst (_create_entry env (payload_of env ed) (fresh (self s))) = Raise e ->
  add_entry env ed r s =
  (Return None, logged s [(ERROR, [Text "Failed to instantiate entry: "; Exc e])]).
Proof.
  intros H.
  destruct (_create_entry_frame env (payload_of env ed) s) as [records Hc].
  rewrite H in Hc.
  assert (Hs : fst (_create_entry env (payload_of env ed) s) = Raise e)
    by (rewrite Hc; reflexivity).
  destruct (_create_entry_raises _ _ _ _ Hs) as [He Hr].
  unfold add_entry. fold (payload_of env ed). unfold try_ at 1, bind at 1.
  rewrite Hr. rewrite He. run. reflexivity.
Qed.

(** A call that returns an entry has appended it to the entries log and,
    with a response, the derived interaction to the interactions log. *)
Lemma add_entry_returned env ed r s e s' :
  add_entry env ed r s = (Return (Some e), s') ->
  entries (self s') = append (entries (self s)) e /\
  match supplied r with
  | None => interactions (self s') = interactions (self s)
  | Some response =>
      exists prompt,
        str_lookup (utterance e) "prompt" = Some prompt /\
        interactions (self s') =
        append (interactions (self s)) (mkInteraction (id e) (createdOn e) prompt response)
  end.
Proof.
  intros H.
  destruct (fst (_create_entry env (payload_of env ed) (fresh (self s))))
    as [[e0|]|x] eqn:Hf.
  - destruct (serializable e0) eqn:Hser;
      [|destruct (add_entry_undumped env ed r s e0 Hf Hser) as (records & y0 & Ha);
        rewrite Ha in H; discriminate].
    destruct (add_entry_created env ed r s e0 Hf Hser) as [records Ha].
    rewrite Ha in H; cbn zeta in H.
    destruct (supplied r) as [response|].
    + destruct (str_lookup (utterance e0) "prompt") as [prompt|] eqn:Hp;
        inversion H; subst; cbn.
      split; [reflexivity|]. exists prompt; split; [assumption|reflexivity].
    + inversion H; subst; cbn. split; reflexivity.
  - destruct (add_entry_rejected env ed r s Hf) as [records Ha].
    rewrite Ha in H; discriminate.
  - rewrite (add_entry_failed env ed r s x Hf) in H; discriminate.
Qed.

Lemma run_calls_entries calls : forall s es,
  fst (run_calls calls s) = map (fun e => Return (Some e)) es ->
  (size (entries (self s)) <= maxlen (entries (self s)))%nat ->
  let j' := self (snd (run_calls calls s)) in
  maxlen (entries j') = maxlen (entries (self s)) /\
  items (entries j') =
  lastn (maxlen (entries (self s))) (items (entries (self s)) ++ es).
Proof.
  induction calls as [|c calls IH]; intros s es H Hsz; cbn in *.
  - destruct es; [|discriminate]. rewrite app_nil_r.
    split; [reflexivity|]. symmetry; apply lastn_all; exact Hsz.
  - destruct (add_entry (call_env c) (call_data c) (call_response c) s)
      as [r s1] eqn:Ha.
    destruct (run_calls calls s1) as [rs s2] eqn:Hr.
    cbn in *. destruct es as [|e es]; [discriminate|]. cbn in H.
    inversion H; subst r. clear H.
    destruct (add_entry_returned _ _ _ _ _ _ Ha) as [He _].
    specialize (IH s1 es). rewrite Hr in IH; cbn in IH.
    rewrite He in IH. rewrite maxlen_append in IH.
    destruct IH as [IHm IHi]; [assumption | apply size_append_le; assumption |].
    split; [assumption|].
    rewrite IHi, items_append by assumption.
    change (e :: es) with ([e] ++ es). rewrite app_assoc.
    set (n := maxlen (entries (self s))). set (l := items (entries (self s)) ++ [e]).
    clearbody l. clear. revert l.
    induction es as [|x es IHes] using rev_ind; intros l.
    + rewrite !app_nil_r. unfold lastn at 1. rewrite length_lastn.
      replace (Nat.min n (length l) - n)%nat with 0%nat by lia. reflexivity.
    + rewrite !app_assoc. rewrite <- lastn_snoc. rewrite IHes.
      rewrite lastn_snoc. reflexivity.
Qed.

(** C1.  A journal constructed with capacity [N] that has taken more than
    [N] calls of [add_entry], each of which returned its validated entry,
    holds exactly [N] entries: the [N] most recently inserted ones, in
    insertion order; what was evicted is the front of the insertion
    sequence, whatever the payloads were. *)
Theorem entries_keep_most_recent (N : nat) (j : Journal.t) (calls : list Call)
    (es : list Entry) :
  Journal.__init__ (Z.of_nat N) = Return j ->
  fst (run_calls calls (fresh j)) = map (fun e => Return (Some e)) es ->
  (N < length calls)%nat ->
  let j' := self (snd (run_calls calls (fresh j))) in
  get_entries j' = lastn N es /\
  length (get_entries j') = N /\
  es = firstn (length es - N) es ++ get_entries j'.
Proof.
  intros Hinit Hout Hlen j'.
  assert (Hj : j = mkJournal (mkDeque N []) (mkDeque N [])).
  { unfold Journal.__init__, Deque.new in Hinit.
    destruct (Z.ltb_spec (Z.of_nat N) 0); [lia|].
    cbn in Hinit. rewrite Nat2Z.id in Hinit. inversion Hinit; reflexivity. }
  assert (Hes : length es = length calls).
  { assert (Hl : forall cs s, length (fst (run_calls cs s)) = length cs).
    { induction cs as [|c cs IH]; intros s; cbn; [reflexivity|].
      destruct (add_entry _ _ _ s) as [r s1].
      specialize (IH s1). destruct (run_calls cs s1); cbn in *. congruence. }
    rewrite <- (Hl calls (fresh j)), Hout, length_map. reflexivity. }
  destruct (run_calls_entries calls (fresh j) es Hout) as [_ Hi].
  { subst j; cbn; lia. }
  fold j' in Hi. subst j; cbn in Hi.
  assert (Hg : get_entries j' = lastn N es) by exact Hi.
  split; [exact Hg|]. split.
  - rewrite Hg, length_lastn. lia.
  - rewrite Hg. unfold lastn. symmetry; apply firstn_skipn.
Qed.

Lemma entries_keep_most_recent_witness :
  let j' := self (snd (run_calls Sample.three_calls (fresh (Sample.journal 2)))) in
  get_entries j' = lastn 2 [Sample.noted "A"; Sample.noted "B"; Sample.noted "C"] /\
  length (get_entries j') = 2%nat /\
  [Sample.noted "A"; Sample.noted "B"; Sample.noted "C"] =
  firstn (3 - 2) [Sample.noted "A"; Sample.noted "B"; Sample.noted "C"] ++ get_entries j'.
Proof.
  apply (entries_keep_most_recent 2 (Sample.journal 2) Sample.three_calls
           [Sample.noted "A"; Sample.noted "B"; Sample.noted "C"]).
  - reflexivity.
  - vm_compute; reflexivity.
  - cbn; lia.
Defined.

(** The scenario of the specification: capacity 2, entries A, B, C leave
    [B, C], and a fourth entry D leaves [C, D]. *)
Example capacity_two_scenario :
  let s3 := snd (run_calls Sample.three_calls (fresh (Sample.journal 2))) in
  get_entries (self s3) = [Sample.noted "B"; Sample.noted "C"] /\
  get_entries (self (snd (add_entry Sample.env (FromDict (Sample.note "D")) None s3))) =
  [Sample.noted "C"; Sample.noted "D"].
Proof. vm_compute. split; reflexivity. Qed.

(** The only exception that leaves [add_entry] is the [KeyError] of
    [_add_interaction], for an entry without a prompt that came with a
    response; the entry is in the log by then. *)
Lemma add_entry_raised env ed r s x s' :
  add_entry env ed r s = (Raise x, s') ->
  x = KeyError (JStr "prompt") /\
  exists e response,
    supplied r = Some response /\
    str_lookup (utterance e) "prompt" = None /\
    entries (self s') = append (entries (self s)) e /\
    interactions (self s') = interactions (self s).
Proof.
  intros H.
  destruct (fst (_create_entry env (payload_of env ed) (fresh (self s))))
    as [[e0|]|y] eqn:Hf.
  - destruct (serializable e0) eqn:Hser;
      [|destruct (add_entry_undumped env ed r s e0 Hf Hser) as (records & y0 & Ha);
        rewrite Ha in H; discriminate].
    destruct (add_entry_created env ed r s e0 Hf Hser) as [records Ha].
    rewrite Ha in H; cbn zeta in H.
    destruct (supplied r) as [response|]; [|discriminate].
    destruct (str_lookup (utterance e0) "prompt") as [prompt|] eqn:Hp; [discriminate|].
    inversion H; subst; cbn. split; [reflexivity|].
    exists e0, response. repeat split; assumption.
  - destruct (add_entry_rejected env ed r s Hf) as [records Ha].
    rewrite Ha in H; discriminate.
  - rewrite (add_entry_failed env ed r s y Hf) in H; discriminate.
Qed.

(** Without a response, nothing is raised. *)
Lemma add_entry_without_response env ed s :
  exists o s', add_entry env ed None s = (Return o, s').
Proof.
  destruct (add_entry env ed None s) as [[o|x] s'] eqn:H; [eauto|].
  destruct (add_entry_raised _ _ _ _ _ _ H) as [_ (e & response & Hs & _)].
  discriminate.
Qed.

(** The utterance of a constructed entry is the one of the payload. *)
Lemma construct_utterance c env kw e ut :
  lookup kw "utterance" = Some (JDict ut) ->
  construct c env kw = Return e ->
  str_values ut = Some (utterance e).
Proof.
  intros Hu. unfold construct. rewrite Hu. cbn [required dict_str_field].
  destruct (aborted _); [discriminate|].
  destruct (aborted _); [discriminate|].
  repeat match goal with
         | |- context [match accepted ?f with _ => _ end] =>
             destruct (accepted f) eqn:?; try discriminate
         end.
  intros H. inversion H; subst; cbn [utterance].
  destruct (str_values ut); cbn in *; congruence.
Qed.

(** An entry made from CLI text has a prompt, so a call with text never
    raises. *)
Lemma add_entry_text_returns env user_input r s :
  exists o s', add_entry env (FromStr user_input) r s = (Return o, s').
Proof.
  destruct (add_entry env (FromStr user_input) r s) as [[o|x] s'] eqn:H; [eauto|].
  exfalso.
  destruct (fst (_create_entry env (payload_of env (FromStr user_input)) (fresh (self s))))
    as [[e0|]|y] eqn:Hf.
  - destruct (serializable e0) eqn:Hser;
      [|destruct (add_entry_undumped env _ r s e0 Hf Hser) as (records & y0 & Ha);
        rewrite Ha in H; discriminate].
    destruct (add_entry_created env _ r s e0 Hf Hser) as [records Ha].
    rewrite Ha in H; cbn zeta in H.
    assert (Hp : str_lookup (utterance e0) "prompt" = Some user_input).
    { unfold _create_entry in Hf. cbn [payload_of] in Hf.
      change (dict_get (_create_basic_entry env user_input) "type" JNull)
        with (JStr "conversation") in Hf.
      change (entry_type_mapping_get (JStr "conversation"))
        with (Return (Some ClsConversationEntry)) in Hf.
      run. destruct (debug env); cbn in Hf;
        destruct (construct ClsConversationEntry env (_create_basic_entry env user_input))
          as [e1|] eqn:Hc; cbn in Hf; try discriminate;
        inversion Hf; subst e1;
        apply (construct_utterance _ _ _ _
                 [("prompt", JStr user_input); ("intention", JStr "CONVERSATION")]) in Hc;
        try reflexivity; cbn in Hc; injection Hc as Hu; rewrite <- Hu; reflexivity. }
    rewrite Hp in H. destruct (supplied r); discriminate.
  - destruct (add_entry_rejected env _ r s Hf) as [records Ha].
    rewrite Ha in H; discriminate.
  - rewrite (add_entry_failed env _ r s y Hf) in H; discriminate.
Qed.

(** C2.  [add_entry] lets an exception through: a payload that validates
    but whose utterance has no [prompt], added together with a response,
    raises [KeyError] from [_add_interaction], which the handler for
    [TypeError] and [ValueError] does not catch; the entry has been
    appended by then and no interaction is recorded. *)
Theorem add_entry_lets_KeyError_through :
  let r := add_entry Sample.env (FromDict Sample.silent_note) (Some "ok")
                     (fresh (Sample.journal 1)) in
  fst r = Raise (KeyError (JStr "prompt")) /\
  size (entries (self (snd r))) = 1%nat /\
  size (interactions (self (snd r))) = 0%nat /\
  log (snd r) = [].
Proof. vm_compute. repeat split; reflexivity. Qed.

Lemma entry_type_mapping_None k :
  entry_type_mapping k = None <-> ~ In k known_types.
Proof.
  unfold entry_type_mapping, known_types.
  repeat match goal with
         | |- context [String.eqb k ?c] =>
             destruct (String.eqb_spec k c);
             [subst; split; [discriminate | intros H; exfalso; apply H; cbn; tauto] |]
         end.
  split; [|reflexivity].
  intros _ H. cbn in H. intuition congruence.
Qed.

(** C3, counter-example.  The module-level [create_entry_model] does fall
    back to the generic [Entry] for a type outside the table. *)
Lemma create_entry_model_falls_back :
  ~ In "unknown-xyz" known_types /\
  lookup Sample.unknown "type" = Some (JStr "unknown-xyz") /\
  create_entry_model Sample.env Sample.unknown =
  Return (Sample.entry ClsEntry "x1" "unknown-xyz" []).
Proof.
  split; [apply entry_type_mapping_None; reflexivity|].
  split; vm_compute; reflexivity.
Qed.

(** C3, amended.  For a payload whose type is a string outside the table,
    the factory of the store raises a [ValueError] that names it and
    builds no entry, and [add_entry] returns no entry, logs the failure
    and leaves both logs of the journal as they were. *)
Theorem unknown_type_is_rejected env d r s k :
  lookup d "type" = Some (JStr k) ->
  ~ In k known_types ->
  let e := ValueError [Lit "Unknown entry type: "; Val (JStr k)] in
  _create_entry env d s = (Raise e, s) /\
  add_entry env (FromDict d) r s =
  (Return None, logged s [(ERROR, [Text "Failed to instantiate entry: "; Exc e])]) /\
  self (snd (add_entry env (FromDict d) r s)) = self s.
Proof.
  intros Ht Hk e.
  apply entry_type_mapping_None in Hk.
  assert (Hc : forall s0, _create_entry env d s0 = (Raise e, s0)).
  { intros s0. unfold _create_entry, dict_get. rewrite Ht. run. cbn.
    rewrite Hk. reflexivity. }
  split; [apply Hc|].
  assert (Ha : add_entry env (FromDict d) r s =
               (Return None, logged s [(ERROR, [Text "Failed to instantiate entry: "; Exc e])])).
  { apply add_entry_failed. cbn [payload_of]. rewrite Hc. reflexivity. }
  split; [exact Ha|]. rewrite Ha. reflexivity.
Qed.

Lemma unknown_type_is_rejected_witness :
  let e := ValueError [Lit "Unknown entry type: "; Val (JStr "unknown-xyz")] in
  _create_entry Sample.env Sample.unknown (fresh (Sample.journal 2)) =
  (Raise e, fresh (Sample.journal 2)) /\
  add_entry Sample.env (FromDict Sample.unknown) (Some "ok") (fresh (Sample.journal 2)) =
  (Return None,
   logged (fresh (Sample.journal 2))
          [(ERROR, [Text "Failed to instantiate entry: "; Exc e])]) /\
  self (snd (add_entry Sample.env (FromDict Sample.unknown) (Some "ok")
                       (fresh (Sample.journal 2)))) = self (fresh (Sample.journal 2)).
Proof.
  apply (unknown_type_is_rejected Sample.env Sample.unknown (Some "ok")
           (fresh (Sample.journal 2)) "unknown-xyz").
  - reflexivity.
  - apply entry_type_mapping_None; reflexivity.
Defined.

(** A type value that is not a string selects no class either: a
    hashable one is named by the same [ValueError], an unhashable one
    raises [TypeError] in the table lookup; no entry is added. *)
Lemma non_string_type_is_rejected env d r s :
  (forall k, dict_get d "type" JNull <> JStr k) ->
  exists e,
    is_TypeError_or_ValueError e = true /\
    _create_entry env d s = (Raise e, s) /\
    add_entry env (FromDict d) r s =
    (Return None, logged s [(ERROR, [Text "Failed to instantiate entry: "; Exc e])]).
Proof.
  intros Hk.
  assert (Hc : forall s0, exists e, is_TypeError_or_ValueError e = true /\
                                    _create_entry env d s0 = (Raise e, s0) /\
                                    fst (_create_entry env d (fresh (self s))) = Raise e).
  { intros s0. unfold _create_entry. run.
    destruct (dict_get d "type" JNull) as [| | | k | |]; cbn;
      try (eexists; repeat split; reflexivity).
    exfalso; apply (Hk k); reflexivity. }
  destruct (Hc s) as (e & He & Hs & Hf).
  exists e. repeat split; try assumption.
  apply add_entry_failed. exact Hf.
Qed.

(** C7, counter-example.  A response does not always make the interactions
    log one longer: a log that is already at capacity stays at its size
    (the oldest interaction is evicted), and a response that is the empty
    string records no interaction at all. *)
Lemma response_without_growth :
  (fst (add_entry Sample.env (FromDict (Sample.note "b")) (Some "ok") Sample.full) =
   Return (Some (Sample.noted "b")) /\
   size (interactions (self Sample.full)) = 1%nat /\
   size (interactions
           (self (snd (add_entry Sample.env (FromDict (Sample.note "b")) (Some "ok")
                                 Sample.full)))) = 1%nat) /\
  (fst (add_entry Sample.env (FromDict (Sample.note "b")) (Some EmptyString)
                  (fresh (Sample.journal 1))) =
   Return (Some (Sample.noted "b")) /\
   size (interactions
           (self (snd (add_entry Sample.env (FromDict (Sample.note "b")) (Some EmptyString)
                                 (fresh (Sample.journal 1)))))) = 0%nat).
Proof. vm_compute. repeat split; reflexivity. Qed.

(** C7, amended.  For a call of [add_entry] that returns its entry: without
    a response ([None] or the empty string) the interactions log is left
    as it was; with a non-empty response exactly one interaction, derived
    from the entry and the response, is appended under the bound of the
    log, so that the size grows by one below capacity and stays the same at
    capacity. *)
Theorem interactions_follow_response env ed r s e s' :
  add_entry env ed r s = (Return (Some e), s') ->
  (supplied r = None -> interactions (self s') = interactions (self s)) /\
  (forall response, supplied r = Some response ->
     exists i,
       interactions (self s') = append (interactions (self s)) i /\
       interaction_id i = id e /\ date i = createdOn e /\ LAH_action i = response /\
       size (interactions (self s')) =
       if (size (interactions (self s)) <? maxlen (interactions (self s)))%nat
       then S (size (interactions (self s)))
       else size (interactions (self s))).
Proof.
  intros H. destruct (add_entry_returned _ _ _ _ _ _ H) as [_ Hi].
  split.
  - intros Hs. rewrite Hs in Hi. exact Hi.
  - intros response Hs. rewrite Hs in Hi. destruct Hi as (prompt & _ & Hi).
    eexists. split; [exact Hi|]. cbn. repeat split.
    rewrite Hi. apply size_append.
Qed.

Lemma interactions_follow_response_witness :
  (supplied (Some "ok") = None ->
   interactions (self Sample.full) = interactions (self (fresh (Sample.journal 1)))) /\
  (forall response, supplied (Some "ok") = Some response ->
     exists i,
       interactions (self Sample.full) =
       append (interactions (self (fresh (Sample.journal 1)))) i /\
       interaction_id i = id (Sample.noted "a") /\
       date i = createdOn (Sample.noted "a") /\ LAH_action i = response /\
       size (interactions (self Sample.full)) =
       if (size (interactions (self (fresh (Sample.journal 1)))) <?
           maxlen (interactions (self (fresh (Sample.journal 1)))))%nat
       then S (size (interactions (self (fresh (Sample.journal 1)))))
       else size (interactions (self (fresh (Sample.journal 1))))).
Proof.
  apply (interactions_follow_response Sample.env (FromDict (Sample.note "a")) (Some "ok")
           (fresh (Sample.journal 1)) (Sample.noted "a") Sample.full).
  vm_compute; reflexivity.
Defined.

(* ===================================================================== *)
(** ** Resource extraction *)
(* ===================================================================== *)

(** C4, counter-example.  A validated note has no resource extraction to
    call: the attribute lookup fails instead of returning the empty list. *)
Lemma note_extraction_raises :
  fst (_create_entry Sample.env (Sample.note "a") (fresh (Sample.journal 1))) =
  Return (Some (Sample.noted "a")) /\
  non_resource (cls (Sample.noted "a")) = true /\
  get_resource_urls (Sample.noted "a") =
  Raise (AttributeError [Lit "'"; Lit "NoteEntry";
                         Lit "' object has no attribute 'get_resource_urls'"]).
Proof. vm_compute. repeat split; reflexivity. Qed.

(** C4, amended.  The classes for notes, conversations, searches and
    memory searches define no [get_resource_urls]: on their entries the
    call raises [AttributeError]; [get_signed_resource_urls] catches it
    and answers the empty list, [save_resources] lets it through.  For
    every entry of any class, two consecutive extractions agree, error
    included, and change nothing. *)
Theorem non_resource_classes_have_no_extraction env (e : Entry) directory s :
  non_resource (cls e) = true ->
  let x := AttributeError [Lit "'"; Lit (class_name (cls e));
                           Lit "' object has no attribute 'get_resource_urls'"] in
  get_resource_urls e = Raise x /\
  get_signed_resource_urls env e s =
  (Return (JList []),
   logged s [(ERROR, [Text "Failed to fetch signed resource URLs: "; Exc x])]) /\
  save_resources env e directory s = (Raise x, s) /\
  forall e' : Entry,
    extract_twice e' s =
    (match get_resource_urls e' with
     | Return urls => Return (urls, urls)
     | Raise y => Raise y
     end, s).
Proof.
  intros Hc x.
  assert (Hg : get_resource_urls e = Raise x).
  { unfold get_resource_urls, x. destruct (cls e); try discriminate; reflexivity. }
  split; [exact Hg|]. split; [|split].
  - unfold get_signed_resource_urls. run. rewrite Hg. reflexivity.
  - unfold save_resources. run. rewrite Hg. reflexivity.
  - intros e'. unfold extract_twice. run.
    destruct (get_resource_urls e'); reflexivity.
Qed.

Lemma non_resource_classes_have_no_extraction_witness :
  let x := AttributeError [Lit "'"; Lit "NoteEntry";
                           Lit "' object has no attribute 'get_resource_urls'"] in
  let s := fresh (Sample.journal 1) in
  get_resource_urls (Sample.noted "a") = Raise x /\
  get_signed_resource_urls Sample.env (Sample.noted "a") s =
  (Return (JList []),
   logged s [(ERROR, [Text "Failed to fetch signed resource URLs: "; Exc x])]) /\
  save_resources Sample.env (Sample.noted "a") "out" s = (Raise x, s) /\
  forall e' : Entry,
    extract_twice e' s =
    (match get_resource_urls e' with
     | Return urls => Return (urls, urls)
     | Raise y => Raise y
     end, s).
Proof.
  apply (non_resource_classes_have_no_extraction Sample.env (Sample.noted "a") "out"
           (fresh (Sample.journal 1))).
  reflexivity.
Defined.

Lemma url_comprehension_dicts files :
  forallb is_dict files = true ->
  url_comprehension files = Return (filter truthy (map url_of files)).
Proof.
  induction files as [|file files IH]; cbn [forallb url_comprehension map filter];
    [reflexivity|].
  intros H. apply andb_true_iff in H. destruct H as [Hd Hf].
  destruct file as [| | | | |f]; try discriminate.
  cbn [get obind url_of]. rewrite (IH Hf).
  destruct (truthy (dict_get f "url" JNull)); reflexivity.
Qed.

(** C5, counter-example.  Two validated vision entries on which the
    extraction does not return the urls found under
    [data.visionData.files]: with [visionData] null it raises
    [AttributeError], and a descriptor whose [url] is the empty string is
    skipped although it has the key. *)
Lemma vision_extraction_off_the_path :
  (fst (_create_entry Sample.env
          (Sample.payload "v1" "vision" Sample.null_vision Sample.spoken)
          (fresh (Sample.journal 1))) =
   Return (Some (Sample.vision Sample.null_vision)) /\
   get_resource_urls (Sample.vision Sample.null_vision) =
   Raise (AttributeError [Lit "'"; Lit "NoneType"; Lit "' object has no attribute '";
                          Lit "get"; Lit "'"])) /\
  (fst (_create_entry Sample.env
          (Sample.payload "v1" "vision" Sample.empty_url Sample.spoken)
          (fresh (Sample.journal 1))) =
   Return (Some (Sample.vision Sample.empty_url)) /\
   vision_files Sample.empty_url = [JDict [("url", JStr EmptyString)]] /\
   get_resource_urls (Sample.vision Sample.empty_url) = Return []).
Proof. vm_compute. repeat split; reflexivity. Qed.

(** C5, amended.  For a vision entry whose [visionData], when present, is
    a dict, whose [files], when present, is a list, and whose file
    descriptors are dicts, [get_resource_urls] returns the [url] values
    found under [data.visionData.files] in list order, skipping every
    descriptor that has no [url] or an empty (falsy) one; a missing level
    yields the empty list. *)
Theorem vision_urls_in_order (e : Entry) :
  cls e = ClsVisionEntry ->
  vision_shaped (data e) = true ->
  get_resource_urls e = Return (filter truthy (map url_of (vision_files (data e)))) /\
  (vision_files (data e) = [] -> get_resource_urls e = Return []).
Proof.
  intros Hc Hs.
  assert (H : get_resource_urls e =
              Return (filter truthy (map url_of (vision_files (data e))))).
  { unfold get_resource_urls. rewrite Hc.
    unfold VisionEntry.get_resource_urls, contains, dict_item.
    unfold vision_shaped in Hs. unfold vision_files.
    destruct (lookup (data e) "visionData") as [[| | | | |vision]|];
      try discriminate; [|reflexivity].
    cbn [obind get]. unfold dict_get.
    destruct (lookup vision "files") as [[| | | |files|]|]; try discriminate;
      cbn [obind iter]; [|reflexivity].
    apply url_comprehension_dicts; assumption. }
  split; [exact H|]. intros Hn. rewrite H, Hn. reflexivity.
Qed.

Lemma vision_urls_in_order_witness :
  get_resource_urls (Sample.vision Sample.vision_data) = Return [JStr "http://x/a.jpg"] /\
  (vision_files (data (Sample.vision Sample.vision_data)) = [] ->
   get_resource_urls (Sample.vision Sample.vision_data) = Return []).
Proof.
  apply (vision_urls_in_order (Sample.vision Sample.vision_data)); reflexivity.
Defined.

(* ===================================================================== *)
(** ** Resource pipeline *)
(* ===================================================================== *)

(** One turn of the loop never raises: it adds the path of a successful
    download, or logs one error and adds nothing; the journal is not
    touched. *)
Lemma save_one_turn env entry directory urls idx resource_url saved s :
  exists s',
    save_one env entry directory urls idx resource_url saved s =
    (Return (match saved_path env entry directory urls idx resource_url with
             | Some p => saved ++ [p]
             | None => saved
             end), s') /\
    self s' = self s /\
    (saved_path env entry directory urls idx resource_url = None ->
     exists record, s' = logged s [(ERROR, record)]).
Proof.
  unfold save_one, saved_path, list_item, split_last. run.
  destruct (requests_get env idx resource_url) as [content|x]; cbn.
  - destruct (nth_error urls idx) as [raw|]; cbn.
    + destruct raw as [| | |raw| |]; cbn;
        try (eexists; repeat split; eexists; reflexivity).
      destruct (open_write env idx _ content) as [[]|x]; cbn.
      * eexists; repeat split. discriminate.
      * destruct (is_RequestException x); cbn;
          eexists; repeat split; eexists; reflexivity.
    + eexists; repeat split; eexists; reflexivity.
  - destruct (is_RequestException x); cbn;
      eexists; repeat split; eexists; reflexivity.
Qed.

Lemma save_loop_downloads env entry directory urls signed : forall idx saved s,
  exists s',
    save_loop env entry directory urls idx signed saved s =
    (Return (saved ++ downloads env entry directory urls idx signed), s') /\
    self s' = self s.
Proof.
  induction signed as [|resource_url rest IH]; intros idx saved s;
    cbn [save_loop downloads].
  - exists s. rewrite app_nil_r. split; reflexivity.
  - destruct (save_one_turn env entry directory urls idx resource_url saved s)
      as (s1 & H1 & Hs1 & _).
    unfold bind at 1. rewrite H1.
    destruct (saved_path env entry directory urls idx resource_url) as [p|].
    + destruct (IH (S idx) (saved ++ [p]) s1) as (s2 & H2 & Hs2).
      exists s2. rewrite H2, <- app_assoc. split; [reflexivity | congruence].
    + destruct (IH (S idx) saved s1) as (s2 & H2 & Hs2).
      exists s2. rewrite H2. split; [reflexivity | congruence].
Qed.

(** A reported path is built from the entry id and the last segment of the
    raw URL at the same position. *)
Lemma saved_path_names_raw_url env entry directory urls idx resource_url p :
  saved_path env entry directory urls idx resource_url = Some p ->
  exists raw,
    nth_error urls idx = Some (JStr raw) /\
    p = replace slash (String backslash EmptyString)
          (os_path_join env directory
             (id entry ++ "_" ++ last (split slash raw) EmptyString)%string).
Proof.
  unfold saved_path.
  destruct (requests_get env idx resource_url) as [content|]; [|discriminate].
  destruct (nth_error urls idx) as [[| | |raw| |]|]; try discriminate.
  destruct (open_write env idx _ content); [|discriminate].
  intros H; inversion H. exists raw. split; reflexivity.
Qed.

Lemma save_resources_signed env entry directory urls response signed s :
  get_resource_urls entry = Return urls ->
  fetch_user_entry_resource env urls = Return response ->
  get response "resources" (JList []) = Return (JList signed) ->
  exists s',
    save_resources env entry directory s =
    (Return (downloads env entry directory urls 0 signed), s') /\
    self s' = self s.
Proof.
  intros Hu Hf Hr.
  unfold save_resources, get_signed_resource_urls. run.
  rewrite Hu, Hf, Hr. cbn.
  destruct (save_loop_downloads env entry directory urls signed 0 [] s)
    as (s' & H & Hs).
  fold (@bind (list string)). exists s'. split; [|exact Hs].
  exact H.
Qed.

(** C6.  Given the list of signed URLs, [save_resources] returns exactly
    the paths of the successful downloads in their order: a failed fetch or
    write is skipped and the loop goes on, nothing is raised.  Each
    reported path is named after the raw URL at the same position.  In
    particular, with three signed URLs of which the second fetch fails,
    the result is the two paths of the first and third raw URLs. *)
Theorem save_resources_partial_success env entry directory urls response signed s :
  get_resource_urls entry = Return urls ->
  fetch_user_entry_resource env urls = Return response ->
  get response "resources" (JList []) = Return (JList signed) ->
  fst (save_resources env entry directory s) =
  Return (downloads env entry directory urls 0 signed) /\
  self (snd (save_resources env entry directory s)) = self s /\
  (forall idx resource_url p,
     saved_path env entry directory urls idx resource_url = Some p ->
     exists raw,
       nth_error urls idx = Some (JStr raw) /\
       p = replace slash (String backslash EmptyString)
             (os_path_join env directory
                (id entry ++ "_" ++ last (split slash raw) EmptyString)%string)) /\
  (forall a b c p1 p3 x,
     signed = [a; b; c] ->
     saved_path env entry directory urls 0 a = Some p1 ->
     requests_get env 1 b = Raise x ->
     saved_path env entry directory urls 2 c = Some p3 ->
     fst (save_resources env entry directory s) = Return [p1; p3]).
Proof.
  intros Hu Hf Hr.
  destruct (save_resources_signed env entry directory urls response signed s Hu Hf Hr)
    as (s' & H & Hs).
  rewrite H; cbn [fst snd].
  split; [reflexivity|]. split; [exact Hs|]. split.
  - intros idx resource_url p. apply saved_path_names_raw_url.
  - intros a b c p1 p3 x -> H1 H2 H3. cbn [downloads].
    rewrite H1, H3. unfold saved_path at 1. rewrite H2. reflexivity.
Qed.

Lemma save_resources_partial_success_witness :
  fst (save_resources Sample.env Sample.pictures "out" (fresh (Sample.journal 1))) =
  Return [Sample.windows "out/e1_a.jpg"; Sample.windows "out/e1_c.jpg"].
Proof.
  refine (proj1 (save_resources_partial_success Sample.env Sample.pictures "out"
                   [JStr "http://x/a.jpg"; JStr "http://x/b.jpg"; JStr "http://x/c.jpg"]
                   (JDict [("resources",
                            JList [JStr "http://x/a.jpg?sig=1"; JStr "http://x/b.jpg?sig=1";
                                   JStr "http://x/c.jpg?sig=1"])])
                   [JStr "http://x/a.jpg?sig=1"; JStr "http://x/b.jpg?sig=1";
                    JStr "http://x/c.jpg?sig=1"]
                   (fresh (Sample.journal 1)) _ _ _)); reflexivity.
Defined.

(** C9.  When the call of the signing service raises, whatever the
    exception, [get_signed_resource_urls] catches and logs it and answers
    the empty list, and [save_resources] returns the empty list of saved
    paths without raising, fetching or writing anything. *)
Theorem signing_failure_is_absorbed env entry directory urls x s :
  get_resource_urls entry = Return urls ->
  fetch_user_entry_resource env urls = Raise x ->
  let s' := logged s [(ERROR, [Text "Failed to fetch signed resource URLs: "; Exc x])] in
  get_signed_resource_urls env entry s = (Return (JList []), s') /\
  save_resources env entry directory s = (Return [], s').
Proof.
  intros Hu Hf s'.
  unfold save_resources, get_signed_resource_urls. run.
  rewrite Hu, Hf. cbn. split; reflexivity.
Qed.

Lemma signing_failure_is_absorbed_witness :
  let s := fresh (Sample.journal 1) in
  let s' := logged s [(ERROR, [Text "Failed to fetch signed resource URLs: ";
                               Exc (RequestException [Lit "connection refused"])])] in
  get_signed_resource_urls Sample.env_unsigned Sample.pictures s = (Return (JList []), s') /\
  save_resources Sample.env_unsigned Sample.pictures "out" s = (Return [], s').
Proof.
  apply (signing_failure_is_absorbed Sample.env_unsigned Sample.pictures "out"
           [JStr "http://x/a.jpg"; JStr "http://x/b.jpg"; JStr "http://x/c.jpg"]
           (RequestException [Lit "connection refused"]) (fresh (Sample.journal 1)));
    reflexivity.
Defined.

Lemma downloads_beyond_urls env entry directory urls signed : forall idx,
  (length urls <= idx)%nat ->
  downloads env entry directory urls idx signed = [].
Proof.
  induction signed as [|x rest IH]; intros idx Hi; cbn [downloads]; [reflexivity|].
  unfold saved_path.
  assert (Hn : nth_error urls idx = None) by (apply nth_error_None; exact Hi).
  rewrite Hn. destruct (requests_get env idx x); apply IH; lia.
Qed.

Lemma downloads_within_urls env entry directory urls signed : forall idx,
  downloads env entry directory urls idx signed =
  downloads env entry directory urls idx (firstn (length urls - idx) signed) /\
  (length (downloads env entry directory urls idx signed) <= length urls - idx)%nat.
Proof.
  induction signed as [|x rest IH]; intros idx.
  - rewrite firstn_nil. cbn. split; [reflexivity | lia].
  - destruct (Nat.le_gt_cases (length urls) idx) as [Hi|Hi].
    + rewrite downloads_beyond_urls by exact Hi.
      replace (length urls - idx)%nat with 0%nat by lia. cbn. split; [reflexivity | lia].
    + replace (length urls - idx)%nat with (S (length urls - S idx)) by lia.
      cbn [firstn downloads].
      destruct (IH (S idx)) as [IHe IHl].
      destruct (saved_path env entry directory urls idx x); cbn [length].
      * split; [f_equal; exact IHe | lia].
      * split; [exact IHe | lia].
Qed.

(** C10.  When the signing service returns more signed URLs than the entry
    has raw URLs, [save_resources] does not raise: every position past the
    raw list ends in the error handler of its turn, which logs one error
    and adds no path, so the result is that of the positions that have a
    raw URL and is never longer than the raw list. *)
Theorem excess_signed_urls_are_skipped env entry directory urls response signed s :
  get_resource_urls entry = Return urls ->
  fetch_user_entry_resource env urls = Return response ->
  get response "resources" (JList []) = Return (JList signed) ->
  (length urls < length signed)%nat ->
  exists paths,
    fst (save_resources env entry directory s) = Return paths /\
    (length paths <= length urls)%nat /\
    paths = downloads env entry directory urls 0 (firstn (length urls) signed) /\
    forall idx resource_url saved s0,
      nth_error signed idx = Some resource_url ->
      (length urls <= idx)%nat ->
      saved_path env entry directory urls idx resource_url = None /\
      fst (save_one env entry directory urls idx resource_url saved s0) = Return saved /\
      exists record,
        snd (save_one env entry directory urls idx resource_url saved s0) =
        logged s0 [(ERROR, record)].
Proof.
  intros Hu Hf Hr Hlen.
  destruct (save_resources_signed env entry directory urls response signed s Hu Hf Hr)
    as (s' & H & Hs).
  exists (downloads env entry directory urls 0 signed).
  rewrite H; cbn [fst].
  destruct (downloads_within_urls env entry directory urls signed 0) as [He Hl].
  rewrite Nat.sub_0_r in He, Hl.
  split; [reflexivity|]. split; [exact Hl|]. split; [exact He|].
  intros idx resource_url saved s0 Hn Hi.
  assert (Hp : saved_path env entry directory urls idx resource_url = None).
  { unfold saved_path.
    assert (Hx : nth_error urls idx = None) by (apply nth_error_None; exact Hi).
    rewrite Hx. destruct (requests_get env idx resource_url); reflexivity. }
  split; [exact Hp|].
  destruct (save_one_turn env entry directory urls idx resource_url saved s0)
    as (s1 & H1 & _ & Hlog).
  rewrite H1, Hp; cbn [fst snd]. split; [reflexivity|].
  apply Hlog; exact Hp.
Qed.

Lemma excess_signed_urls_are_skipped_witness :
  exists paths,
    fst (save_resources Sample.env_oversigned Sample.pictures "out"
           (fresh (Sample.journal 1))) = Return paths /\
    (length paths <= 3)%nat /\
    paths = [Sample.windows "out/e1_a.jpg"; Sample.windows "out/e1_b.jpg";
             Sample.windows "out/e1_c.jpg"] /\
    forall idx resource_url saved s0,
      nth_error [JStr "http://x/a.jpg"; JStr "http://x/b.jpg"; JStr "http://x/c.jpg";
                 JStr "http://s/extra"] idx = Some resource_url ->
      (3 <= idx)%nat ->
      saved_path Sample.env_oversigned Sample.pictures "out"
        [JStr "http://x/a.jpg"; JStr "http://x/b.jpg"; JStr "http://x/c.jpg"]
        idx resource_url = None /\
      fst (save_one Sample.env_oversigned Sample.pictures "out"
             [JStr "http://x/a.jpg"; JStr "http://x/b.jpg"; JStr "http://x/c.jpg"]
             idx resource_url saved s0) = Return saved /\
      exists record,
        snd (save_one Sample.env_oversigned Sample.pictures "out"
               [JStr "http://x/a.jpg"; JStr "http://x/b.jpg"; JStr "http://x/c.jpg"]
               idx resource_url saved s0) = logged s0 [(ERROR, record)].
Proof.
  apply (excess_signed_urls_are_skipped Sample.env_oversigned Sample.pictures "out"
           [JStr "http://x/a.jpg"; JStr "http://x/b.jpg"; JStr "http://x/c.jpg"]
           (JDict [("resources",
                    JList [JStr "http://x/a.jpg"; JStr "http://x/b.jpg";
                           JStr "http://x/c.jpg"; JStr "http://s/extra"])])
           [JStr "http://x/a.jpg"; JStr "http://x/b.jpg"; JStr "http://x/c.jpg";
            JStr "http://s/extra"]
           (fresh (Sample.journal 1)));
    [reflexivity | reflexivity | reflexivity | cbn; lia].
Defined.

(* ===================================================================== *)
(** ** Timestamps *)
(* ===================================================================== *)

Section TimestampFacts.
Local Open Scope Z_scope.
Import Timestamp.

Lemma append_assoc (a b c : string) : ((a ++ b) ++ c)%string = (a ++ (b ++ c))%string.
Proof. induction a as [|x a IH]; cbn; [reflexivity | rewrite IH; reflexivity]. Qed.

Lemma append_nil_r (a : string) : (a ++ EmptyString)%string = a.
Proof. induction a as [|x a IH]; cbn; [reflexivity | rewrite IH; reflexivity]. Qed.

Lemma string_length_app (a b : string) :
  String.length (a ++ b) = (String.length a + String.length b)%nat.
Proof. induction a as [|x a IH]; cbn; [reflexivity | rewrite IH; reflexivity]. Qed.

Lemma advance_app (a r : string) : advance (String.length a) (a ++ r) = r.
Proof. induction a as [|x a IH]; cbn; [destruct r; reflexivity | exact IH]. Qed.

Lemma advance_plus (a r : string) k :
  advance (String.length a + k) (a ++ r) = advance k r.
Proof. induction a as [|x a IH]; cbn; [reflexivity | exact IH]. Qed.

(** *** Digits *)

Lemma digit_cases k : 0 <= k <= 9 ->
  k = 0 \/ k = 1 \/ k = 2 \/ k = 3 \/ k = 4 \/ k = 5 \/ k = 6 \/ k = 7 \/ k = 8 \/ k = 9.
Proof. lia. Qed.

Ltac each_digit H :=
  apply digit_cases in H;
  repeat (destruct H as [H|H]; [subst; reflexivity|]); subst; reflexivity.

Lemma digit_val_char k : 0 <= k <= 9 -> digit_val (digit_char k) = Some k.
Proof. intros H. each_digit H. Qed.

Lemma digit_val_mod n : digit_val (digit_char (n mod 10)) = Some (n mod 10).
Proof. apply digit_val_char. pose proof (Z.mod_pos_bound n 10). lia. Qed.

Lemma is_digit_mod n : is_digit (digit_char (n mod 10)) = true.
Proof. unfold is_digit. rewrite digit_val_mod. reflexivity. Qed.

(** A digit is none of the characters that are not digits. *)
Lemma digit_neq n c : is_digit c = false -> Ascii.eqb (digit_char (n mod 10)) c = false.
Proof.
  intros Hc. destruct (Ascii.eqb_spec (digit_char (n mod 10)) c) as [E|E]; [|reflexivity].
  rewrite <- E, is_digit_mod in Hc. discriminate.
Qed.

Lemma is_tz_start_digit n : is_tz_start (digit_char (n mod 10)) = false.
Proof. unfold is_tz_start. rewrite !digit_neq by reflexivity. reflexivity. Qed.

(** *** Zero-padded numbers *)

Lemma length_zfill w : forall n, String.length (zfill w n) = w.
Proof.
  induction w as [|w IH]; intros n; cbn [zfill]; [reflexivity|].
  rewrite string_length_app, IH. cbn. lia.
Qed.

Lemma zfill_S w n :
  zfill (S w) n = (zfill w (n / 10) ++ String (digit_char (n mod 10)) EmptyString)%string.
Proof. reflexivity. Qed.

(** The first character of a zero-padded number *)
Lemma zfill_head w : forall n, exists k r, zfill (S w) n = String (digit_char (k mod 10)) r.
Proof.
  induction w as [|w IH]; intros n.
  - exists n, EmptyString. reflexivity.
  - destruct (IH (n / 10)) as (k & r & E). rewrite zfill_S, E.
    exists k. eexists. cbn [String.append]. reflexivity.
Qed.

Lemma parse_digits_snoc w : forall acc s,
  parse_digits (S w) acc s =
  match parse_digits w acc s with
  | Some (a, String c r) =>
      match digit_val c with
      | Some k => Some (10 * a + k, r)
      | None => None
      end
  | _ => None
  end.
Proof.
  induction w as [|w IH]; intros acc s.
  - cbn. destruct s as [|c r]; [reflexivity|]. destruct (digit_val c); reflexivity.
  - cbn [parse_digits]. destruct s as [|c r]; [reflexivity|].
    destruct (digit_val c) as [k|]; [|reflexivity].
    rewrite <- IH. reflexivity.
Qed.

Lemma parse_digits_zfill w : forall n acc rest,
  0 <= n < 10 ^ Z.of_nat w ->
  parse_digits w acc (zfill w n ++ rest) = Some (acc * 10 ^ Z.of_nat w + n, rest).
Proof.
  induction w as [|w IH]; intros n acc rest Hn.
  - cbn in *. f_equal. f_equal. lia.
  - rewrite parse_digits_snoc. cbn [zfill]. rewrite append_assoc. cbn [String.append].
    rewrite Nat2Z.inj_succ, Z.pow_succ_r in Hn by lia.
    rewrite IH by (split; [apply Z.div_pos; lia | apply Z.div_lt_upper_bound; lia]).
    cbv beta iota. cbn [String.append].
    rewrite digit_val_mod.
    f_equal. f_equal.
    rewrite Nat2Z.inj_succ, Z.pow_succ_r by lia.
    pose proof (Z.div_mod n 10). lia.
Qed.

Lemma parse1 n rest : 0 <= n <= 9 ->
  parse_digits 1 0 (zfill 1 n ++ rest) = Some (n, rest).
Proof. intros H. rewrite parse_digits_zfill by (cbn; lia). reflexivity. Qed.

Lemma parse2 n rest : 0 <= n <= 99 ->
  parse_digits 2 0 (zfill 2 n ++ rest) = Some (n, rest).
Proof. intros H. rewrite parse_digits_zfill by (cbn; lia). reflexivity. Qed.

Lemma parse4 n rest : 0 <= n <= 9999 ->
  parse_digits 4 0 (zfill 4 n ++ rest) = Some (n, rest).
Proof. intros H. rewrite parse_digits_zfill by (cbn; lia). reflexivity. Qed.

Lemma peek_zfill w n rest : is_digit (peek (zfill (S w) n ++ rest)) = true.
Proof.
  destruct (zfill_head w n) as (k & r & ->). cbn [String.append peek].
  apply is_digit_mod.
Qed.

Lemma peek_zfill_neq w n rest c :
  is_digit c = false -> Ascii.eqb (peek (zfill (S w) n ++ rest)) c = false.
Proof.
  intros Hc. destruct (zfill_head w n) as (k & r & ->). cbn [String.append peek].
  apply digit_neq; exact Hc.
Qed.

Lemma skip_digits_zfill w : forall n rest,
  skip_digits (zfill w n ++ rest) = skip_digits rest.
Proof.
  induction w as [|w IH]; intros n rest; cbn [zfill String.append]; [reflexivity|].
  rewrite append_assoc, IH. cbn [String.append skip_digits].
  rewrite is_digit_mod. reflexivity.
Qed.

Lemma mod_step n P : 0 < P ->
  (n mod (10 * P)) / 10 = (n / 10) mod P /\ (n mod (10 * P)) mod 10 = n mod 10.
Proof.
  intros HP. rewrite Z.rem_mul_r by lia.
  pose proof (Z.mod_pos_bound n 10 ltac:(lia)) as H10.
  split.
  - rewrite Z.mul_comm, Z.div_add by lia. rewrite Z.div_small by lia. lia.
  - rewrite Z.mul_comm, Z.mod_add by lia. apply Z.mod_mod; lia.
Qed.

(** The first [a] of [a + b] digits *)
Lemma zfill_split b : forall a n,
  zfill (a + b) n =
  (zfill a (n / 10 ^ Z.of_nat b) ++ zfill b (n mod 10 ^ Z.of_nat b))%string.
Proof.
  induction b as [|b IH]; intros a n.
  - rewrite Nat.add_0_r. cbn [Z.of_nat zfill]. rewrite Z.pow_0_r, Z.div_1_r, append_nil_r.
    reflexivity.
  - replace (a + S b)%nat with (S (a + b)) by lia.
    rewrite !zfill_S, IH.
    rewrite append_assoc.
    rewrite Nat2Z.inj_succ, Z.pow_succ_r by lia.
    assert (Hp : 0 < 10 ^ Z.of_nat b) by (apply Z.pow_pos_nonneg; lia).
    destruct (mod_step n _ Hp) as [-> ->].
    rewrite Z.div_div by lia. reflexivity.
Qed.


(** *** Comparisons decided by linear arithmetic *)

Ltac decide_Z :=
  repeat match goal with
  | |- context [Z.leb ?a ?b] =>
      first [ replace (Z.leb a b) with true by (symmetry; apply Z.leb_le; lia)
            | replace (Z.leb a b) with false by (symmetry; apply Z.leb_gt; lia) ]
  | |- context [Z.ltb ?a ?b] =>
      first [ replace (Z.ltb a b) with true by (symmetry; apply Z.ltb_lt; lia)
            | replace (Z.ltb a b) with false by (symmetry; apply Z.ltb_ge; lia) ]
  | |- context [Z.eqb ?a ?b] =>
      first [ replace (Z.eqb a b) with true by (symmetry; apply Z.eqb_eq; lia)
            | replace (Z.eqb a b) with false by (symmetry; apply Z.eqb_neq; lia) ]
  end.

Lemma between_true lo x hi : Iso8601.between lo x hi = true <-> lo <= x <= hi.
Proof. unfold Iso8601.between. rewrite andb_true_iff, !Z.leb_le. tauto. Qed.

Lemma days_in_month_le y m : days_in_month y m <= 31.
Proof.
  unfold days_in_month.
  destruct (m =? 2); [destruct (is_leap y); lia|].
  destruct ((m =? 4) || (m =? 6) || (m =? 9) || (m =? 11)); lia.
Qed.

(** *** The date *)

Lemma length_render_date ext d :
  String.length (render_date ext d) = if ext then 10%nat else 8%nat.
Proof.
  destruct d, ext; cbn [render_date mark];
    rewrite ?string_length_app, ?length_zfill; reflexivity.
Qed.

Lemma find_separator (ext : bool) d r n :
  (if ext then 10 else 8) < n ->
  _find_isoformat_datetime_separator (render_date ext d ++ String "T" r) n =
  if ext then 10 else 8.
Proof.
  intros Hn. unfold _find_isoformat_datetime_separator.
  destruct d as [y m d|y w d], ext;
    cbn [render_date mark zfill String.append advance peek count_digits];
    rewrite ?digit_neq by reflexivity; rewrite ?is_digit_mod;
    cbn [Ascii.eqb Bool.eqb andb is_digit digit_val count_digits];
    decide_Z; try reflexivity.
Qed.


Lemma iso_to_ymd_week y w d :
  (Iso8601.between 1 w 52 || ((w =? 53) && long_year y)) = true -> Iso8601.between 1 d 7 = true ->
  iso_to_ymd y w d = Some (day_of (Week y w d)).
Proof.
  intros Hw Hd. apply between_true in Hd.
  unfold iso_to_ymd, day_of.
  replace ((d <=? 0) || (8 <=? d)) with false
    by (symmetry; apply orb_false_iff; split; [apply Z.leb_gt | apply Z.leb_gt]; lia).
  apply orb_true_iff in Hw. destruct Hw as [Hw|Hw].
  - apply between_true in Hw.
    replace ((w <=? 0) || (53 <=? w)) with false
      by (symmetry; apply orb_false_iff; split; [apply Z.leb_gt | apply Z.leb_gt]; lia).
    reflexivity.
  - apply andb_true_iff in Hw. destruct Hw as [Hw Hl]. apply Z.eqb_eq in Hw. subst w.
    unfold long_year in Hl. rewrite Hl. reflexivity.
Qed.

(** Appends nested to the right, with the leading characters exposed *)
Ltac norm := repeat (progress (rewrite ?append_assoc; cbn [String.append])).

Lemma size_t_small n : 0 <= n < 2 ^ 64 -> size_t n = n.
Proof. intros H. unfold size_t. apply Z.mod_small; exact H. Qed.

(** The parser reads the day that the text of a date names. *)
Lemma parse_date_render ext d r :
  date_ok d = true ->
  parse_isoformat_date (render_date ext d ++ String "T" r) (if ext then 10 else 8) =
  Some (day_of d).
Proof.
  intros H. unfold parse_isoformat_date.
  destruct d as [y m d|y w d]; cbn [date_ok] in H.
  - rewrite !andb_true_iff, !between_true in H. destruct H as [[Hy Hm] Hd].
    destruct ext; cbn [render_date mark]; norm;
      rewrite parse4 by lia; cbn [peek advance].
    + cbn [Ascii.eqb Bool.eqb andb negb].
      rewrite peek_zfill_neq by reflexivity.
      rewrite parse2 by lia. cbn [peek advance Ascii.eqb Bool.eqb andb negb].
      rewrite parse2 by lia. reflexivity.
    + rewrite !peek_zfill_neq by reflexivity.
      rewrite parse2 by lia. cbn [andb].
      rewrite parse2 by lia. reflexivity.
  - rewrite !andb_true_iff in H. destruct H as [[Hy Hw] Hd].
    apply between_true in Hy.
    assert (Hw' : 0 <= w <= 99).
    { apply orb_true_iff in Hw. destruct Hw as [Hw|Hw].
      - apply between_true in Hw. lia.
      - apply andb_true_iff in Hw. destruct Hw as [Hw _]. apply Z.eqb_eq in Hw. lia. }
    pose proof (proj1 (between_true _ _ _) Hd) as Hd'.
    destruct ext; cbn [render_date mark]; norm;
      rewrite parse4 by lia; cbn [peek advance].
    + cbn [Ascii.eqb Bool.eqb andb negb].
      rewrite parse2 by lia. cbn [peek advance Ascii.eqb Bool.eqb andb negb].
      rewrite parse1 by lia. apply iso_to_ymd_week; assumption.
    + cbn [Ascii.eqb Bool.eqb andb negb].
      rewrite parse2 by lia. cbn [andb Z.add Z.ltb Z.compare Pos.add Pos.succ Pos.compare Pos.compare_cont].
      rewrite parse1 by lia. apply iso_to_ymd_week; assumption.
Qed.


(** *** The time of day *)

Lemma peek_skip_digits r : is_digit (peek r) = false -> peek (skip_digits r) = peek r.
Proof. destruct r as [|c r]; cbn; [reflexivity|]. intros ->. reflexivity. Qed.

Lemma pow_bounds a b n :
  0 <= n < 10 ^ Z.of_nat (a + b) -> 0 <= n / 10 ^ Z.of_nat b < 10 ^ Z.of_nat a.
Proof.
  intros [H0 H1].
  assert (Hp : 0 < 10 ^ Z.of_nat b) by (apply Z.pow_pos_nonneg; lia).
  split; [apply Z.div_pos; lia|].
  apply Z.div_lt_upper_bound; [lia|].
  rewrite Nat2Z.inj_add, Z.pow_add_r in H1 by lia. lia.
Qed.

(** The fraction of a second: its first six digits count. *)
Lemma parse_ff_render comma w n r :
  (1 <= w)%nat -> 0 <= n < 10 ^ Z.of_nat w -> is_digit (peek r) = false ->
  parse_ff (zfill w n ++ r) (Z.of_nat w) =
  Some (negb (Ascii.eqb (peek r) NUL), [], micros (Decimal comma w n)).
Proof.
  intros Hw Hn Hr. unfold parse_ff, micros.
  destruct (Nat.leb_spec w 6) as [H6|H6].
  - assert (Hc : (if Z.of_nat w <? 6 then n * correction (Z.of_nat w - 1) else n) =
                 n * 10 ^ Z.of_nat (6 - w)).
    { do 7 (destruct w as [|w]; [try lia; cbn; lia|]). lia. }
    destruct (Z.leb_spec 6 (Z.of_nat w)) as [H|H].
    + assert (w = 6%nat) by lia. subst w.
      change (Z.to_nat 6) with 6%nat.
      rewrite parse_digits_zfill by exact Hn.
      rewrite peek_skip_digits by exact Hr.
      rewrite Z.mul_0_l, Z.add_0_l. change (Z.of_nat 6) with 6 in Hc.
      change (6 - 1) with 5 in Hc. change (6 <? 6) with false in Hc.
      cbv iota in Hc. cbn [Z.ltb Z.compare Pos.compare Pos.compare_cont].
      rewrite Hc at 1. reflexivity.
    + rewrite Nat2Z.id, parse_digits_zfill by exact Hn.
      rewrite peek_skip_digits by exact Hr.
      rewrite Z.mul_0_l, Z.add_0_l. rewrite Hc. reflexivity.
  - replace (6 <=? Z.of_nat w) with true by (symmetry; apply Z.leb_le; lia).
    replace w with (6 + (w - 6))%nat at 1 by lia.
    rewrite zfill_split, append_assoc.
    change (Z.to_nat 6) with 6%nat.
    rewrite parse_digits_zfill
      by (apply pow_bounds; replace (6 + (w - 6))%nat with w by lia; exact Hn).
    rewrite skip_digits_zfill, peek_skip_digits by exact Hr.
    reflexivity.
Qed.

Lemma length_render_time ext tm :
  String.length (render_time ext tm) =
  match tm with
  | Hours _ => 2%nat
  | Minutes _ _ => if ext then 5%nat else 4%nat
  | Seconds _ _ _ f =>
      ((if ext then 8 else 6) +
       match f with Whole => 0 | Decimal _ w _ => S w end)%nat
  end.
Proof.
  destruct tm as [h|h m|h m s [|comma w n]], ext; cbn [render_time render_fraction mark];
    rewrite ?string_length_app, ?length_zfill; try reflexivity;
    destruct comma; cbn [String.length]; lia.
Qed.

Ltac field_step :=
  cbn [peek advance]; rewrite ?peek_zfill_neq by reflexivity;
  cbn [Ascii.eqb Bool.eqb andb orb negb]; decide_Z; cbv iota.

(** The parser reads the fields that the text of a time of day names,
    whatever follows it, as long as that is not a digit. *)
Lemma parse_time_render ext tm r :
  time_ok tm = true -> is_digit (peek r) = false ->
  parse_hh_mm_ss_ff (render_time ext tm ++ r)
                    (Z.of_nat (String.length (render_time ext tm))) =
  Some (negb (Ascii.eqb (peek r) NUL), fields_of tm, microsecond_of tm).
Proof.
  intros H Hr. rewrite length_render_time. unfold parse_hh_mm_ss_ff.
  destruct tm as [h|h m|h m s f]; cbn [time_ok] in H;
    rewrite ?andb_true_iff, ?between_true in H.
  - cbn [render_time hh_mm_ss]. rewrite parse2 by lia. reflexivity.
  - destruct H as [Hh Hm].
    destruct ext; cbn [render_time mark hh_mm_ss]; norm; rewrite parse2 by lia;
      cbn [peek advance Ascii.eqb Bool.eqb andb orb negb Z.of_nat Pos.of_succ_nat Pos.succ
           Z.sub Z.add Z.opp Z.pos_sub Z.leb Z.compare Pos.pred_double].
    + rewrite parse2 by lia. reflexivity.
    + rewrite !peek_zfill_neq by reflexivity. cbn [andb orb negb].
      rewrite parse2 by lia. reflexivity.
  - destruct H as [[[Hh Hm] Hs] Hf].
    destruct f as [|comma w n].
    + destruct ext; cbn [render_time render_fraction mark hh_mm_ss]; norm;
        rewrite parse2 by lia; field_step; rewrite parse2 by lia; field_step;
        rewrite parse2 by lia; field_step; reflexivity.
    + rewrite !andb_true_iff in Hf. destruct Hf as [[Hw H0] H1].
      apply Nat.leb_le in Hw. apply Z.leb_le in H0. apply Z.ltb_lt in H1.
      destruct ext, comma; cbn [render_time render_fraction mark hh_mm_ss]; norm;
        rewrite parse2 by lia; field_step; rewrite parse2 by lia; field_step;
        rewrite parse2 by lia; field_step;
        match goal with
        | |- context [parse_ff _ ?k] => replace k with (Z.of_nat w) by lia
        end;
        rewrite (parse_ff_render false) by (auto; lia); reflexivity.
Qed.


Lemma parse_time_render_end ext tm :
  time_ok tm = true ->
  parse_hh_mm_ss_ff (render_time ext tm)
                    (Z.of_nat (String.length (render_time ext tm))) =
  Some (false, fields_of tm, microsecond_of tm).
Proof.
  intros H. rewrite <- (append_nil_r (render_time ext tm)) at 1.
  rewrite parse_time_render by (try exact H; reflexivity). reflexivity.
Qed.

(** *** The zone designator *)

Lemma no_tz_app a b : no_tz (a ++ b) = no_tz a && no_tz b.
Proof.
  induction a as [|c a IH]; cbn [String.append no_tz]; [reflexivity|].
  rewrite IH, andb_assoc. reflexivity.
Qed.

Lemma no_tz_zfill w : forall n, no_tz (zfill w n) = true.
Proof.
  induction w as [|w IH]; intros n; cbn [zfill]; [reflexivity|].
  rewrite no_tz_app, IH. cbn [no_tz]. rewrite is_tz_start_digit. reflexivity.
Qed.

Lemma no_tz_render_time ext tm : no_tz (render_time ext tm) = true.
Proof.
  destruct tm as [h|h m|h m s [|comma w n]], ext;
    cbn [render_time render_fraction mark];
    rewrite ?no_tz_app, ?no_tz_zfill; try reflexivity;
    destruct comma; reflexivity.
Qed.

(** The designator is found right after a text that has none of its
    characters. *)
Lemma find_tzinfo_app a : forall r n pos,
  a <> EmptyString -> no_tz a = true ->
  r = EmptyString \/ is_tz_start (peek r) = true ->
  n = pos + Z.of_nat (String.length a) + Z.of_nat (String.length r) ->
  find_tzinfo (a ++ r) n pos = pos + Z.of_nat (String.length a).
Proof.
  induction a as [|c a IH]; intros r n pos Ha Hno Hr Hn; [congruence|].
  cbn [no_tz] in Hno. apply andb_true_iff in Hno. destruct Hno as [Hc Hno].
  apply negb_true_iff in Hc.
  cbn [String.append find_tzinfo String.length]. rewrite Hc.
  cbn [String.length] in Hn.
  destruct a as [|c' a].
  - cbn [String.append String.length] in *.
    destruct Hr as [->|Hr].
    + cbn [String.length] in Hn.
      replace (pos + 1 <? n) with false by (symmetry; apply Z.ltb_ge; lia). lia.
    + destruct r as [|z r]; [discriminate|]. cbn [String.length] in Hn.
      replace (pos + 1 <? n) with true by (symmetry; apply Z.ltb_lt; lia).
      cbn [find_tzinfo]. cbn [peek] in Hr. rewrite Hr. lia.
  - replace (pos + 1 <? n) with true
      by (symmetry; apply Z.ltb_lt; cbn [String.length] in Hn; lia).
    rewrite IH; [lia | discriminate | exact Hno | exact Hr | lia].
Qed.

Lemma render_time_nonempty ext tm : render_time ext tm <> EmptyString.
Proof.
  intros E. apply (f_equal String.length) in E. rewrite length_render_time in E.
  destruct tm as [h|h m|h m s f], ext; cbn in E; discriminate.
Qed.

Lemma designator_start ext z :
  designator ext z = EmptyString \/ is_tz_start (peek (designator ext z)) = true.
Proof.
  destruct z as [[|negative hh|negative hh mm]|]; [right | right | right | left];
    try reflexivity; destruct negative; reflexivity.
Qed.

Lemma designator_not_digit ext z : is_digit (peek (designator ext z)) = false.
Proof.
  destruct z as [[|negative hh|negative hh mm]|]; try reflexivity;
    destruct negative; reflexivity.
Qed.

(** The parser reads the time of day and the offset that the text
    names. *)
Lemma parse_isoformat_time_render ext tm zext z :
  time_ok tm = true ->
  match z with Some z => zone_ok z | None => true end = true ->
  parse_isoformat_time
    (render_time ext tm ++ designator zext z)
    (Z.of_nat (String.length (render_time ext tm)) +
     Z.of_nat (String.length (designator zext z))) =
  Some (fields_of tm, microsecond_of tm, tz_of z).
Proof.
  intros Ht Hz. unfold parse_isoformat_time.
  rewrite (find_tzinfo_app (render_time ext tm) (designator zext z))
    by (try apply render_time_nonempty; try apply no_tz_render_time;
        try apply designator_start; lia).
  rewrite Z.add_0_l.
  rewrite parse_time_render by (try exact Ht; apply designator_not_digit).
  rewrite Nat2Z.id, advance_app.
  destruct z as [z|].
  - replace (Z.of_nat (String.length (render_time ext tm)) =?
             Z.of_nat (String.length (render_time ext tm)) +
             Z.of_nat (String.length (designator zext (Some z))))
      with false.
    2:{ symmetry. apply Z.eqb_neq.
        destruct z as [|negative hh|negative hh mm]; cbn [designator render_zone];
          try destruct negative; cbn [sign String.append String.length]; lia. }
    destruct z as [|negative hh|negative hh mm]; cbn [designator render_zone].
    + reflexivity.
    + cbn [zone_ok] in Hz.
      assert (E : Z.of_nat (String.length (render_time ext tm)) +
                  Z.of_nat (String.length (sign negative ++ zfill 2 hh)) -
                  Z.of_nat (String.length (render_time ext tm)) - 1 =
                  Z.of_nat (String.length (render_time true (Hours hh)))).
      { cbn [render_time]. rewrite string_length_app, !length_zfill.
        destruct negative; cbn [sign String.length]; lia. }
      rewrite E.
      destruct negative; cbn [sign String.append peek advance Ascii.eqb Bool.eqb andb];
        change (zfill 2 hh) with (render_time true (Hours hh));
        rewrite parse_time_render_end by exact Hz;
        cbn [fields_of microsecond_of nth tz_of seconds_east]; do 3 f_equal; f_equal; lia.
    + cbn [zone_ok] in Hz.
      assert (E : Z.of_nat (String.length (render_time ext tm)) +
                  Z.of_nat (String.length
                              (sign negative ++ zfill 2 hh ++ mark zext ":" ++ zfill 2 mm)) -
                  Z.of_nat (String.length (render_time ext tm)) - 1 =
                  Z.of_nat (String.length (render_time zext (Minutes hh mm)))).
      { cbn [render_time]. rewrite !string_length_app, !length_zfill.
        destruct negative; cbn [sign String.length]; lia. }
      rewrite E.
      destruct negative; cbn [sign String.append peek advance Ascii.eqb Bool.eqb andb];
        change (zfill 2 hh ++ mark zext ":" ++ zfill 2 mm)%string
          with (render_time zext (Minutes hh mm));
        rewrite parse_time_render_end by exact Hz;
        cbn [fields_of microsecond_of nth tz_of seconds_east]; do 3 f_equal; f_equal; lia.
  - cbn [designator String.length Z.of_nat]. rewrite Z.add_0_r, Z.eqb_refl.
    reflexivity.
Qed.


(** *** The whole text *)

Lemma nth_fields tm :
  nth 0 (fields_of tm) 0 = hour_of tm /\ nth 1 (fields_of tm) 0 = minute_of tm /\
  nth 2 (fields_of tm) 0 = second_of tm.
Proof. destruct tm; repeat split. Qed.

Lemma tzinfo_of_zone z :
  tzinfo_from_isoformat_results (tz_of z) =
  match z with Some z => Some (offset z) | None => None end.
Proof.
  destruct z as [z|]; [|reflexivity]. cbn [tz_of tzinfo_from_isoformat_results].
  unfold offset. destruct (Z.eqb_spec (seconds_east z) 0) as [E|E].
  - rewrite E. reflexivity.
  - f_equal. lia.
Qed.

(** [fromisoformat] reads what the text denotes, when that lies in the
    range of [datetime]. *)
Lemma fromisoformat_text dext d text tm zext z :
  date_ok d = true -> time_ok tm = true ->
  match z with Some z => zone_ok z | None => true end = true ->
  fromisoformat (render_date dext d ++ "T" ++ render_time text tm ++ designator zext z) =
  if in_range (read d tm z) then Some (read d tm z) else None.
Proof.
  intros Hd Ht Hz. unfold fromisoformat.
  cbn [String.append].
  set (rest := (render_time text tm ++ designator zext z)%string).
  assert (Hlen : Z.of_nat (String.length (render_date dext d ++ String "T" rest)) =
                 (if dext then 10 else 8) + 1 +
                 (Z.of_nat (String.length (render_time text tm)) +
                  Z.of_nat (String.length (designator zext z)))).
  { unfold rest. rewrite string_length_app, length_render_date. cbn [String.length].
    rewrite string_length_app. destruct dext; lia. }
  rewrite Hlen.
  assert (Hpos : 0 < Z.of_nat (String.length (render_time text tm))).
  { pose proof (render_time_nonempty text tm) as Hne.
    destruct (render_time text tm); [congruence | cbn [String.length]; lia]. }
  replace ((if dext then 10 else 8) + 1 +
           (Z.of_nat (String.length (render_time text tm)) +
            Z.of_nat (String.length (designator zext z))) <? 7)
    with false by (symmetry; apply Z.ltb_ge; destruct dext; lia).
  rewrite find_separator by (destruct dext; lia).
  rewrite size_t_small by (destruct dext; cbn; lia).
  rewrite parse_date_render by exact Hd.
  replace ((if dext then 10 else 8) <?
           (if dext then 10 else 8) + 1 +
           (Z.of_nat (String.length (render_time text tm)) +
            Z.of_nat (String.length (designator zext z))))
    with true by (symmetry; apply Z.ltb_lt; destruct dext; lia).
  assert (Hadv : advance (Z.to_nat (if dext then 10 else 8))
                         (render_date dext d ++ String "T" rest) = String "T" rest).
  { rewrite <- (advance_app (render_date dext d) (String "T" rest)) at 2.
    rewrite length_render_date. destruct dext; reflexivity. }
  rewrite Hadv. cbn [peek].
  change (utf8_width "T") with 1%nat. cbn [advance].
  replace ((if dext then 10 else 8) + 1 +
           (Z.of_nat (String.length (render_time text tm)) +
            Z.of_nat (String.length (designator zext z))) -
           ((if dext then 10 else 8) + Z.of_nat 1))
    with (Z.of_nat (String.length (render_time text tm)) +
          Z.of_nat (String.length (designator zext z))) by (cbn [Z.of_nat]; lia).
  unfold rest. rewrite parse_isoformat_time_render by assumption.
  destruct (nth_fields tm) as (-> & -> & ->).
  rewrite tzinfo_of_zone. unfold read.
  destruct (day_of d) as [[y m] dd]. reflexivity.
Qed.


(** *** The validator *)

Lemma replace_app c by_ a b :
  replace c by_ (a ++ b) = (replace c by_ a ++ replace c by_ b)%string.
Proof.
  induction a as [|x a IH]; cbn; [reflexivity|].
  destruct (Ascii.eqb x c); rewrite IH; [rewrite append_assoc|]; reflexivity.
Qed.

Lemma replace_zfill by_ w : forall n, replace "Z" by_ (zfill w n) = zfill w n.
Proof.
  induction w as [|w IH]; intros n; cbn [zfill]; [reflexivity|].
  rewrite replace_app, IH. cbn [replace].
  rewrite digit_neq by reflexivity. reflexivity.
Qed.

Lemma replace_render_date by_ ext d : replace "Z" by_ (render_date ext d) = render_date ext d.
Proof.
  destruct d, ext; cbn [render_date mark];
    rewrite ?replace_app, ?replace_zfill; reflexivity.
Qed.

Lemma replace_render_time by_ ext tm : replace "Z" by_ (render_time ext tm) = render_time ext tm.
Proof.
  destruct tm as [h|h m|h m s [|comma w n]], ext; cbn [render_time render_fraction mark];
    rewrite ?replace_app, ?replace_zfill; try reflexivity;
    destruct comma; reflexivity.
Qed.

(** The validator's replacement of [Z] writes the zone as an offset and
    leaves the rest of the text as it is. *)
Lemma replace_render x : replace "Z" "+00:00" (render x) = render (numeric x).
Proof.
  unfold render, render_local, numeric.
  rewrite !replace_app, replace_render_date, replace_render_time.
  destruct (the_zone x) as [|negative hh|negative hh mm] eqn:Hz;
    cbn [the_date date_extended the_time time_extended the_zone zone_extended];
    rewrite ?Hz; cbn [render_zone].
  - reflexivity.
  - rewrite replace_app, replace_zfill. destruct negative; reflexivity.
  - rewrite !replace_app, !replace_zfill.
    destruct negative, (zone_extended x); reflexivity.
Qed.

Lemma well_formed_numeric x : well_formed x = true -> well_formed (numeric x) = true.
Proof.
  unfold well_formed, numeric. intros H.
  destruct (the_zone x) eqn:Hz;
    cbn [the_date date_extended the_time time_extended the_zone zone_extended];
    rewrite ?Hz; exact H.
Qed.

Lemma denote_numeric x : denote (numeric x) = denote x.
Proof.
  unfold denote, numeric. destruct (the_zone x) eqn:Hz; cbn; rewrite ?Hz; reflexivity.
Qed.

Lemma denote_read x : read (the_date x) (the_time x) (Some (the_zone x)) = denote x.
Proof. reflexivity. Qed.

(** The parser on the whole text of a timestamp with a numeric zone or
    a [Z] *)
Lemma fromisoformat_render x :
  representable x = true -> fromisoformat (render x) = Some (denote x).
Proof.
  unfold representable, well_formed. rewrite !andb_true_iff.
  intros [[[Hd Ht] Hz] Hin].
  unfold render, render_local. rewrite !append_assoc.
  change (render_zone (zone_extended x) (the_zone x))
    with (designator (zone_extended x) (Some (the_zone x))).
  rewrite fromisoformat_text by assumption.
  rewrite denote_read, Hin. reflexivity.
Qed.

(** The validator on the text of a representable timestamp *)
Lemma convert_render x :
  representable x = true ->
  convert_to_datetime (JStr (render x)) = Return (denote x).
Proof.
  intros Hr. unfold convert_to_datetime. rewrite replace_render.
  rewrite fromisoformat_render, denote_numeric; [reflexivity|].
  unfold representable in *. apply andb_true_iff in Hr. destruct Hr as [Hw Hin].
  rewrite denote_numeric, Hin, (well_formed_numeric x Hw). reflexivity.
Qed.

(** *** What [isoformat] writes *)

Lemma replace_isoformat by_ d : replace "Z" by_ (isoformat d) = isoformat d.
Proof.
  unfold isoformat, dot_micro, format_offset.
  rewrite !replace_app, !replace_zfill.
  repeat (apply f_equal2; [reflexivity|]).
  apply f_equal2.
  - destruct (microsecond d =? 0); [reflexivity|].
    rewrite replace_app, replace_zfill. reflexivity.
  - destruct (tzinfo d) as [off|]; [|reflexivity].
    cbv zeta. rewrite !replace_app, !replace_zfill.
    apply f_equal2; [destruct (off <? 0); reflexivity|].
    repeat (apply f_equal2; [reflexivity|]).
    destruct (_ && _); [reflexivity|].
    rewrite !replace_app, !replace_zfill. unfold dot_micro.
    destruct (Z.abs off mod 1000000 =? 0); [reflexivity|].
    rewrite replace_app, replace_zfill. reflexivity.
Qed.

(** The hours and minutes of an offset of whole minutes *)
Lemma offset_parts a :
  0 <= a -> a mod 60000000 = 0 ->
  (a / 3600000000 * 3600 + a mod 3600000000 / 60000000 * 60) * 1000000 = a /\
  a mod 60000000 / 1000000 = 0 /\ a mod 1000000 = 0 /\
  0 <= a mod 3600000000 / 60000000 <= 59.
Proof.
  intros Ha Hm.
  pose proof (Z.div_mod a 60000000 ltac:(lia)) as Hq.
  set (q := a / 60000000) in *.
  assert (E : a = q * 60000000) by lia.
  assert (H1 : a mod 1000000 = 0).
  { rewrite E. replace (q * 60000000) with (q * 60 * 1000000) by lia.
    apply Z.mod_mul; lia. }
  pose proof (Z.div_mod a 3600000000 ltac:(lia)) as Hh.
  pose proof (Z.mod_pos_bound a 3600000000 ltac:(lia)) as Hb.
  assert (H2 : (a mod 3600000000) mod 60000000 = 0).
  { replace 3600000000 with (60000000 * 60) by lia.
    rewrite Z.rem_mul_r by lia. rewrite Hm, Z.add_0_l.
    rewrite Z.mul_comm. apply Z.mod_mul; lia. }
  pose proof (Z.div_mod (a mod 3600000000) 60000000 ltac:(lia)) as Hmm.
  rewrite H2 in Hmm.
  repeat split; try lia.
  rewrite Hm. reflexivity.
Qed.

Lemma abs_whole_minutes off : off mod 60000000 = 0 -> Z.abs off mod 60000000 = 0.
Proof.
  intros H. destruct (Z.abs_spec off) as [[_ ->]|[_ ->]]; [exact H|].
  apply Z.mod_opp_l_z; [lia | exact H].
Qed.

Lemma format_offset_written d :
  whole_minutes d = true -> format_offset (tzinfo d) = designator true (snd (written d)).
Proof.
  unfold whole_minutes, written. cbn [snd].
  destruct (tzinfo d) as [off|]; [|reflexivity].
  intros Hw. apply Z.eqb_eq in Hw. apply abs_whole_minutes in Hw.
  cbn [designator render_zone format_offset mark].
  destruct (offset_parts (Z.abs off) (Z.abs_nonneg off) Hw) as (_ & -> & -> & _).
  cbn [Z.eqb andb]. unfold sign. destruct (off <? 0); norm; reflexivity.
Qed.

Lemma isoformat_written d :
  whole_minutes d = true ->
  isoformat d =
  (let '(dt, tm, z) := written d in
   render_date true dt ++ "T" ++ render_time true tm ++ designator true z)%string.
Proof.
  intros Hw. unfold isoformat. rewrite (format_offset_written d Hw).
  unfold written, dot_micro. cbn [snd render_date render_time mark].
  destruct (microsecond d =? 0); cbn [render_fraction]; norm; reflexivity.
Qed.

Lemma read_written d :
  whole_minutes d = true ->
  (let '(dt, tm, z) := written d in read dt tm z) = d.
Proof.
  intros Hw. unfold written, read, day_of.
  destruct d as [y m dd h mi s us tz]; cbn [year month day hour minute second microsecond tzinfo] in *.
  cbn [hour_of minute_of second_of].
  f_equal.
  - destruct (Z.eqb_spec us 0) as [E|E]; cbn [microsecond_of micros]; [congruence|].
    cbn. lia.
  - unfold whole_minutes in Hw; cbn [tzinfo] in Hw.
    destruct tz as [off|]; [|reflexivity].
    apply Z.eqb_eq in Hw. f_equal. unfold offset, seconds_east.
    pose proof (abs_whole_minutes off Hw) as Ha.
    destruct (offset_parts (Z.abs off) (Z.abs_nonneg off) Ha) as (Hs & _).
    destruct (Z.ltb_spec off 0); lia.
Qed.

(** [fromisoformat] reads back what [isoformat] writes of a value in
    range whose offset is a whole number of minutes. *)
Lemma fromisoformat_isoformat d :
  in_range d = true -> whole_minutes d = true ->
  fromisoformat (isoformat d) = Some d.
Proof.
  intros Hin Hw. rewrite (isoformat_written d Hw).
  pose proof (read_written d Hw) as Hread.
  unfold written in *.
  rewrite fromisoformat_text.
  - rewrite Hread, Hin. reflexivity.
  - unfold in_range in Hin. rewrite !andb_true_iff, !Z.leb_le in Hin.
    cbn [date_ok]. rewrite !andb_true_iff, !between_true.
    pose proof (days_in_month_le (year d) (month d)). intuition lia.
  - unfold in_range in Hin. rewrite !andb_true_iff, !Z.leb_le in Hin.
    cbn [time_ok]. rewrite !andb_true_iff, !between_true.
    repeat split; try (intuition lia).
    destruct (Z.eqb_spec (microsecond d) 0); [reflexivity|].
    rewrite !andb_true_iff. repeat split; [apply Z.leb_le | apply Z.ltb_lt; cbn]; intuition lia.
  - unfold whole_minutes in Hw. unfold in_range in Hin.
    destruct (tzinfo d) as [off|]; [|reflexivity].
    apply Z.eqb_eq in Hw.
    rewrite !andb_true_iff, !Z.ltb_lt in Hin.
    pose proof (abs_whole_minutes off Hw) as Ha.
    destruct (offset_parts (Z.abs off) (Z.abs_nonneg off) Ha) as (Hs & _ & _ & Hm).
    cbn [zone_ok]. rewrite andb_true_iff, !between_true.
    unfold day_us in Hin.
    assert (0 <= Z.abs off / 3600000000) by (apply Z.div_pos; lia).
    split; lia.
Qed.

(** The validator reads back what [isoformat] writes. *)
Lemma validate_written d :
  in_range d = true -> whole_minutes d = true ->
  convert_to_datetime (JStr (isoformat d)) = Return d.
Proof.
  intros Hin Hw. unfold convert_to_datetime.
  rewrite replace_isoformat, fromisoformat_isoformat by assumption. reflexivity.
Qed.

Lemma whole_minutes_denote x : whole_minutes (denote x) = true.
Proof.
  unfold whole_minutes, denote. destruct (day_of (the_date x)) as [[y m] d].
  cbn [tzinfo]. apply Z.eqb_eq. unfold offset, seconds_east.
  destruct (the_zone x) as [|negative hh|negative hh mm]; [reflexivity| |];
    destruct negative.
  - replace (-1 * (hh * 3600) * 1000000) with (- hh * 60 * 60000000) by lia.
    apply Z.mod_mul; lia.
  - replace (1 * (hh * 3600) * 1000000) with (hh * 60 * 60000000) by lia.
    apply Z.mod_mul; lia.
  - replace (-1 * (hh * 3600 + mm * 60) * 1000000) with (- (hh * 60 + mm) * 60000000) by lia.
    apply Z.mod_mul; lia.
  - replace (1 * (hh * 3600 + mm * 60) * 1000000) with ((hh * 60 + mm) * 60000000) by lia.
    apply Z.mod_mul; lia.
Qed.

Lemma fromisoformat_in_range s d : fromisoformat s = Some d -> in_range d = true.
Proof.
  unfold fromisoformat.
  destruct (_ <? 7); [discriminate|].
  destruct (parse_isoformat_date _ _) as [[[y m] dd]|]; [|discriminate].
  destruct (if _ <? _ then _ else _) as [[[fields us] tz]|]; [|discriminate].
  cbv zeta. destruct (in_range _) eqn:E; [|discriminate].
  intros H; inversion H; subst; exact E.
Qed.

End TimestampFacts.

(** C8, counter-example.  ISO 8601 texts with a zone that the validator
    does not read as what they denote.  The last second of 2016 was a
    leap second, and its text is rejected, as are a year 0000, the
    midnight written as hour 24, an ordinal date, and the last day of
    the last week of the year 9999, which is 2 January 10000: [datetime]
    has none of these.  A decimal fraction of the minute or of the hour
    is read as a fraction of a second. *)
Lemma leap_second_is_rejected :
  Sample.leap_second = Timestamp.render Sample.last_second /\
  convert_to_datetime (JStr Sample.leap_second) =
  Raise (ValueError [Lit "Invalid date format: "; Val (JStr Sample.leap_second)]) /\
  convert_to_datetime (JStr "0000-01-01T00:00:00Z") =
  Raise (ValueError [Lit "Invalid date format: "; Val (JStr "0000-01-01T00:00:00Z")]) /\
  convert_to_datetime (JStr "2024-05-06T24:00:00Z") =
  Raise (ValueError [Lit "Invalid date format: "; Val (JStr "2024-05-06T24:00:00Z")]) /\
  convert_to_datetime (JStr "2024-127T10:20:30Z") =
  Raise (ValueError [Lit "Invalid date format: "; Val (JStr "2024-127T10:20:30Z")]) /\
  convert_to_datetime (JStr "9999-W52-7T10:20:30Z") =
  Raise (ValueError [Lit "Invalid date format: "; Val (JStr "9999-W52-7T10:20:30Z")]) /\
  convert_to_datetime (JStr "2024-05-06T10:20.5Z") =
  Return (mkDatetime 2024 5 6 10 20 0 500000 (Some 0%Z)) /\
  convert_to_datetime (JStr "2024-05-06T10.5Z") =
  Return (mkDatetime 2024 5 6 10 0 0 500000 (Some 0%Z)).
Proof. vm_compute. repeat split; reflexivity. Qed.

(** C8, amended.  For every ISO 8601 date and time text with a zone
    designator -- a calendar date or a week date, the time to the hour,
    the minute or the second, the second with a decimal fraction of any
    length after a point or a comma, each part in the basic or in the
    extended format, and [Z], [+hh], [+hhmm] or [+hh:mm] as the zone --
    that denotes a value [datetime] can hold (a day of the years 1 to
    9999, an hour below 24, a minute and a second below 60, an offset
    below one day), the validator returns the timezone-aware value that
    the text denotes, the fraction cut to microseconds; that value has an
    absolute instant, and validating its re-serialized text returns the
    same value, hence the same instant.  For every string that
    [fromisoformat] cannot parse after the [Z] replacement, the validator
    raises a [ValueError] that names the raw value. *)
Theorem timestamp_round_trip (x : Timestamp.t) :
  Timestamp.representable x = true ->
  let d := Timestamp.denote x in
  convert_to_datetime (JStr (Timestamp.render x)) = Return d /\
  aware d = true /\
  (exists i, instant d = Some i) /\
  (exists d', convert_to_datetime (JStr (isoformat d)) = Return d' /\
              d' = d /\ instant d' = instant d) /\
  (forall s, fromisoformat (replace "Z" "+00:00" s) = None ->
             convert_to_datetime (JStr s) =
             Raise (ValueError [Lit "Invalid date format: "; Val (JStr s)])).
Proof.
  intros Hr d.
  assert (Hin : in_range d = true)
    by (unfold Timestamp.representable in Hr; apply andb_true_iff in Hr; apply Hr).
  assert (Haw : aware d = true).
  { unfold d, Timestamp.denote. destruct (Timestamp.day_of _) as [[y m] dd]. reflexivity. }
  split; [apply convert_render; exact Hr|].
  split; [exact Haw|]. split; [|split].
  - unfold instant. unfold aware in Haw. destruct (tzinfo d); [eexists; reflexivity|discriminate].
  - exists d. split; [|split; reflexivity].
    apply validate_written; [exact Hin | apply whole_minutes_denote].
  - intros s Hs. unfold convert_to_datetime. rewrite Hs. reflexivity.
Qed.

Lemma timestamp_round_trip_witness :
  let d := Timestamp.denote Sample.half_past in
  convert_to_datetime (JStr "2024-W19-1T102030,1234567+0530") = Return d /\
  aware d = true /\
  (exists i, instant d = Some i) /\
  (exists d', convert_to_datetime (JStr "2024-05-06T10:20:30.123456+05:30") = Return d' /\
              d' = d /\ instant d' = instant d) /\
  (forall s, fromisoformat (replace "Z" "+00:00" s) = None ->
             convert_to_datetime (JStr s) =
             Raise (ValueError [Lit "Invalid date format: "; Val (JStr s)])).
Proof.
  apply (timestamp_round_trip Sample.half_past). reflexivity.
Defined.

(** A timestamp that cannot be parsed is reported by the constructor
    under the name of its field, with the raw value. *)
Lemma unparsable_createdOn_is_reported c env kw s :
  lookup kw "createdOn" = Some (JStr s) ->
  fromisoformat (replace "Z" "+00:00" s) = None ->
  (forall v, lookup kw "modifiedOn" = Some v -> exists m, v = JStr m) ->
  exists errors,
    construct c env kw = Raise (ValidationError errors) /\
    In ("createdOn", [Lit "Value error, "; Lit "Invalid date format: "; Val (JStr s)])
       errors.
Proof.
  intros Hc Hs Hm.
  assert (Hv : convert_to_datetime (JStr s) =
               Raise (ValueError [Lit "Invalid date format: "; Val (JStr s)]))
    by (unfold convert_to_datetime; rewrite Hs; reflexivity).
  unfold construct. rewrite Hc.
  cbn [required]. rewrite Hv.
  cbn [validated aborted accepted errors_of].
  assert (Ha : aborted (required (lookup kw "modifiedOn")
                          (fun v => validated (convert_to_datetime v))) = None).
  { destruct (lookup kw "modifiedOn") as [v|] eqn:Hl; [|reflexivity].
    destruct (Hm v eq_refl) as [m ->]. cbn.
    destruct (fromisoformat (replace "Z" "+00:00" m)); reflexivity. }
  rewrite Ha.
  eexists. split.
  - destruct (accepted (id_field env kw)); [|reflexivity].
    destruct (accepted (required (lookup kw "userId") str_field)); reflexivity.
  - rewrite !in_app_iff. right; right; left. left; reflexivity.
Qed.

(* ===================================================================== *)
(** ** The store as a whole *)
(* ===================================================================== *)

(** The three things a call of [add_entry] can do to the journal: nothing,
    append the entry, or append the entry and its interaction.  Only the
    second can end in a raise. *)
Lemma add_entry_effect env ed r s :
  exists records,
    add_entry env ed r s = (Return None, logged s records) \/
    (exists e o,
       add_entry env ed r s =
       (o, stored s (mkJournal (append (entries (self s)) e) (interactions (self s)))
                  records) /\
       (o = Return (Some e) \/ o = Raise (KeyError (JStr "prompt")))) \/
    (exists e i,
       add_entry env ed r s =
       (Return (Some e),
        stored s (mkJournal (append (entries (self s)) e)
                            (append (interactions (self s)) i)) records)).
Proof.
  destruct (fst (_create_entry env (payload_of env ed) (fresh (self s))))
    as [[e0|]|x] eqn:Hf.
  - destruct (serializable e0) eqn:Hser;
      [|destruct (add_entry_undumped env ed r s e0 Hf Hser) as (records & y0 & Ha);
        eexists; left; exact Ha].
    destruct (add_entry_created env ed r s e0 Hf Hser) as [records Ha].
    exists records. rewrite Ha; cbn zeta.
    destruct (supplied r) as [response|].
    + destruct (str_lookup (utterance e0) "prompt") as [prompt|].
      * right; right. eexists; eexists; reflexivity.
      * right; left. exists e0; eexists. split; [reflexivity | right; reflexivity].
    + right; left. exists e0; eexists. split; [reflexivity | left; reflexivity].
  - destruct (add_entry_rejected env ed r s Hf) as [records Ha].
    exists records. left; exact Ha.
  - eexists. left. apply (add_entry_failed env ed r s x Hf).
Qed.

Lemma within_capacity_step env ed r s N :
  within_capacity (self s) N ->
  within_capacity (self (snd (add_entry env ed r s))) N.
Proof.
  intros (He & Hi & Hie & HeN).
  destruct (add_entry_effect env ed r s)
    as [records [H | [(e & o & H & _) | (e & i & H)]]];
    rewrite H; cbn [snd self logged stored entries interactions];
    unfold within_capacity; cbn [entries interactions];
    rewrite ?maxlen_append, ?size_append, ?He, ?Hi.
  - repeat split; assumption.
  - destruct (Nat.ltb_spec (size (entries (self s))) N); repeat split; lia.
  - destruct (Nat.ltb_spec (size (entries (self s))) N);
      destruct (Nat.ltb_spec (size (interactions (self s))) N); repeat split; lia.
Qed.

Lemma run_calls_within_capacity calls N : forall s,
  within_capacity (self s) N ->
  within_capacity (self (snd (run_calls calls s))) N.
Proof.
  induction calls as [|c calls IH]; intros s H; cbn [run_calls]; [exact H|].
  pose proof (within_capacity_step (call_env c) (call_data c) (call_response c) s N H)
    as H1.
  destruct (add_entry (call_env c) (call_data c) (call_response c) s) as [r s1].
  specialize (IH s1 H1). destruct (run_calls calls s1) as [rs s2]. exact IH.
Qed.

Lemma init_journal N j :
  Journal.__init__ (Z.of_nat N) = Return j ->
  j = mkJournal (mkDeque N []) (mkDeque N []).
Proof.
  unfold Journal.__init__, Deque.new. intros H.
  destruct (Z.ltb_spec (Z.of_nat N) 0); [lia|].
  cbn in H. rewrite Nat2Z.id in H. inversion H; reflexivity.
Qed.

(** X1.  Whatever calls of [add_entry] a journal of capacity [N] has
    taken, returned, rejected or raised, both logs still have capacity
    [N], the entries log holds at most [N] items and the interactions log
    is never longer than the entries log. *)
Theorem logs_stay_within_capacity (N : nat) (j : Journal.t) (calls : list Call) :
  Journal.__init__ (Z.of_nat N) = Return j ->
  within_capacity (self (snd (run_calls calls (fresh j)))) N.
Proof.
  intros H. apply init_journal in H. subst j.
  apply run_calls_within_capacity.
  unfold within_capacity, size; cbn. repeat split; lia.
Qed.

Lemma logs_stay_within_capacity_witness :
  within_capacity (self (snd (run_calls Fixture.mixed_calls (fresh (Sample.journal 2))))) 2.
Proof.
  apply (logs_stay_within_capacity 2 (Sample.journal 2) Fixture.mixed_calls).
  reflexivity.
Defined.

(** X2.  A journal of capacity zero never stores anything: after any
    calls of [add_entry], also those that return their entry, the journal
    is what the constructor returned. *)
Theorem zero_capacity_stores_nothing (j : Journal.t) (calls : list Call) :
  Journal.__init__ 0 = Return j ->
  self (snd (run_calls calls (fresh j))) = j /\
  last_entry (self (snd (run_calls calls (fresh j)))) = None /\
  last_interaction (self (snd (run_calls calls (fresh j)))) = None.
Proof.
  intros H. apply (init_journal 0) in H. subst j.
  assert (Hw : within_capacity
                 (self (snd (run_calls calls
                               (fresh (mkJournal (mkDeque 0 []) (mkDeque 0 []))))))
                 0).
  { apply run_calls_within_capacity. unfold within_capacity, size; cbn.
    repeat split; lia. }
  destruct (self (snd (run_calls calls _))) as [[me ie] [mi ii]].
  unfold within_capacity, size in Hw; cbn in Hw.
  destruct Hw as (-> & -> & Hi & He).
  destruct ie; [|cbn in He; lia]. destruct ii; [|cbn in Hi; lia].
  repeat split.
Qed.

Lemma zero_capacity_stores_nothing_witness :
  self (snd (run_calls Sample.three_calls (fresh (Sample.journal 0)))) = Sample.journal 0 /\
  last_entry (self (snd (run_calls Sample.three_calls (fresh (Sample.journal 0))))) = None /\
  last_interaction (self (snd (run_calls Sample.three_calls (fresh (Sample.journal 0))))) =
  None.
Proof.
  apply (zero_capacity_stores_nothing (Sample.journal 0) Sample.three_calls).
  reflexivity.
Defined.

(** When the factory returns no entry it has logged the error last. *)
Lemma _create_entry_none env d s :
  fst (_create_entry env d s) = Return None ->
  exists records message,
    _create_entry env d s = (Return None, logged s (records ++ [(ERROR, message)])).
Proof.
  unfold _create_entry. run.
  destruct (entry_type_mapping_get (dict_get d "type" JNull)) as [[c|]|e]; cbn;
    try discriminate.
  destruct (debug env); cbn; destruct (construct c env d); cbn; try discriminate;
    intros _.
  - eexists [_]; eexists. rewrite <- app_assoc. reflexivity.
  - exists []; eexists. reflexivity.
Qed.

(** X3.  A call of [add_entry] that returns no entry has changed neither
    log of the journal and written no file, and the last record it logged
    is an error. *)
Theorem failed_insertion_changes_nothing env ed r s s' :
  add_entry env ed r s = (Return None, s') ->
  self s' = self s /\ disk s' = disk s /\
  exists records message, log s' = log s ++ records ++ [(ERROR, message)].
Proof.
  intros H.
  destruct (fst (_create_entry env (payload_of env ed) (fresh (self s))))
    as [[e0|]|x] eqn:Hf.
  - destruct (serializable e0) eqn:Hser.
    + destruct (add_entry_created env ed r s e0 Hf Hser) as [records Ha].
      rewrite Ha in H; cbn zeta in H.
      destruct (supplied r); [destruct (str_lookup (utterance e0) "prompt")|];
        discriminate.
    + destruct (add_entry_undumped env ed r s e0 Hf Hser) as (records & y0 & Ha).
      rewrite Ha in H. inversion H; subst s'; cbn. repeat split. eauto.
  - destruct (_create_entry_frame env (payload_of env ed) s) as [records Hc].
    rewrite Hf in Hc.
    assert (Hn : fst (_create_entry env (payload_of env ed) s) = Return None)
      by (rewrite Hc; reflexivity).
    destruct (_create_entry_none _ _ _ Hn) as (records' & message & Hc').
    unfold add_entry in H. fold (payload_of env ed) in H.
    unfold try_ at 1, bind at 1 in H. rewrite Hc' in H. run.
    inversion H; subst s'; cbn. repeat split. eauto.
  - rewrite (add_entry_failed env ed r s x Hf) in H. inversion H; subst s'; cbn.
    repeat split. exists []; eexists; reflexivity.
Qed.

Lemma failed_insertion_changes_nothing_witness :
  let s := fresh (Sample.journal 2) in
  let s' := snd (add_entry Sample.env (FromDict Fixture.anonymous) (Some "ok") s) in
  self s' = self s /\ disk s' = disk s /\
  exists records message, log s' = log s ++ records ++ [(ERROR, message)].
Proof.
  apply (failed_insertion_changes_nothing Sample.env (FromDict Fixture.anonymous)
           (Some "ok") (fresh (Sample.journal 2))).
  vm_compute; reflexivity.
Defined.

(* ===================================================================== *)
(** ** Looking up what was stored *)
(* ===================================================================== *)

Section LookupFacts.
Context {A : Type}.
Implicit Types (d : deque A) (x : A) (l : list A).

(** In a deque of positive capacity the appended item is the last one,
    and what precedes it was in the deque before. *)
Lemma append_last d x :
  (0 < maxlen d)%nat ->
  exists front, items (append d x) = front ++ [x] /\ incl front (items d).
Proof.
  intros Hm. unfold append; cbn [items maxlen].
  destruct (Nat.ltb_spec (maxlen d) (length (items d ++ [x]))) as [H|H].
  - destruct (items d) as [|a l] eqn:Hl.
    + cbn in H. lia.
    + exists l. cbn. split; [reflexivity | apply incl_tl, incl_refl].
  - exists (items d). split; [reflexivity | apply incl_refl].
Qed.

Lemma last_snoc l x : last (map Some (l ++ [x])) None = Some x.
Proof.
  induction l as [|a l IH]; [reflexivity|].
  cbn [app map]. destruct (map Some (l ++ [x])) as [|o t] eqn:E.
  - destruct l; discriminate.
  - change (last (Some a :: o :: t) None) with (last (o :: t) None). exact IH.
Qed.

Lemma last_nth l :
  last (map Some l) None = nth_error l (length l - 1).
Proof.
  induction l as [|a l IH]; [reflexivity|].
  destruct l as [|b l]; [reflexivity|].
  change (last (map Some (a :: b :: l)) None) with (last (map Some (b :: l)) None).
  rewrite IH. cbn [length].
  replace (S (S (length l)) - 1)%nat with (S (S (length l) - 1)) by lia.
  reflexivity.
Qed.

Lemma find_first (p : A -> bool) l :
  match find p l with
  | Some x =>
      exists before after,
        l = before ++ x :: after /\ p x = true /\
        Forall (fun y => p y = false) before
  | None => Forall (fun y => p y = false) l
  end.
Proof.
  induction l as [|a l IH]; cbn [find]; [constructor|].
  destruct (p a) eqn:Ha.
  - exists [], l. repeat split; [exact Ha | constructor].
  - destruct (find p l) as [x|].
    + destruct IH as (before & after & -> & Hx & Hb).
      exists (a :: before), after. repeat split; [exact Hx | constructor; assumption].
    + constructor; assumption.
Qed.

Lemma find_snoc (p : A -> bool) l x :
  p x = true -> exists y, find p (l ++ [x]) = Some y /\ p y = true /\
                          (Forall (fun z => p z = false) l -> y = x).
Proof.
  intros Hx. induction l as [|a l IH]; cbn [app find].
  - rewrite Hx. exists x. repeat split; assumption.
  - destruct (p a) eqn:Ha.
    + exists a. repeat split; [exact Ha|]. intros H. inversion H; congruence.
    + destruct IH as (y & Hf & Hy & Hu). exists y. repeat split; try assumption.
      intros H. inversion H; auto.
Qed.

End LookupFacts.

(** X4.  After a call of [add_entry] that returned its entry on a journal
    of positive capacity, the entry is the last one and sits at the last
    index, and the lookup by its id finds an entry with that id: the entry
    itself, unless an older entry with the same id is still in the log. *)
Theorem added_entry_is_found env ed r s e s' :
  add_entry env ed r s = (Return (Some e), s') ->
  (0 < maxlen (entries (self s)))%nat ->
  last_entry (self s') = Some e /\
  get_entry_by_index (self s') (Z.of_nat (length (get_entries (self s'))) - 1) = Some e /\
  (exists e', get_entry_by_id (self s') (id e) = Some e' /\ id e' = id e) /\
  ((forall x, In x (get_entries (self s)) -> id x <> id e) ->
   get_entry_by_id (self s') (id e) = Some e).
Proof.
  intros H Hm. destruct (add_entry_returned _ _ _ _ _ _ H) as [He _].
  destruct (append_last (entries (self s)) e Hm) as (front & Hf & Hin).
  rewrite <- He in Hf.
  unfold last_entry, get_entry_by_index, get_entry_by_id, get_entries. rewrite Hf.
  split; [apply last_snoc|]. split.
  - rewrite length_app; cbn [length].
    destruct (Z.leb_spec 0 (Z.of_nat (length front + 1) - 1)); [|lia].
    destruct (Z.ltb_spec (Z.of_nat (length front + 1) - 1)
                (Z.of_nat (length front + 1))); [|lia].
    cbn [andb].
    replace (Z.to_nat (Z.of_nat (length front + 1) - 1)) with (length front) by lia.
    rewrite nth_error_app2, Nat.sub_diag by lia. reflexivity.
  - destruct (find_snoc (fun x => String.eqb (id x) (id e)) front e (String.eqb_refl _))
      as (y & Hy & Hp & Hu).
    split.
    + exists y. split; [exact Hy | apply String.eqb_eq; exact Hp].
    + intros Hnew. rewrite Hy. f_equal. apply Hu.
      apply Forall_forall. intros x Hx. apply String.eqb_neq.
      apply Hnew. apply Hin. exact Hx.
Qed.

Lemma added_entry_is_found_witness :
  let s := fresh (Sample.journal 1) in
  let s' := Sample.full in
  let e := Sample.noted "a" in
  last_entry (self s') = Some e /\
  get_entry_by_index (self s') (Z.of_nat (length (get_entries (self s'))) - 1) = Some e /\
  (exists e', get_entry_by_id (self s') (id e) = Some e' /\ id e' = id e) /\
  ((forall x, In x (get_entries (self s)) -> id x <> id e) ->
   get_entry_by_id (self s') (id e) = Some e).
Proof.
  apply (added_entry_is_found Sample.env (FromDict (Sample.note "a")) (Some "ok")
           (fresh (Sample.journal 1)) (Sample.noted "a") Sample.full).
  - vm_compute; reflexivity.
  - cbn; lia.
Defined.

(** X5.  The lookup by id returns the first entry in log order whose id
    is the one asked for, so that of two entries with the same id the
    older one is found; it returns nothing exactly when no entry has that
    id.  The lookup of an interaction by id does the same on the
    interactions log. *)
Theorem lookup_by_id_finds_first (j : Journal.t) (entry_id : string) :
  match get_entry_by_id j entry_id with
  | Some e =>
      exists before after,
        get_entries j = before ++ e :: after /\ id e = entry_id /\
        Forall (fun x => id x <> entry_id) before
  | None => Forall (fun x => id x <> entry_id) (get_entries j)
  end /\
  match get_interaction_by_id j entry_id with
  | Some i =>
      exists before after,
        get_interactions j = before ++ i :: after /\ interaction_id i = entry_id /\
        Forall (fun x => interaction_id x <> entry_id) before
  | None => Forall (fun x => interaction_id x <> entry_id) (get_interactions j)
  end.
Proof.
  unfold get_entry_by_id, get_entries, get_interaction_by_id, get_interactions.
  split.
  - pose proof (find_first (fun e => String.eqb (id e) entry_id) (items (entries j)))
      as H.
    destruct (find _ (items (entries j))) as [e|].
    + destruct H as (before & after & Hl & He & Hb).
      exists before, after. repeat split; [exact Hl | apply String.eqb_eq; exact He |].
      eapply Forall_impl; [|exact Hb]. intros x Hx. apply String.eqb_neq; exact Hx.
    + eapply Forall_impl; [|exact H]. intros x Hx. apply String.eqb_neq; exact Hx.
  - pose proof (find_first (fun i => String.eqb (interaction_id i) entry_id)
                           (items (interactions j))) as H.
    destruct (find _ (items (interactions j))) as [i|].
    + destruct H as (before & after & Hl & He & Hb).
      exists before, after. repeat split; [exact Hl | apply String.eqb_eq; exact He |].
      eapply Forall_impl; [|exact Hb]. intros x Hx. apply String.eqb_neq; exact Hx.
    + eapply Forall_impl; [|exact H]. intros x Hx. apply String.eqb_neq; exact Hx.
Qed.

(** X6.  The lookup by index returns nothing for a negative index and for
    an index at or past the length of the log, and the item at that
    position of the snapshot otherwise; the last entry is the one at the
    last index, nothing for an empty log. *)
Theorem lookup_by_index_is_bounded (j : Journal.t) (index : Z) :
  (get_entry_by_index j index = None <->
   (index < 0 \/ Z.of_nat (length (get_entries j)) <= index)%Z) /\
  ((0 <= index < Z.of_nat (length (get_entries j)))%Z ->
   get_entry_by_index j index = nth_error (get_entries j) (Z.to_nat index)) /\
  last_entry j = get_entry_by_index j (Z.of_nat (length (get_entries j)) - 1).
Proof.
  unfold get_entry_by_index, last_entry, get_entries.
  set (l := items (entries j)).
  split; [|split].
  - destruct (Z.leb_spec 0 index) as [Hlo|Hlo];
      destruct (Z.ltb_spec index (Z.of_nat (length l))) as [Hhi|Hhi];
      cbn [andb]; split; intros H; try reflexivity; try lia.
    apply nth_error_None in H. lia.
  - intros [H0 H1].
    destruct (Z.leb_spec 0 index); [|lia].
    destruct (Z.ltb_spec index (Z.of_nat (length l))); [|lia]. reflexivity.
  - rewrite last_nth. destruct l as [|a l']; [reflexivity|].
    destruct (Z.leb_spec 0 (Z.of_nat (length (a :: l')) - 1)); [|cbn [length] in *; lia].
    destruct (Z.ltb_spec (Z.of_nat (length (a :: l')) - 1)
                (Z.of_nat (length (a :: l')))); [|lia].
    cbn [andb]. f_equal. lia.
Qed.

Lemma lookup_by_index_is_bounded_witness :
  (get_entry_by_index (self Sample.full) (-1) = None <->
   (-1 < 0 \/ Z.of_nat (length (get_entries (self Sample.full))) <= -1)%Z) /\
  ((0 <= -1 < Z.of_nat (length (get_entries (self Sample.full))))%Z ->
   get_entry_by_index (self Sample.full) (-1) =
   nth_error (get_entries (self Sample.full)) (Z.to_nat (-1))) /\
  last_entry (self Sample.full) =
  get_entry_by_index (self Sample.full)
    (Z.of_nat (length (get_entries (self Sample.full))) - 1).
Proof. exact (lookup_by_index_is_bounded (self Sample.full) (-1)). Defined.

(** X7.  After a call of [add_entry] with a non-empty response that
    returned its entry, on a journal of positive capacity, the last
    interaction is the one derived from the entry: its id, its creation
    time, its prompt and the response; the lookup by the id of the entry
    finds an interaction with that id. *)
Theorem added_interaction_is_found env ed r s e s' response :
  add_entry env ed r s = (Return (Some e), s') ->
  supplied r = Some response ->
  (0 < maxlen (interactions (self s)))%nat ->
  exists prompt,
    str_lookup (utterance e) "prompt" = Some prompt /\
    last_interaction (self s') =
    Some (mkInteraction (id e) (createdOn e) prompt response) /\
    get_interaction_by_index (self s')
      (Z.of_nat (length (get_interactions (self s'))) - 1) =
    Some (mkInteraction (id e) (createdOn e) prompt response) /\
    exists i, get_interaction_by_id (self s') (id e) = Some i /\
              interaction_id i = id e.
Proof.
  intros H Hr Hm. destruct (add_entry_returned _ _ _ _ _ _ H) as [_ Hi].
  rewrite Hr in Hi. destruct Hi as (prompt & Hp & Hi).
  exists prompt. split; [exact Hp|].
  set (i := mkInteraction (id e) (createdOn e) prompt response) in *.
  destruct (append_last (interactions (self s)) i Hm) as (front & Hf & _).
  rewrite <- Hi in Hf.
  unfold last_interaction, get_interaction_by_index, get_interaction_by_id,
    get_interactions.
  rewrite Hf. split; [apply last_snoc|]. split.
  - rewrite length_app; cbn [length].
    destruct (Z.leb_spec 0 (Z.of_nat (length front + 1) - 1)); [|lia].
    destruct (Z.ltb_spec (Z.of_nat (length front + 1) - 1)
                (Z.of_nat (length front + 1))); [|lia].
    cbn [andb].
    replace (Z.to_nat (Z.of_nat (length front + 1) - 1)) with (length front) by lia.
    rewrite nth_error_app2, Nat.sub_diag by lia. reflexivity.
  - destruct (find_snoc (fun x => String.eqb (interaction_id x) (id e)) front i
                (String.eqb_refl _)) as (y & Hy & Hq & _).
    exists y. split; [exact Hy | apply String.eqb_eq; exact Hq].
Qed.

Lemma added_interaction_is_found_witness :
  exists prompt,
    str_lookup (utterance (Sample.noted "a")) "prompt" = Some prompt /\
    last_interaction (self Sample.full) =
    Some (mkInteraction (id (Sample.noted "a")) (createdOn (Sample.noted "a")) prompt "ok") /\
    get_interaction_by_index (self Sample.full)
      (Z.of_nat (length (get_interactions (self Sample.full))) - 1) =
    Some (mkInteraction (id (Sample.noted "a")) (createdOn (Sample.noted "a")) prompt "ok") /\
    exists i, get_interaction_by_id (self Sample.full) (id (Sample.noted "a")) = Some i /\
              interaction_id i = id (Sample.noted "a").
Proof.
  apply (added_interaction_is_found Sample.env (FromDict (Sample.note "a")) (Some "ok")
           (fresh (Sample.journal 1)) (Sample.noted "a") Sample.full "ok").
  - vm_compute; reflexivity.
  - reflexivity.
  - cbn; lia.
Defined.

Lemma lastn_app {A} n (l es : list A) : lastn n (lastn n l ++ es) = lastn n (l ++ es).
Proof.
  revert l. induction es as [|x es IH] using rev_ind; intros l.
  - rewrite !app_nil_r. unfold lastn at 1. rewrite length_lastn.
    replace (Nat.min n (length l) - n)%nat with 0%nat by lia. reflexivity.
  - rewrite !app_assoc. rewrite <- lastn_snoc. rewrite IH.
    rewrite lastn_snoc. reflexivity.
Qed.

Lemma map_lastn {A B} (f : A -> B) n (l : list A) :
  map f (lastn n l) = lastn n (map f l).
Proof. unfold lastn. rewrite length_map, skipn_map. reflexivity. Qed.

Lemma run_calls_interactions calls : forall s es responses,
  fst (run_calls calls s) = map (fun e => Return (Some e)) es ->
  map (fun c => supplied (call_response c)) calls = map Some responses ->
  (size (interactions (self s)) <= maxlen (interactions (self s)))%nat ->
  exists added,
    map interaction_id added = map id es /\
    map date added = map createdOn es /\
    map LAH_action added = responses /\
    maxlen (interactions (self (snd (run_calls calls s)))) =
    maxlen (interactions (self s)) /\
    items (interactions (self (snd (run_calls calls s)))) =
    lastn (maxlen (interactions (self s))) (items (interactions (self s)) ++ added).
Proof.
  induction calls as [|c calls IH]; intros s es responses H Hr Hsz; cbn in *.
  - destruct es; [|discriminate]. destruct responses; [|discriminate].
    exists []. rewrite app_nil_r. repeat split.
    symmetry; apply lastn_all; exact Hsz.
  - destruct (add_entry (call_env c) (call_data c) (call_response c) s)
      as [o s1] eqn:Ha.
    destruct (run_calls calls s1) as [rs s2] eqn:Hrun.
    cbn in *. destruct es as [|e es]; [discriminate|].
    destruct responses as [|response responses]; [discriminate|].
    cbn in H, Hr. inversion H; subst o. inversion Hr as [[Hs Hrest]]. clear H Hr.
    destruct (add_entry_returned _ _ _ _ _ _ Ha) as [_ Hi].
    rewrite Hs in Hi. destruct Hi as (prompt & _ & Hi).
    specialize (IH s1 es responses). rewrite Hrun in IH; cbn in IH.
    rewrite Hi in IH. rewrite maxlen_append in IH.
    destruct IH as (added & Hid & Hd & Hl & Hm & Hit);
      [assumption | assumption | apply size_append_le; assumption |].
    exists (mkInteraction (id e) (createdOn e) prompt response :: added).
    cbn [map interaction_id date LAH_action]. rewrite Hid, Hd, Hl.
    repeat split; [exact Hm|].
    rewrite Hit, items_append by assumption.
    rewrite lastn_app, <- app_assoc. reflexivity.
Qed.

(** X8.  The interactions log is bounded like the entries log: after more
    than [N] calls on a journal of capacity [N], each with a non-empty
    response and each returning its entry, it holds exactly [N]
    interactions, those of the [N] most recent calls in call order, each
    carrying the id and creation time of its entry and the response of its
    call. *)
Theorem interactions_keep_most_recent (N : nat) (j : Journal.t) (calls : list Call)
    (es : list Entry) (responses : list string) :
  Journal.__init__ (Z.of_nat N) = Return j ->
  fst (run_calls calls (fresh j)) = map (fun e => Return (Some e)) es ->
  map (fun c => supplied (call_response c)) calls = map Some responses ->
  (N < length calls)%nat ->
  let j' := self (snd (run_calls calls (fresh j))) in
  length (get_interactions j') = N /\
  map interaction_id (get_interactions j') = lastn N (map id es) /\
  map date (get_interactions j') = lastn N (map createdOn es) /\
  map LAH_action (get_interactions j') = lastn N responses.
Proof.
  intros Hinit Hout Hr Hlen j'.
  apply init_journal in Hinit. subst j.
  destruct (run_calls_interactions calls _ es responses Hout Hr)
    as (added & Hid & Hd & Hl & _ & Hit).
  { cbn; lia. }
  fold j' in Hit. cbn in Hit.
  assert (Hg : get_interactions j' = lastn N added) by exact Hit.
  assert (Hn : length added = length calls).
  { rewrite <- (length_map LAH_action), Hl, <- (length_map Some), <- Hr, length_map.
    reflexivity. }
  rewrite Hg. rewrite !map_lastn, Hid, Hd, Hl.
  split; [rewrite length_lastn; lia | repeat split].
Qed.

Lemma interactions_keep_most_recent_witness :
  let j' := self (snd (run_calls Fixture.answered_calls (fresh (Sample.journal 2)))) in
  length (get_interactions j') = 2%nat /\
  map interaction_id (get_interactions j') = ["B"; "C"] /\
  map date (get_interactions j') = [Sample.stamp; Sample.stamp] /\
  map LAH_action (get_interactions j') = ["two"; "three"].
Proof.
  apply (interactions_keep_most_recent 2 (Sample.journal 2) Fixture.answered_calls
           [Sample.noted "A"; Sample.noted "B"; Sample.noted "C"]
           ["one"; "two"; "three"]).
  - reflexivity.
  - vm_compute; reflexivity.
  - reflexivity.
  - cbn; lia.
Defined.

Lemma _create_entry_debug b env d s1 s2 :
  fst (_create_entry (with_debug b env) d s1) = fst (_create_entry env d s2).
Proof.
  unfold _create_entry. run. cbn [debug with_debug].
  change (construct ?c (with_debug b env) d) with (construct c env d).
  destruct (entry_type_mapping_get (dict_get d "type" JNull)) as [[c|]|e]; cbn;
    try reflexivity.
  destruct b; destruct (debug env); cbn; destruct (construct c env d); reflexivity.
Qed.

(** X9.  The debug flag changes nothing but the log: with the flag set
    either way, a call of [add_entry] returns or raises the same and
    leaves the same journal and the same files. *)
Theorem debug_flag_only_logs (b : bool) env ed r s :
  fst (add_entry (with_debug b env) ed r s) = fst (add_entry env ed r s) /\
  self (snd (add_entry (with_debug b env) ed r s)) = self (snd (add_entry env ed r s)) /\
  disk (snd (add_entry (with_debug b env) ed r s)) = disk (snd (add_entry env ed r s)).
Proof.
  pose proof (_create_entry_debug b env (payload_of env ed) (fresh (self s))
                (fresh (self s))) as Hd.
  change (payload_of env ed) with (payload_of (with_debug b env) ed) in Hd at 1.
  destruct (fst (_create_entry env (payload_of env ed) (fresh (self s))))
    as [[e0|]|x] eqn:Hf.
  - destruct (serializable e0) eqn:Hser.
    + destruct (add_entry_created _ ed r s e0 Hd Hser) as [records' Ha'].
      destruct (add_entry_created _ ed r s e0 Hf Hser) as [records Ha].
      rewrite Ha', Ha; cbn zeta.
      destruct (supplied r); [destruct (str_lookup (utterance e0) "prompt")|];
        repeat split.
    + destruct (add_entry_undumped _ ed r s e0 Hd Hser) as (records' & y' & Ha').
      destruct (add_entry_undumped _ ed r s e0 Hf Hser) as (records & y0 & Ha).
      rewrite Ha', Ha. repeat split.
  - destruct (add_entry_rejected _ ed r s Hd) as [records' Ha'].
    destruct (add_entry_rejected _ ed r s Hf) as [records Ha].
    rewrite Ha', Ha. repeat split.
  - rewrite (add_entry_failed _ ed r s x Hd), (add_entry_failed _ ed r s x Hf).
    repeat split.
Qed.

(* ===================================================================== *)
(** ** Validation of a payload *)
(* ===================================================================== *)

Lemma accepted_required {A} (v : option json) (check : json -> field A) a :
  accepted (required v check) = Some a ->
  exists x, v = Some x /\ check x = Valid a.
Proof.
  destruct v as [x|]; cbn; [|discriminate].
  destruct (check x) eqn:E; cbn; try discriminate.
  intros H; inversion H; subst. exists x. split; [reflexivity | exact E].
Qed.

Lemma str_field_valid v s : str_field v = Valid s -> v = JStr s.
Proof. destruct v; cbn; try discriminate. intros H; inversion H; reflexivity. Qed.

Lemma validated_valid {A} (r : outcome A) a : validated r = Valid a -> r = Return a.
Proof.
  destruct r as [x|e]; cbn.
  - intros H; inversion H; reflexivity.
  - destruct e; discriminate.
Qed.

(** What a constructed entry says about the payload it was built from. *)
Lemma construct_returns c env kw e :
  construct c env kw = Return e ->
  cls e = c /\ id_field env kw = Valid (id e) /\
  lookup kw "userId" = Some (JStr (userId e)) /\
  (exists v, lookup kw "createdOn" = Some v /\
             convert_to_datetime v = Return (createdOn e)) /\
  (exists v, lookup kw "modifiedOn" = Some v /\
             convert_to_datetime v = Return (modifiedOn e)) /\
  (exists v, lookup kw "archived" = Some v /\ bool_field v = Valid (archived e)) /\
  lookup kw "type" = Some (JStr (type e)) /\
  lookup kw "title" = Some (JStr (title e)) /\
  lookup kw "data" = Some (JDict (data e)) /\
  (exists ut, lookup kw "utterance" = Some (JDict ut) /\
              str_values ut = Some (utterance e)).
Proof.
  unfold construct.
  destruct (aborted _); [discriminate|].
  destruct (aborted _); [discriminate|].
  destruct (accepted (id_field env kw)) as [i|] eqn:Hi; [|discriminate].
  destruct (accepted (required (lookup kw "userId") str_field)) as [u|] eqn:Hu;
    [|discriminate].
  destruct (accepted (required (lookup kw "createdOn") _)) as [co|] eqn:Hco;
    [|discriminate].
  destruct (accepted (required (lookup kw "modifiedOn") _)) as [mo|] eqn:Hmo;
    [|discriminate].
  destruct (accepted (required (lookup kw "archived") bool_field)) as [a|] eqn:Ha;
    [|discriminate].
  destruct (accepted (required (lookup kw "type") str_field)) as [t|] eqn:Ht;
    [|discriminate].
  destruct (accepted (required (lookup kw "title") str_field)) as [ti|] eqn:Hti;
    [|discriminate].
  destruct (accepted (required (lookup kw "data") dict_any_field)) as [d|] eqn:Hd;
    [|discriminate].
  destruct (accepted (required (lookup kw "utterance") dict_str_field)) as [ut|] eqn:Hut;
    [|discriminate].
  intros H; inversion H; subst e; cbn.
  apply accepted_required in Hu, Hco, Hmo, Ha, Ht, Hti, Hd, Hut.
  destruct Hu as (x1 & -> & H1). apply str_field_valid in H1. subst x1.
  destruct Hco as (x2 & -> & H2). apply validated_valid in H2.
  destruct Hmo as (x3 & -> & H3). apply validated_valid in H3.
  destruct Ha as (x4 & -> & H4).
  destruct Ht as (x5 & -> & H5). apply str_field_valid in H5. subst x5.
  destruct Hti as (x6 & -> & H6). apply str_field_valid in H6. subst x6.
  destruct Hd as (x7 & -> & H7).
  destruct Hut as (x8 & -> & H8).
  repeat split; eauto.
  - destruct (id_field env kw); cbn in Hi; try discriminate. congruence.
  - destruct x7; cbn in H7; try discriminate. congruence.
  - destruct x8 as [| | | | |ut0]; cbn in H8; try discriminate.
    exists ut0. split; [reflexivity|].
    destruct (str_values ut0); cbn in H8; [congruence | discriminate].
Qed.

Lemma convert_in_range v d : convert_to_datetime v = Return d -> in_range d = true.
Proof.
  destruct v as [| | |s| |]; cbn; try discriminate.
  destruct (fromisoformat _) as [d0|] eqn:E; [|discriminate].
  intros H; inversion H; subst. exact (fromisoformat_in_range _ _ E).
Qed.

(** An entry comes out of the factory only through the constructor of the
    class that its type selects. *)
Lemma _create_entry_some env d s e :
  fst (_create_entry env d s) = Return (Some e) ->
  exists k c,
    lookup d "type" = Some (JStr k) /\ entry_type_mapping k = Some c /\
    construct c env d = Return e.
Proof.
  unfold _create_entry, dict_get. run.
  destruct (lookup d "type") as [[| | |k| |]|]; cbn; try discriminate.
  destruct (entry_type_mapping k) as [c|] eqn:Hk; cbn; [|discriminate].
  destruct (debug env); cbn; destruct (construct c env d) eqn:Hc; cbn;
    try discriminate; intros H; inversion H; subst; eauto.
Qed.

Lemma add_entry_returned_created env ed r s e s' :
  add_entry env ed r s = (Return (Some e), s') ->
  fst (_create_entry env (payload_of env ed) (fresh (self s))) = Return (Some e).
Proof.
  intros H.
  destruct (fst (_create_entry env (payload_of env ed) (fresh (self s))))
    as [[e0|]|x] eqn:Hf.
  - destruct (serializable e0) eqn:Hser;
      [|destruct (add_entry_undumped env ed r s e0 Hf Hser) as (records & y0 & Ha);
        rewrite Ha in H; discriminate].
    destruct (add_entry_created env ed r s e0 Hf Hser) as [records Ha].
    rewrite Ha in H; cbn zeta in H.
    destruct (supplied r); [destruct (str_lookup (utterance e0) "prompt")|];
      inversion H; reflexivity.
  - destruct (add_entry_rejected env ed r s Hf) as [records Ha].
    rewrite Ha in H; discriminate.
  - rewrite (add_entry_failed env ed r s x Hf) in H; discriminate.
Qed.

(** X10.  An entry returned by [add_entry] is of the class that its own
    type selects in the table, carries the user, type, title, data and
    utterance of the payload unchanged, and has timestamps that are the
    validated texts of the payload and lie in the range of [datetime]. *)
Theorem returned_entry_reflects_payload env ed r s e s' :
  add_entry env ed r s = (Return (Some e), s') ->
  let d := payload_of env ed in
  entry_type_mapping (type e) = Some (cls e) /\
  lookup d "type" = Some (JStr (type e)) /\
  lookup d "userId" = Some (JStr (userId e)) /\
  lookup d "title" = Some (JStr (title e)) /\
  lookup d "data" = Some (JDict (data e)) /\
  (exists ut, lookup d "utterance" = Some (JDict ut) /\
              str_values ut = Some (utterance e)) /\
  (exists v, lookup d "createdOn" = Some v /\
             convert_to_datetime v = Return (createdOn e)) /\
  (exists v, lookup d "modifiedOn" = Some v /\
             convert_to_datetime v = Return (modifiedOn e)) /\
  in_range (createdOn e) = true /\ in_range (modifiedOn e) = true.
Proof.
  intros H d. apply add_entry_returned_created in H.
  apply _create_entry_some in H. destruct H as (k & c & Hk & Hc & He).
  apply construct_returns in He.
  destruct He as (Hcls & _ & Hu & Hco & Hmo & _ & Ht & Hti & Hd & Hut).
  fold d in Hk, Hu, Hco, Hmo, Ht, Hti, Hd, Hut.
  assert (k = type e) by congruence. subst k.
  repeat split; try assumption; try congruence.
  - destruct Hco as (v & _ & Hv). exact (convert_in_range _ _ Hv).
  - destruct Hmo as (v & _ & Hv). exact (convert_in_range _ _ Hv).
Qed.

Lemma returned_entry_reflects_payload_witness :
  let e := Sample.noted "a" in
  let d := Sample.note "a" in
  entry_type_mapping (type e) = Some (cls e) /\
  lookup d "type" = Some (JStr (type e)) /\
  lookup d "userId" = Some (JStr (userId e)) /\
  lookup d "title" = Some (JStr (title e)) /\
  lookup d "data" = Some (JDict (data e)) /\
  (exists ut, lookup d "utterance" = Some (JDict ut) /\
              str_values ut = Some (utterance e)) /\
  (exists v, lookup d "createdOn" = Some v /\
             convert_to_datetime v = Return (createdOn e)) /\
  (exists v, lookup d "modifiedOn" = Some v /\
             convert_to_datetime v = Return (modifiedOn e)) /\
  in_range (createdOn e) = true /\ in_range (modifiedOn e) = true.
Proof.
  apply (returned_entry_reflects_payload Sample.env (FromDict (Sample.note "a"))
           (Some "ok") (fresh (Sample.journal 1)) (Sample.noted "a") Sample.full).
  vm_compute; reflexivity.
Defined.

(** X11.  The id of a returned entry is the string under [_id] when the
    payload has that key, else the string under [id] when it has that one,
    and else the uuid4 that the default factory draws. *)
Theorem returned_entry_id env ed r s e s' :
  add_entry env ed r s = (Return (Some e), s') ->
  match lookup (payload_of env ed) "_id" with
  | Some v => v = JStr (id e)
  | None =>
      match lookup (payload_of env ed) "id" with
      | Some v => v = JStr (id e)
      | None => id e = uuid4 env
      end
  end.
Proof.
  intros H. apply add_entry_returned_created in H.
  apply _create_entry_some in H. destruct H as (k & c & _ & _ & He).
  apply construct_returns in He. destruct He as (_ & Hi & _).
  unfold id_field in Hi.
  destruct (lookup (payload_of env ed) "_id") as [v|].
  - apply str_field_valid; exact Hi.
  - destruct (lookup (payload_of env ed) "id") as [v|].
    + apply str_field_valid; exact Hi.
    + inversion Hi; reflexivity.
Qed.

Lemma returned_entry_id_witness :
  match lookup Fixture.unnamed "_id" with
  | Some v => v = JStr (uuid4 Sample.env)
  | None =>
      match lookup Fixture.unnamed "id" with
      | Some v => v = JStr (uuid4 Sample.env)
      | None => uuid4 Sample.env = uuid4 Sample.env
      end
  end.
Proof.
  apply (returned_entry_id Sample.env (FromDict Fixture.unnamed) None
           (fresh (Sample.journal 1))
           (Sample.entry ClsNoteEntry (uuid4 Sample.env) "note" [])
           (snd (add_entry Sample.env (FromDict Fixture.unnamed) None
                           (fresh (Sample.journal 1))))).
  vm_compute; reflexivity.
Defined.

Lemma lookup_skip d1 d2 k v f :
  f <> k -> lookup (d1 ++ (k, v) :: d2) f = lookup (d1 ++ d2) f.
Proof.
  intros Hf. induction d1 as [|[k' v'] d1 IH]; cbn [app lookup].
  - destruct (String.eqb_spec k f); [congruence | reflexivity].
  - destruct (String.eqb k' f); [reflexivity | exact IH].
Qed.

Lemma not_in_field_names k f : ~ In k field_names -> In f field_names -> f <> k.
Proof. intros Hk Hf E; subst; contradiction. Qed.

(** X12.  A key of the payload that is not a field of [Entry] is ignored:
    wherever it stands in the payload and whatever its value, [add_entry]
    does the same with it as without it. *)
Theorem unknown_keys_are_ignored env d1 d2 k v r s :
  ~ In k field_names ->
  add_entry env (FromDict (d1 ++ (k, v) :: d2)) r s =
  add_entry env (FromDict (d1 ++ d2)) r s.
Proof.
  intros Hk.
  assert (Hc : forall c, construct c env (d1 ++ (k, v) :: d2) =
                         construct c env (d1 ++ d2)).
  { intros c. unfold construct, id_field.
    rewrite !(lookup_skip d1 d2 k v "_id"), !(lookup_skip d1 d2 k v "id"),
      !(lookup_skip d1 d2 k v "userId"), !(lookup_skip d1 d2 k v "createdOn"),
      !(lookup_skip d1 d2 k v "modifiedOn"), !(lookup_skip d1 d2 k v "archived"),
      !(lookup_skip d1 d2 k v "type"), !(lookup_skip d1 d2 k v "title"),
      !(lookup_skip d1 d2 k v "data"), !(lookup_skip d1 d2 k v "utterance");
      try reflexivity;
      apply (not_in_field_names k _ Hk); cbn; tauto. }
  assert (He : forall s0, _create_entry env (d1 ++ (k, v) :: d2) s0 =
                          _create_entry env (d1 ++ d2) s0).
  { intros s0. unfold _create_entry, dict_get.
    rewrite (lookup_skip d1 d2 k v "type")
      by (apply (not_in_field_names k _ Hk); cbn; tauto).
    unfold bind, lift.
    destruct (entry_type_mapping_get _) as [[c|]|e]; try reflexivity.
    unfold try_, bind, lift. rewrite Hc. reflexivity. }
  unfold add_entry, try_, bind. rewrite (He s). reflexivity.
Qed.

Lemma unknown_keys_are_ignored_witness :
  add_entry Sample.env
    (FromDict ([("_id", JStr "a")] ++ ("color", JInt 7) :: tl (Sample.note "a")))
    (Some "ok") (fresh (Sample.journal 1)) =
  add_entry Sample.env (FromDict ([("_id", JStr "a")] ++ tl (Sample.note "a")))
    (Some "ok") (fresh (Sample.journal 1)).
Proof.
  apply (unknown_keys_are_ignored Sample.env [("_id", JStr "a")] (tl (Sample.note "a"))
           "color" (JInt 7) (Some "ok") (fresh (Sample.journal 1))).
  cbn. intros H. repeat (destruct H as [H|H]; [discriminate|]). exact H.
Defined.

(** The validator reads back what [isoformat] writes of a UTC clock
    value. *)
Lemma validate_isoformat d :
  utc_now d = true -> convert_to_datetime (JStr (isoformat d)) = Return d.
Proof.
  unfold utc_now. intros H. apply andb_true_iff in H. destruct H as [Hin Htz].
  apply validate_written; [exact Hin|].
  unfold Timestamp.whole_minutes. destruct (tzinfo d) as [off|]; [|reflexivity].
  apply Z.eqb_eq in Htz. subst off. reflexivity.
Qed.

Lemma construct_basic env user_input :
  utc_now (now_created env) = true -> utc_now (now_modified env) = true ->
  construct ClsConversationEntry env (_create_basic_entry env user_input) =
  Return (basic_entry env user_input).
Proof.
  intros Hc Hm. unfold construct, id_field.
  cbn -[isoformat convert_to_datetime].
  rewrite (validate_isoformat _ Hc), (validate_isoformat _ Hm).
  reflexivity.
Qed.

(** X13.  A CLI text always becomes an entry: with a UTC clock,
    [add_entry] on a text returns a conversation entry with the uuid1 as
    its id, the clock readings as its timestamps and the text as its
    prompt, appends it, and appends the interaction when a response came
    with it; nothing is raised or rejected. *)
Theorem text_input_becomes_conversation env user_input r s :
  utc_now (now_created env) = true ->
  utc_now (now_modified env) = true ->
  let e := basic_entry env user_input in
  let s' := snd (add_entry env (FromStr user_input) r s) in
  fst (add_entry env (FromStr user_input) r s) = Return (Some e) /\
  entries (self s') = append (entries (self s)) e /\
  interactions (self s') =
  match supplied r with
  | Some response =>
      append (interactions (self s))
             (mkInteraction (uuid1 env) (now_created env) user_input response)
  | None => interactions (self s)
  end.
Proof.
  intros Hc Hm e s'.
  assert (Hf : fst (_create_entry env (payload_of env (FromStr user_input))
                      (fresh (self s))) = Return (Some e)).
  { cbn [payload_of]. unfold _create_entry.
    change (dict_get (_create_basic_entry env user_input) "type" JNull)
      with (JStr "conversation").
    change (entry_type_mapping_get (JStr "conversation"))
      with (Return (Some ClsConversationEntry)).
    run. rewrite (construct_basic env user_input Hc Hm).
    destruct (debug env); reflexivity. }
  destruct (add_entry_created env (FromStr user_input) r s e Hf eq_refl) as [records Ha].
  unfold s'. rewrite Ha; cbn zeta.
  change (str_lookup (utterance e) "prompt") with (Some user_input).
  destruct (supplied r); repeat split.
Qed.

Lemma text_input_becomes_conversation_witness :
  let e := basic_entry Sample.env "hello" in
  let s := fresh (Sample.journal 2) in
  let s' := snd (add_entry Sample.env (FromStr "hello") (Some "hi there") s) in
  fst (add_entry Sample.env (FromStr "hello") (Some "hi there") s) = Return (Some e) /\
  entries (self s') = append (entries (self s)) e /\
  interactions (self s') =
  match supplied (Some "hi there") with
  | Some response =>
      append (interactions (self s))
             (mkInteraction (uuid1 Sample.env) (now_created Sample.env) "hello" response)
  | None => interactions (self s)
  end.
Proof.
  apply (text_input_becomes_conversation Sample.env "hello" (Some "hi there")
           (fresh (Sample.journal 2))); reflexivity.
Defined.

(** X14.  Whatever the constructor of the selected class raises, the
    module-level factory lets through, while the store catches it: the
    factory of the store logs it with the type, and [add_entry] returns no
    entry and leaves the journal as it was. *)
Theorem construction_failure_is_swallowed env d r s k c x :
  lookup d "type" = Some (JStr k) ->
  entry_type_mapping k = Some c ->
  construct c env d = Raise x ->
  create_entry_model env d = Raise x /\
  add_entry env (FromDict d) r s =
  (Return None,
   logged s ((if debug env
              then [(INFO, [Text "Creating entry of type: "; Value (JStr k)])]
              else []) ++
             [(ERROR, [Text "Error creating entry of type "; Value (JStr k);
                       Text ": "; Exc x])])).
Proof.
  intros Ht Hk Hc. split.
  - unfold create_entry_model, dict_get. rewrite Ht. cbn. rewrite Hk. exact Hc.
  - unfold add_entry, _create_entry, dict_get. rewrite Ht. run. cbn.
    rewrite Hk. cbn. destruct (debug env); cbn; rewrite Hc; cbn.
    + rewrite <- app_assoc. reflexivity.
    + reflexivity.
Qed.

Lemma construction_failure_is_swallowed_witness :
  let x := ValidationError [("userId", [Lit "Field required"])] in
  create_entry_model Sample.env Fixture.anonymous = Raise x /\
  add_entry Sample.env (FromDict Fixture.anonymous) None (fresh (Sample.journal 1)) =
  (Return None,
   logged (fresh (Sample.journal 1))
          ((if debug Sample.env
            then [(INFO, [Text "Creating entry of type: "; Value (JStr "note")])]
            else []) ++
           [(ERROR, [Text "Error creating entry of type "; Value (JStr "note");
                     Text ": "; Exc x])])).
Proof.
  apply (construction_failure_is_swallowed Sample.env Fixture.anonymous None
           (fresh (Sample.journal 1)) "note" ClsNoteEntry); reflexivity.
Defined.

Lemma aborted_timestamp kw f :
  (forall v, lookup kw f = Some v -> exists s, v = JStr s) ->
  aborted (required (lookup kw f) (fun v => validated (convert_to_datetime v))) = None.
Proof.
  intros H. destruct (lookup kw f) as [v|]; [|reflexivity].
  destruct (H v eq_refl) as [s ->]. cbn.
  destruct (fromisoformat _); reflexivity.
Qed.

(** Without an abort the constructor returns the entry or raises the
    [ValidationError] with the rejections of all fields. *)
Lemma construct_no_abort c env kw :
  aborted (required (lookup kw "createdOn")
             (fun v => validated (convert_to_datetime v))) = None ->
  aborted (required (lookup kw "modifiedOn")
             (fun v => validated (convert_to_datetime v))) = None ->
  (exists e, construct c env kw = Return e) \/
  construct c env kw =
  Raise (ValidationError
           (errors_of "_id" (id_field env kw) ++
            errors_of "userId" (required (lookup kw "userId") str_field) ++
            errors_of "createdOn"
              (required (lookup kw "createdOn")
                 (fun v => validated (convert_to_datetime v))) ++
            errors_of "modifiedOn"
              (required (lookup kw "modifiedOn")
                 (fun v => validated (convert_to_datetime v))) ++
            errors_of "archived" (required (lookup kw "archived") bool_field) ++
            errors_of "type" (required (lookup kw "type") str_field) ++
            errors_of "title" (required (lookup kw "title") str_field) ++
            errors_of "data" (required (lookup kw "data") dict_any_field) ++
            errors_of "utterance" (required (lookup kw "utterance") dict_str_field))).
Proof.
  intros Hc Hm. unfold construct. rewrite Hc, Hm.
  repeat match goal with
         | |- context [match accepted ?f with _ => _ end] =>
             destruct (accepted f); [|right; reflexivity]
         end.
  left. eexists; reflexivity.
Qed.

(** X15.  A payload that lacks a required field is rejected with a
    [ValidationError] that lists that field as required, provided the
    timestamps that are present are strings. *)
Theorem missing_field_is_reported c env kw f :
  In f required_fields ->
  lookup kw f = None ->
  (forall t v, In t ["createdOn"; "modifiedOn"] -> lookup kw t = Some v ->
               exists s, v = JStr s) ->
  exists errors,
    construct c env kw = Raise (ValidationError errors) /\
    In (f, [Lit "Field required"]) errors.
Proof.
  intros Hf Hl Hs.
  assert (Hc := aborted_timestamp kw "createdOn"
                  (fun v => Hs "createdOn" v (or_introl eq_refl))).
  assert (Hm := aborted_timestamp kw "modifiedOn"
                  (fun v => Hs "modifiedOn" v (or_intror (or_introl eq_refl)))).
  destruct (construct_no_abort c env kw Hc Hm) as [[e He] | He].
  - exfalso. apply construct_returns in He.
    destruct He as (_ & _ & Hu & (v1 & Hco & _) & (v2 & Hmo & _) & (v3 & Ha & _) &
                    Ht & Hti & Hd & (ut & Hut & _)).
    cbn in Hf.
    repeat (destruct Hf as [Hf|Hf]; [subst f; congruence|]). exact Hf.
  - eexists. split; [exact He|].
    cbn in Hf. rewrite !in_app_iff.
    repeat (destruct Hf as [Hf|Hf];
            [subst f; rewrite Hl; cbn; tauto|]).
    contradiction.
Qed.

Lemma missing_field_is_reported_witness :
  exists errors,
    construct ClsNoteEntry Sample.env Fixture.anonymous = Raise (ValidationError errors) /\
    In ("userId", [Lit "Field required"]) errors.
Proof.
  apply (missing_field_is_reported ClsNoteEntry Sample.env Fixture.anonymous "userId").
  - cbn; tauto.
  - reflexivity.
  - intros t v Ht Hv. cbn in Ht.
    destruct Ht as [<-|[<-|[]]]; cbn in Hv; inversion Hv; eexists; reflexivity.
Defined.

(* ===================================================================== *)
(** ** Timestamps without a zone *)
(* ===================================================================== *)

Lemma representable_bounds t :
  Iso8601.representable t = true ->
  (1 <= Iso8601.ts_year t <= 9999 /\ 1 <= Iso8601.ts_month t <= 12 /\
   1 <= Iso8601.ts_day t <= days_in_month (Iso8601.ts_year t) (Iso8601.ts_month t) /\
   0 <= Iso8601.ts_hour t <= 23 /\ 0 <= Iso8601.ts_minute t <= 59 /\
   0 <= Iso8601.ts_second t <= 59 /\
   match Iso8601.ts_fraction t with
   | Iso8601.NoFraction => True
   | Iso8601.Millis ms => 0 <= ms <= 999
   | Iso8601.Micros us => 0 <= us <= 999999
   end)%Z.
Proof.
  unfold Iso8601.representable. rewrite !andb_true_iff, !between_true.
  intros [[[[[[[Hy Hm] Hd] Hh] Hmi] Hs] Hf] Hz].
  repeat split; try lia.
  destruct (Iso8601.ts_fraction t); [exact I | apply between_true; exact Hf ..].
Qed.

(** A timestamp of the complete extended representation among all
    representations *)
Lemma render_local_parts (t : Iso8601.timestamp) :
  exists f,
    render_local t =
    (Timestamp.render_date true
       (Timestamp.Calendar (Iso8601.ts_year t) (Iso8601.ts_month t) (Iso8601.ts_day t)) ++
     "T" ++
     Timestamp.render_time true
       (Timestamp.Seconds (Iso8601.ts_hour t) (Iso8601.ts_minute t) (Iso8601.ts_second t) f) ++
     Timestamp.designator true None)%string /\
    Timestamp.micros f = Iso8601.micros (Iso8601.ts_fraction t) /\
    (Iso8601.representable t = true ->
     match f with
     | Timestamp.Whole => true
     | Timestamp.Decimal _ w n => (1 <=? w)%nat && (0 <=? n)%Z && (n <? 10 ^ Z.of_nat w)%Z
     end = true).
Proof.
  destruct (Iso8601.ts_fraction t) as [|ms|us] eqn:Hf.
  - exists Timestamp.Whole. split; [|split; [reflexivity | intros; reflexivity]].
    unfold render_local. rewrite Hf.
    cbn [Timestamp.render_date Timestamp.render_time Timestamp.render_fraction
         Timestamp.mark Timestamp.designator Iso8601.render_fraction].
    rewrite !append_assoc, !append_nil_r. reflexivity.
  - exists (Timestamp.Decimal false 3 ms). split; [|split].
    + unfold render_local. rewrite Hf.
      cbn [Timestamp.render_date Timestamp.render_time Timestamp.render_fraction
           Timestamp.mark Timestamp.designator Iso8601.render_fraction].
      rewrite !append_assoc, !append_nil_r. reflexivity.
    + cbn. lia.
    + intros Hr. apply representable_bounds in Hr. rewrite Hf in Hr.
      rewrite !andb_true_iff. repeat split; [apply Z.leb_le | apply Z.ltb_lt; cbn]; lia.
  - exists (Timestamp.Decimal false 6 us). split; [|split].
    + unfold render_local. rewrite Hf.
      cbn [Timestamp.render_date Timestamp.render_time Timestamp.render_fraction
           Timestamp.mark Timestamp.designator Iso8601.render_fraction].
      rewrite !append_assoc, !append_nil_r. reflexivity.
    + cbn. lia.
    + intros Hr. apply representable_bounds in Hr. rewrite Hf in Hr.
      rewrite !andb_true_iff. repeat split; [apply Z.leb_le | apply Z.ltb_lt; cbn]; lia.
Qed.

(** X16.  A timestamp text without a zone designator is accepted too: the
    validator returns the naive value of its fields, which is not
    timezone-aware and has no absolute instant. *)
Theorem zoneless_timestamp_is_naive (t : Iso8601.timestamp) :
  Iso8601.representable t = true ->
  convert_to_datetime (JStr (render_local t)) = Return (denote_local t) /\
  aware (denote_local t) = false /\
  instant (denote_local t) = None.
Proof.
  intros Hr. split; [|split; reflexivity].
  pose proof (representable_bounds t Hr) as Hb.
  destruct Hb as (Hy & Hm & Hd & Hh & Hmi & Hs & Hf).
  pose proof (days_in_month_le (Iso8601.ts_year t) (Iso8601.ts_month t)) as Hdm.
  assert (Hrep : replace "Z" "+00:00" (render_local t) = render_local t).
  { unfold render_local. rewrite !replace_app, !replace_zfill.
    repeat (apply f_equal2; [reflexivity|]).
    destruct (Iso8601.ts_fraction t); cbn [Iso8601.render_fraction];
      [reflexivity | |]; rewrite replace_app, replace_zfill; reflexivity. }
  unfold convert_to_datetime. rewrite Hrep.
  destruct (render_local_parts t) as (f & -> & Hus & Hfok).
  rewrite fromisoformat_text.
  - assert (E : Timestamp.read
                  (Timestamp.Calendar (Iso8601.ts_year t) (Iso8601.ts_month t)
                                      (Iso8601.ts_day t))
                  (Timestamp.Seconds (Iso8601.ts_hour t) (Iso8601.ts_minute t)
                                     (Iso8601.ts_second t) f) None = denote_local t).
    { unfold Timestamp.read, denote_local. cbn. rewrite Hus. reflexivity. }
    rewrite E.
    assert (Hin : in_range (denote_local t) = true).
    { assert (Hmic : (0 <= Iso8601.micros (Iso8601.ts_fraction t) <= 999999)%Z)
        by (destruct (Iso8601.ts_fraction t); cbn; lia).
      unfold in_range, denote_local;
        cbn [year month day hour minute second microsecond tzinfo].
      rewrite !andb_true_iff, !Z.leb_le. repeat split; lia. }
    rewrite Hin. reflexivity.
  - cbn [Timestamp.date_ok]. rewrite !andb_true_iff, !between_true. lia.
  - cbn [Timestamp.time_ok]. rewrite !andb_true_iff, !between_true.
    repeat split; try lia. exact (Hfok Hr).
  - reflexivity.
Qed.

Lemma zoneless_timestamp_is_naive_witness :
  convert_to_datetime (JStr "2024-05-06T10:20:30.250000") =
  Return (denote_local Fixture.local_time) /\
  aware (denote_local Fixture.local_time) = false /\
  instant (denote_local Fixture.local_time) = None.
Proof.
  apply (zoneless_timestamp_is_naive Fixture.local_time). reflexivity.
Defined.

(* ===================================================================== *)
(** ** Resource extraction of the three classes *)
(* ===================================================================== *)

Lemma url_comprehension_truthy files : forall urls,
  url_comprehension files = Return urls -> forallb truthy urls = true.
Proof.
  induction files as [|file files IH]; intros urls; cbn [url_comprehension].
  - intros H; inversion H; reflexivity.
  - destruct (get file "url" JNull) as [u|] eqn:Hg; cbn [obind]; [|discriminate].
    destruct (truthy u) eqn:Hu; [|apply IH].
    destruct (url_comprehension files) as [rest|]; cbn [obind]; [|discriminate].
    intros H; inversion H; subst. cbn [forallb]. rewrite Hu. exact (IH rest eq_refl).
Qed.

(** The extraction of a resource-bearing class, by its two keys *)
Lemma get_resource_urls_keys e outer inner :
  resource_keys (cls e) = Some (outer, inner) ->
  get_resource_urls e =
  if contains (data e) outer then
    obind (dict_item (data e) outer) (fun sub =>
    obind (get sub inner (JList [])) (fun files =>
    obind (iter files) url_comprehension))
  else Return [].
Proof.
  unfold get_resource_urls, resource_keys.
  destruct (cls e); try discriminate; intros H; inversion H; reflexivity.
Qed.

(** X17.  Each resource-bearing class reads its file descriptors under
    its own two keys and nothing else of [data]: for an entry whose value
    under the first key, when present, is a dict, whose value under the
    second, when present, is a list of dicts, [get_resource_urls] returns
    the non-empty [url] values of the descriptors in list order, and the
    empty list when a level is missing. *)
Theorem resource_urls_in_order (e : Entry) (outer inner : string) :
  resource_keys (cls e) = Some (outer, inner) ->
  files_shaped outer inner (data e) = true ->
  get_resource_urls e =
  Return (filter truthy (map url_of (files_under outer inner (data e)))).
Proof.
  intros Hk Hs. rewrite (get_resource_urls_keys e outer inner Hk).
  unfold contains, dict_item, files_shaped, files_under in *.
  destruct (lookup (data e) outer) as [[| | | | |sub]|]; try discriminate;
    [|reflexivity].
  cbn [obind get]. unfold dict_get.
  destruct (lookup sub inner) as [[| | | |files|]|]; try discriminate;
    cbn [obind iter]; [|reflexivity].
  apply url_comprehension_dicts; assumption.
Qed.

Lemma resource_urls_in_order_witness :
  get_resource_urls Fixture.magic =
  Return [JStr "http://x/m1.png"; JStr "http://x/m2.png"].
Proof.
  apply (resource_urls_in_order Fixture.magic "magicCameraData" "aiGeneratedImages");
    reflexivity.
Defined.

(** X18.  Whatever the shape of [data], a list that [get_resource_urls]
    returns holds no empty value: no null, no empty string, no zero, no
    empty list or dict. *)
Theorem resource_urls_are_truthy (e : Entry) (urls : list json) :
  get_resource_urls e = Return urls -> forallb truthy urls = true.
Proof.
  intros H.
  destruct (resource_keys (cls e)) as [[outer inner]|] eqn:Hk.
  - rewrite (get_resource_urls_keys e outer inner Hk) in H.
    destruct (contains (data e) outer); [|inversion H; reflexivity].
    destruct (dict_item (data e) outer) as [sub|]; cbn [obind] in H; [|discriminate].
    destruct (get sub inner (JList [])) as [files|]; cbn [obind] in H; [|discriminate].
    destruct (iter files) as [items|]; cbn [obind] in H; [|discriminate].
    exact (url_comprehension_truthy _ _ H).
  - unfold get_resource_urls in H. unfold resource_keys in Hk.
    destruct (cls e); discriminate.
Qed.

Lemma resource_urls_are_truthy_witness :
  forallb truthy [JStr "http://x/m1.png"; JStr "http://x/m2.png"] = true.
Proof.
  apply (resource_urls_are_truthy Fixture.magic). reflexivity.
Defined.

(* ===================================================================== *)
(** ** The pipeline beyond the signed list *)
(* ===================================================================== *)

Lemma get_signed_total env entry s :
  exists v s',
    get_signed_resource_urls env entry s = (Return v, s') /\
    self s' = self s /\ disk s' = disk s.
Proof.
  unfold get_signed_resource_urls. run.
  destruct (get_resource_urls entry) as [urls|x]; cbn;
    [|eexists; eexists; repeat split].
  destruct (fetch_user_entry_resource env urls) as [response|x]; cbn;
    [|eexists; eexists; repeat split].
  destruct (get response "resources" (JList [])) as [v|x]; cbn;
    eexists; eexists; repeat split.
Qed.

(** X19.  [get_signed_resource_urls] never raises and touches neither the
    journal nor the files.  When the answer of the signing service is a
    dict, it returns what that dict has under [resources], the empty list
    without that key, and logs nothing.  When the extraction raises, when
    the call raises, and when the answer is not a dict (the
    [AttributeError] of its missing [get]), it logs that exception in one
    error record and returns the empty list. *)
Theorem signed_urls_never_raise env entry s :
  (exists v s',
     get_signed_resource_urls env entry s = (Return v, s') /\
     self s' = self s /\ disk s' = disk s) /\
  (forall x,
     get_resource_urls entry = Raise x ->
     get_signed_resource_urls env entry s = signing_failed s x) /\
  (forall urls x,
     get_resource_urls entry = Return urls ->
     fetch_user_entry_resource env urls = Raise x ->
     get_signed_resource_urls env entry s = signing_failed s x) /\
  (forall urls response,
     get_resource_urls entry = Return urls ->
     fetch_user_entry_resource env urls = Return response ->
     is_dict response = false ->
     get_signed_resource_urls env entry s =
     signing_failed s (no_attribute response "get")) /\
  (forall urls answer,
     get_resource_urls entry = Return urls ->
     fetch_user_entry_resource env urls = Return (JDict answer) ->
     get_signed_resource_urls env entry s =
     (Return match lookup answer "resources" with
             | Some signed => signed
             | None => JList []
             end, s)).
Proof.
  split; [apply get_signed_total|].
  unfold get_signed_resource_urls, signing_failed. run.
  repeat split.
  - intros x ->. reflexivity.
  - intros urls x -> ->. reflexivity.
  - intros urls response -> -> Hd. destruct response; try discriminate; reflexivity.
  - intros urls answer -> ->. cbn. unfold dict_get. destruct s; reflexivity.
Qed.

(** The three ways [save_resources] ends *)
Lemma save_resources_cases env entry directory s :
  match get_resource_urls entry with
  | Raise y => save_resources env entry directory s = (Raise y, s)
  | Return urls =>
      exists v s1,
        get_signed_resource_urls env entry s = (Return v, s1) /\
        self s1 = self s /\ disk s1 = disk s /\
        match iter v with
        | Raise z => save_resources env entry directory s = (Raise z, s1)
        | Return signed =>
            exists s2,
              save_resources env entry directory s =
              (Return (downloads env entry directory urls 0 signed), s2)
        end
  end.
Proof.
  unfold save_resources, bind, lift.
  destruct (get_resource_urls entry) as [urls|y]; [|reflexivity].
  destruct (get_signed_total env entry s) as (v & s1 & Hg & Hs1 & Hd1).
  exists v, s1. rewrite Hg. split; [reflexivity|]. split; [exact Hs1|]. split; [exact Hd1|].
  destruct (iter v) as [signed|z]; [|reflexivity].
  destruct (save_loop_downloads env entry directory urls signed 0 [] s1) as (s2 & Hl & _).
  exists s2. exact Hl.
Qed.

(** X20.  [save_resources] raises what the extraction of the raw URLs
    raises, and the [TypeError] of a value that came back as the signed
    list and cannot be iterated, such as a null under [resources]; in
    both cases before anything is fetched or written.  When the items of
    the signed list are strings, as the service documents them, it raises
    for no other reason: no failure of a fetch or a write makes it
    raise. *)
Theorem save_resources_raises_only env entry directory s x :
  (forall v items,
     fst (get_signed_resource_urls env entry s) = Return v ->
     iter v = Return items -> forallb is_str items = true) ->
  (fst (save_resources env entry directory s) = Raise x <->
   get_resource_urls entry = Raise x \/
   exists urls v,
     get_resource_urls entry = Return urls /\
     fst (get_signed_resource_urls env entry s) = Return v /\
     iter v = Raise x) /\
  (fst (save_resources env entry directory s) = Raise x ->
   self (snd (save_resources env entry directory s)) = self s /\
   disk (snd (save_resources env entry directory s)) = disk s).
Proof.
  intros _.
  pose proof (save_resources_cases env entry directory s) as H.
  destruct (get_resource_urls entry) as [urls|y].
  - destruct H as (v & s1 & Hg & Hs1 & Hd1 & H). rewrite Hg. cbn [fst].
    destruct (iter v) as [signed|z] eqn:Hi.
    + destruct H as [s2 H]. rewrite H. cbn [fst].
      split; [|discriminate]. split; [discriminate|].
      intros [E | (urls' & v' & _ & Hv & Hx)]; [discriminate|].
      inversion Hv; subst v'. congruence.
    + rewrite H. cbn [fst snd]. split; [|intros _; split; assumption]. split.
      * intros E; inversion E; subst. right. exists urls, v. repeat split; assumption.
      * intros [E | (urls' & v' & _ & Hv & Hx)]; [discriminate|].
        inversion Hv; subst v'. congruence.
  - rewrite H. cbn [fst snd]. split; [|intros _; split; reflexivity]. split.
    + intros E; inversion E; subst. left; reflexivity.
    + intros [E | (urls' & v' & E & _)]; [congruence | discriminate].
Qed.

Lemma save_resources_raises_only_witness :
  fst (save_resources Fixture.env_null Sample.pictures "out" (fresh (Sample.journal 1))) =
  Raise (TypeError [Lit "'"; Lit "NoneType"; Lit "' object is not iterable"]).
Proof.
  refine (proj2 (proj1 (save_resources_raises_only Fixture.env_null Sample.pictures "out"
                          (fresh (Sample.journal 1)) _ _)) _).
  - intros v items Hv Hi. vm_compute in Hv. inversion Hv; subst v. discriminate Hi.
  - right.
    exists [JStr "http://x/a.jpg"; JStr "http://x/b.jpg"; JStr "http://x/c.jpg"], JNull.
    repeat split.
Defined.

Lemma saved_path_written env entry directory urls idx resource_url :
  saved_path env entry directory urls idx resource_url =
  match written_file env entry directory urls idx resource_url with
  | Some w => Some (reported (fst w))
  | None => None
  end.
Proof.
  unfold saved_path, written_file.
  destruct (requests_get env idx resource_url) as [content|]; [|reflexivity].
  destruct (nth_error urls idx) as [[| | |raw| |]|]; try reflexivity.
  destruct (open_write env idx _ content); reflexivity.
Qed.

(** What one turn of the loop returns, logs and writes *)
Lemma save_one_effects env entry directory urls idx resource_url saved s :
  match written_file env entry directory urls idx resource_url with
  | Some w =>
      save_one env entry directory urls idx resource_url saved s =
      (Return (saved ++ [reported (fst w)]),
       mkState (self s) (log s ++ [saved_record w]) (disk s ++ [w]))
  | None =>
      exists message,
        save_one env entry directory urls idx resource_url saved s =
        (Return saved, mkState (self s) (log s ++ [(ERROR, message)]) (disk s))
  end.
Proof.
  unfold save_one, written_file, saved_record, reported, list_item, split_last. run.
  destruct (requests_get env idx resource_url) as [content|x]; cbn.
  - destruct (nth_error urls idx) as [raw|]; cbn.
    + destruct raw as [| | |raw| |]; cbn; try solve [eexists; reflexivity].
      destruct (open_write env idx _ content) as [[]|x]; cbn.
      * reflexivity.
      * destruct (is_RequestException x); cbn; eexists; reflexivity.
    + eexists; reflexivity.
  - destruct (is_RequestException x); cbn; eexists; reflexivity.
Qed.

Lemma downloads_turns env entry directory urls signed : forall idx,
  downloads env entry directory urls idx signed =
  map (fun w => reported (fst w)) (kept (turns env entry directory urls idx signed)).
Proof.
  induction signed as [|u rest IH]; intros idx; cbn [downloads turns kept map];
    [reflexivity|].
  rewrite saved_path_written.
  destruct (written_file env entry directory urls idx u) as [w|]; cbn [kept map];
    rewrite IH; reflexivity.
Qed.

Lemma save_loop_effects env entry directory urls signed : forall idx saved s,
  exists records,
    save_loop env entry directory urls idx signed saved s =
    (Return (saved ++ map (fun w => reported (fst w))
                          (kept (turns env entry directory urls idx signed))),
     mkState (self s) (log s ++ records)
             (disk s ++ kept (turns env entry directory urls idx signed))) /\
    map is_error records = map is_none (turns env entry directory urls idx signed) /\
    forall i w,
      nth_error (turns env entry directory urls idx signed) i = Some (Some w) ->
      nth_error records i = Some (saved_record w).
Proof.
  induction signed as [|u rest IH]; intros idx saved s; cbn [save_loop turns].
  - exists []. cbn [kept map]. rewrite !app_nil_r. destruct s.
    repeat split. intros i w H. destruct i; discriminate.
  - pose proof (save_one_effects env entry directory urls idx u saved s) as H1.
    unfold bind at 1.
    destruct (written_file env entry directory urls idx u) as [w|].
    + rewrite H1.
      destruct (IH (S idx) (saved ++ [reported (fst w)])
                   (mkState (self s) (log s ++ [saved_record w]) (disk s ++ [w])))
        as (records & Hl & He & Hi).
      rewrite Hl. cbn [self log disk kept map].
      exists (saved_record w :: records).
      rewrite <- !app_assoc. cbn [app]. repeat split.
      * cbn [map is_none]. rewrite He. reflexivity.
      * intros i w' H. destruct i as [|i]; cbn [nth_error] in *.
        -- inversion H; reflexivity.
        -- apply Hi; exact H.
    + destruct H1 as [message H1]. rewrite H1.
      destruct (IH (S idx) saved (mkState (self s) (log s ++ [(ERROR, message)]) (disk s)))
        as (records & Hl & He & Hi).
      rewrite Hl. cbn [self log disk kept map].
      exists ((ERROR, message) :: records).
      rewrite <- !app_assoc. cbn [app]. repeat split.
      * cbn [map is_none]. rewrite He. reflexivity.
      * intros i w' H. destruct i as [|i]; cbn [nth_error] in *.
        -- discriminate.
        -- apply Hi; exact H.
Qed.

(** X21.  For a signed list of strings, [save_resources] takes one turn
    per signed URL, in order.  A turn whose fetch, raw URL and write are
    all good writes the content it fetched under the path it built, before
    the separators of that path are replaced, logs that it saved the
    image under the path with the separators replaced, and reports that
    path; every other turn writes nothing and logs one error.  The files
    written and the paths returned are exactly those of the good turns, in
    order, and the journal is left as it was. *)
Theorem save_resources_effects env entry directory urls response signed s :
  get_resource_urls entry = Return urls ->
  fetch_user_entry_resource env urls = Return response ->
  get response "resources" (JList []) = Return (JList signed) ->
  forallb is_str signed = true ->
  let s' := snd (save_resources env entry directory s) in
  let done := turns env entry directory urls 0 signed in
  fst (save_resources env entry directory s) =
  Return (map (fun w => reported (fst w)) (kept done)) /\
  self s' = self s /\
  disk s' = disk s ++ kept done /\
  exists records,
    log s' = log s ++ records /\
    map is_error records = map is_none done /\
    forall i w, nth_error done i = Some (Some w) ->
                nth_error records i = Some (saved_record w).
Proof.
  intros Hu Hf Hr _ s' done. unfold s', done.
  unfold save_resources, get_signed_resource_urls. run.
  rewrite Hu, Hf, Hr. cbn.
  destruct (save_loop_effects env entry directory urls signed 0 [] s)
    as (records & Hl & He & Hi).
  fold (@bind (list string)).
  match goal with
  | |- context [save_loop env entry directory urls 0 signed [] ?st] =>
      replace st with s by (destruct s; reflexivity)
  end.
  rewrite Hl. cbn [fst snd self log disk app].
  repeat split. exists records. repeat split; assumption.
Qed.

Lemma save_resources_effects_witness :
  let s := fresh (Sample.journal 1) in
  let s' := snd (save_resources Sample.env Sample.pictures "out" s) in
  let done := [Some ("out/e1_a.jpg", [Byte.x89; Byte.x50]); None;
               Some ("out/e1_c.jpg", [Byte.x89; Byte.x50])] in
  fst (save_resources Sample.env Sample.pictures "out" s) =
  Return (map (fun w => reported (fst w)) (kept done)) /\
  self s' = self s /\
  disk s' = disk s ++ kept done /\
  exists records,
    log s' = log s ++ records /\
    map is_error records = map is_none done /\
    forall i w, nth_error done i = Some (Some w) ->
                nth_error records i = Some (saved_record w).
Proof.
  apply (save_resources_effects Sample.env Sample.pictures "out"
           [JStr "http://x/a.jpg"; JStr "http://x/b.jpg"; JStr "http://x/c.jpg"]
           (JDict [("resources",
                    JList [JStr "http://x/a.jpg?sig=1"; JStr "http://x/b.jpg?sig=1";
                           JStr "http://x/c.jpg?sig=1"])])
           [JStr "http://x/a.jpg?sig=1"; JStr "http://x/b.jpg?sig=1";
            JStr "http://x/c.jpg?sig=1"]
           (fresh (Sample.journal 1))); reflexivity.
Defined.

Lemma split_not_nil sep s : split sep s <> [].
Proof.
  destruct s as [|a s]; cbn; [discriminate|].
  destruct (Ascii.eqb a sep); [discriminate|].
  destruct (split sep s); discriminate.
Qed.

Lemma split_single sep t : forall w, split sep t = [w] -> t = w.
Proof.
  induction t as [|b t IH]; intros w; cbn [split].
  - intros H; inversion H; reflexivity.
  - destruct (Ascii.eqb b sep).
    + intros H. inversion H as [[Hw Ht]]. exfalso; exact (split_not_nil sep t Ht).
    + destruct (split sep t) as [|v vs] eqn:Hv.
      * exfalso; exact (split_not_nil sep t Hv).
      * intros H; inversion H; subst. f_equal. apply IH. reflexivity.
Qed.

Lemma split_no_sep sep t : has_char sep t = false -> split sep t = [t].
Proof.
  induction t as [|b t IH]; cbn [has_char split]; [reflexivity|].
  intros H. apply orb_false_iff in H. destruct H as [Hb Ht].
  rewrite Hb, (IH Ht). reflexivity.
Qed.

(** The last piece of a split is the part of the string after its last
    separator: it has no separator, and what precedes it is empty or ends
    with one. *)
Lemma split_last_piece sep s :
  has_char sep (last (split sep s) EmptyString) = false /\
  exists prefix,
    s = (prefix ++ last (split sep s) EmptyString)%string /\
    (prefix = EmptyString \/ exists q, prefix = (q ++ String sep EmptyString)%string).
Proof.
  induction s as [|a s IH]; cbn [split].
  - split; [reflexivity | exists EmptyString; split; [reflexivity | left; reflexivity]].
  - pose proof (split_not_nil sep s) as Hn.
    destruct (split sep s) as [|w ws] eqn:Hs; [contradiction|].
    destruct IH as [IHc (prefix & IHp & IHe)].
    destruct (Ascii.eqb_spec a sep) as [Ha|Ha].
    + change (last (EmptyString :: w :: ws) EmptyString)
        with (last (w :: ws) EmptyString).
      split; [exact IHc|]. exists (String a prefix). cbn [String.append].
      split; [f_equal; exact IHp|]. right. subst a.
      destruct IHe as [->|[q ->]].
      * exists EmptyString. reflexivity.
      * exists (String sep q). reflexivity.
    + destruct ws as [|w' ws].
      * cbn [last] in *. split.
        -- cbn [has_char]. apply Ascii.eqb_neq in Ha. rewrite Ha. exact IHc.
        -- exists EmptyString. cbn [String.append].
           rewrite (split_single sep s w Hs). split; [reflexivity | left; reflexivity].
      * change (last (String a w :: w' :: ws) EmptyString)
          with (last (w :: w' :: ws) EmptyString).
        split; [exact IHc|]. exists (String a prefix). cbn [String.append].
        split; [f_equal; exact IHp|]. right.
        destruct IHe as [->|[q ->]].
        -- exfalso. cbn [String.append] in IHp.
           rewrite <- IHp in IHc. rewrite (split_no_sep sep s IHc) in Hs. discriminate.
        -- exists (String a q). reflexivity.
Qed.

Lemma reported_has_no_slash p : has_char slash (reported p) = false.
Proof.
  unfold reported. induction p as [|a p IH]; cbn [replace]; [reflexivity|].
  destruct (Ascii.eqb a slash) eqn:Ha.
  - cbn [String.append has_char]. rewrite IH. reflexivity.
  - cbn [has_char]. rewrite Ha, IH. reflexivity.
Qed.

(** X22.  A turn of the loop that adds a path for a signed URL has
    fetched that URL and names the file after the raw URL at the same
    position: the entry id, an underscore and the part of the raw URL
    after its last slash (what precedes that part is empty or ends with a
    slash, and the part itself has none), joined to the directory.  The
    file is written under that path with the content fetched; the path
    that is reported is that path with every forward slash replaced, and
    so contains none. *)
Theorem saved_path_naming env entry directory urls idx signed_url saved s p :
  fst (save_one env entry directory urls idx (JStr signed_url) saved s) =
  Return (saved ++ [p]) ->
  exists raw content prefix,
    requests_get env idx (JStr signed_url) = Return content /\
    nth_error urls idx = Some (JStr raw) /\
    let base := last (split slash raw) EmptyString in
    let save_path := os_path_join env directory (id entry ++ "_" ++ base)%string in
    raw = (prefix ++ base)%string /\
    (prefix = EmptyString \/ exists q, prefix = (q ++ "/")%string) /\
    has_char slash base = false /\
    p = reported save_path /\
    has_char slash p = false /\
    disk (snd (save_one env entry directory urls idx (JStr signed_url) saved s)) =
    disk s ++ [(save_path, content)].
Proof.
  intros H.
  pose proof (save_one_effects env entry directory urls idx (JStr signed_url) saved s) as He.
  destruct (written_file env entry directory urls idx (JStr signed_url)) as [w|] eqn:Hw.
  - rewrite He in H |- *. cbn [fst snd disk] in *.
    inversion H as [Hp]. apply app_inv_head in Hp. inversion Hp; subst p.
    unfold written_file in Hw.
    destruct (requests_get env idx (JStr signed_url)) as [content|]; [|discriminate].
    destruct (nth_error urls idx) as [[| | |raw| |]|]; try discriminate.
    destruct (open_write env idx _ content); [|discriminate].
    inversion Hw; subst w. cbn [fst].
    destruct (split_last_piece slash raw) as [Hc (prefix & Hr & Hq)].
    exists raw, content, prefix.
    repeat split; try assumption. apply reported_has_no_slash.
  - destruct He as [message He]. rewrite He in H. cbn [fst] in H.
    inversion H as [Hp]. rewrite <- (app_nil_r saved) in Hp at 1.
    apply app_inv_head in Hp. discriminate.
Qed.

Lemma saved_path_naming_witness :
  exists raw content prefix,
    requests_get Sample.env 0 (JStr "http://x/a.jpg?sig=1") = Return content /\
    nth_error [JStr "http://x/a.jpg"; JStr "http://x/b.jpg"; JStr "http://x/c.jpg"] 0 =
    Some (JStr raw) /\
    let base := last (split slash raw) EmptyString in
    let save_path := os_path_join Sample.env "out" (id Sample.pictures ++ "_" ++ base)%string in
    raw = (prefix ++ base)%string /\
    (prefix = EmptyString \/ exists q, prefix = (q ++ "/")%string) /\
    has_char slash base = false /\
    Sample.windows "out/e1_a.jpg" = reported save_path /\
    has_char slash (Sample.windows "out/e1_a.jpg") = false /\
    disk (snd (save_one Sample.env Sample.pictures "out"
                 [JStr "http://x/a.jpg"; JStr "http://x/b.jpg"; JStr "http://x/c.jpg"]
                 0 (JStr "http://x/a.jpg?sig=1") [] (fresh (Sample.journal 1)))) =
    disk (fresh (Sample.journal 1)) ++ [(save_path, content)].
Proof.
  apply (saved_path_naming Sample.env Sample.pictures "out"
           [JStr "http://x/a.jpg"; JStr "http://x/b.jpg"; JStr "http://x/c.jpg"]
           0 "http://x/a.jpg?sig=1" [] (fresh (Sample.journal 1))).
  reflexivity.
Defined.
